(** * Matrix-keyboard MIDI controller: a shallow embedding of the C sources

    One module per translation unit of the firmware, and a bench:
    - [Midi]            app/midi.c, app/midi.h
    - [MCP23017]        drivers/MCP23017/stm32g4_mcp23017.c
    - [MatrixKeyboard]  drivers/MatrixKeyboard/stm32g4_matrix_keyboard.c
    - [Main]            app/main.c
    - [Bench]           a simulated expander and switch matrix, used to
                        evaluate the driver and the scan on concrete inputs

    Machine integers are values of [Z] with the wrap-around of their C type
    written out.  The target is an STM32G4 (ILP32): [unsigned long] and
    [uint32_t] are 32 bits wide, [uint8_t] is 8 bits wide and plain [char] is
    unsigned. *)

From Stdlib Require Import ZArith List Lia Bool String Ascii.
From stdpp Require Import base list.
Import ListNotations.
Local Open Scope Z_scope.

(** ** Machine arithmetic shared by the translation units *)

Definition UINT8_MOD : Z := 256.
Definition UINT16_MOD : Z := 65536.
Definition UINT32_MOD : Z := 4294967296.

Definition is_uint8 (x : Z) : Prop := 0 <= x < UINT8_MOD.
Definition is_uint32 (x : Z) : Prop := 0 <= x < UINT32_MOD.

(** [x++] on a [uint8_t]. *)
Definition incr8 (x : Z) : Z := (x + 1) mod UINT8_MOD.

(** [1UL << i].  For [i >= 32] the C expression is undefined; the value used
    here is the one the Cortex-M [LSL] instruction produces (all bits shifted
    out), and it is also what a 64-bit [unsigned long] yields once the result
    is combined with a 32-bit operand. *)
Definition ul_bit (i : nat) : Z := Z.shiftl 1 (Z.of_nat i) mod UINT32_MOD.

(** [~x] on a 32-bit unsigned operand. *)
Definition ul_not (x : Z) : Z := Z.lnot x mod UINT32_MOD.

(** [(x & m) != 0]. *)
Definition masked (x m : Z) : bool := negb (Z.land x m =? 0).

(** ** State passing

    The C functions act on file-scope variables and on the peripherals; a
    function of result type [A] over a state [S] is a value of [St S A]. *)

Definition St (S A : Type) : Type := S -> A * S.
Definition ret {S A} (a : A) : St S A := fun s => (a, s).
Definition bind {S A R} (c : St S A) (k : A -> St S R) : St S R :=
  fun s => let (a, s') := c s in k a s'.

Notation "x <- c ;; k" := (bind c (fun x => k))
  (at level 100, c at next level, right associativity).
Notation "c ;;; k" := (bind c (fun _ => k))
  (at level 100, right associativity).

Module Midi.

(** *** app/midi.h, app/midi.c : MIDI byte-stream encoder *)

Definition MIDI_NOTE_OFF : Z := 0x80.
Definition MIDI_NOTE_ON : Z := 0x90.
Definition MIDI_CONTROL_CHANGE : Z := 0xB0.
Definition MIDI_PROGRAM_CHANGE : Z := 0xC0.
Definition MIDI_PITCH_BEND : Z := 0xE0.
Definition MIDI_CC_ALL_NOTES_OFF : Z := 123.

(** The module's only variable, [midi_initialized], together with the bytes
    handed so far to [BSP_UART_putc (MIDI_UART_ID, _)] by [MIDI_send_raw],
    oldest first.  These are the bytes of the MIDI messages; the text that
    [printf] puts on the same UART is not part of [uart_tx]. *)
Record midi_t := mkMidi {
  midi_initialized : bool;
  uart_tx : list Z
}.

Definition BSP_UART_putc (c : Z) (m : midi_t) : midi_t :=
  {| midi_initialized := midi_initialized m; uart_tx := uart_tx m ++ [c] |}.

(** [data] is [None] for a null pointer; [len] is the [uint8_t length]. *)
Definition MIDI_send_raw (data : option (list Z)) (len : Z) (m : midi_t) : midi_t :=
  match data with
  | None => m
  | Some bytes =>
      if negb (midi_initialized m) || (len =? 0) then m
      else fold_left (fun m' c => BSP_UART_putc c m') (take (Z.to_nat len) bytes) m
  end.

(** A status byte is stored in a [uint8_t]. *)
Definition status_byte (opcode channel : Z) : Z :=
  Z.lor opcode (channel - 1) mod UINT8_MOD.

Definition MIDI_send_note_on (channel note velocity : Z) (m : midi_t) : midi_t :=
  if (channel <? 1) || (16 <? channel) || (127 <? note) || (127 <? velocity) then m
  else MIDI_send_raw (Some [status_byte MIDI_NOTE_ON channel; note; velocity]) 3 m.

Definition MIDI_send_note_off (channel note velocity : Z) (m : midi_t) : midi_t :=
  if (channel <? 1) || (16 <? channel) || (127 <? note) || (127 <? velocity) then m
  else MIDI_send_raw (Some [status_byte MIDI_NOTE_OFF channel; note; velocity]) 3 m.

Definition MIDI_send_control_change (channel controller value : Z) (m : midi_t)
  : midi_t :=
  if (channel <? 1) || (16 <? channel) || (127 <? controller) || (127 <? value) then m
  else MIDI_send_raw
         (Some [status_byte MIDI_CONTROL_CHANGE channel; controller; value]) 3 m.

Definition MIDI_send_program_change (channel program : Z) (m : midi_t) : midi_t :=
  if (channel <? 1) || (16 <? channel) || (127 <? program) then m
  else MIDI_send_raw (Some [status_byte MIDI_PROGRAM_CHANGE channel; program]) 2 m.

(** [value] is an [int16_t]; [bend_value] is the [uint16_t] conversion of
    [value + 8192], saturated from above. *)
Definition MIDI_send_pitch_bend (channel value : Z) (m : midi_t) : midi_t :=
  if (channel <? 1) || (16 <? channel) then m
  else
    let bend_value := (value + 8192) mod UINT16_MOD in
    let bend_value := if 16383 <? bend_value then 16383 else bend_value in
    MIDI_send_raw
      (Some [status_byte MIDI_PITCH_BEND channel;
             Z.land bend_value 0x7F;
             Z.land (Z.shiftr bend_value 7) 0x7F]) 3 m.

Definition MIDI_send_all_notes_off (channel : Z) (m : midi_t) : midi_t :=
  MIDI_send_control_change channel MIDI_CC_ALL_NOTES_OFF 0 m.

Definition MIDI_init (m : midi_t) : midi_t :=
  MIDI_send_all_notes_off 1
    {| midi_initialized := true; uart_tx := uart_tx m |}.

(** **** Note names *)

(** [s[n]] for a NUL-terminated string whose characters are [s]: the
    terminator is read at [n = strlen s]. *)
Definition char_at (s : string) (n : nat) : ascii :=
  match String.get n s with
  | Some c => c
  | None => Ascii.zero
  end.

Definition char_code (c : ascii) : Z := Z.of_nat (nat_of_ascii c).

Definition notes : string := "C C#D D#E F F#G G#A A#B ".

(** The search loop over [i = 0 .. 11], leaving [semitone] at [-1] when no
    entry of [notes] matches. *)
Fixpoint find_semitone (idxs : list nat) (note_char accidental : ascii) : Z :=
  match idxs with
  | [] => -1
  | i :: rest =>
      if Ascii.eqb (char_at notes (i * 2)) note_char
         && ((Ascii.eqb accidental "#" && Ascii.eqb (char_at notes (i * 2 + 1)) "#")
             || (negb (Ascii.eqb accidental "#")
                 && Ascii.eqb (char_at notes (i * 2 + 1)) " "))
      then Z.of_nat i
      else find_semitone rest note_char accidental
  end.

(** The [switch] that rewrites a flat as the sharp of the letter below. *)
Definition flat_to_sharp (note_char : ascii) : option ascii :=
  if Ascii.eqb note_char "D" then Some "C"%char
  else if Ascii.eqb note_char "E" then Some "D"%char
  else if Ascii.eqb note_char "G" then Some "F"%char
  else if Ascii.eqb note_char "A" then Some "G"%char
  else if Ascii.eqb note_char "B" then Some "A"%char
  else None.

Definition note_number_from (note_name : string) (note_char accidental : ascii) : Z :=
  let semitone := find_semitone (seq 0 12) note_char accidental in
  if semitone =? -1 then 255
  else
    let octave_pos :=
      if Ascii.eqb accidental "#" || Ascii.eqb accidental "b" then 2%nat else 1%nat in
    if (String.length note_name <=? octave_pos)%nat then 255
    else
      let octave := char_code (char_at note_name octave_pos) - char_code "0" in
      if (octave <? 0) || (9 <? octave) then 255
      else
        let midi_note := (octave + 1) * 12 + semitone in
        if (0 <=? midi_note) && (midi_note <=? 127) then midi_note else 255.

(** [note_name] is [None] for a null pointer. *)
Definition MIDI_note_name_to_number (note_name : option string) : Z :=
  match note_name with
  | None => 255
  | Some s =>
      if (String.length s <? 2)%nat then 255
      else
        let note_char := char_at s 0 in
        let accidental := if (2 <? String.length s)%nat then char_at s 1 else Ascii.zero in
        if Ascii.eqb accidental "b" then
          match flat_to_sharp note_char with
          | Some c => note_number_from s c "#"
          | None => 255
          end
        else note_number_from s note_char accidental
  end.

(** **** Framing of a message

    A MIDI channel message starts with a status byte (top bit set, below
    the system messages at [0xF0]) and continues with data bytes whose
    top bit is clear. *)
Definition is_status_byte (b : Z) : Prop := 0x80 <= b <= 0xEF.
Definition is_data_byte (b : Z) : Prop := 0 <= b <= 127.

Definition channel_message (opcode channel : Z) (msg : list Z) : Prop :=
  match msg with
  | [] => False
  | st :: data =>
      st = opcode + (channel - 1) /\ is_status_byte st /\ Forall is_data_byte data
  end.

(** [m'] is [m] after [msg] has been handed to the transport. *)
Definition sent (m : midi_t) (msg : list Z) (m' : midi_t) : Prop :=
  midi_initialized m' = midi_initialized m /\ uart_tx m' = uart_tx m ++ msg.

(** **** Note names as the specification describes them

    A letter, an optional accidental and an octave digit; a sharp is one
    semitone above its letter, a flat is the sharp of the letter below, and
    the letters C and F have no flat. *)

Inductive letter := LC | LD | LE | LF | LG | LA | LB.
Inductive accidental_t := Natural | Sharp | Flat.

Definition letter_char (l : letter) : ascii :=
  match l with
  | LC => "C" | LD => "D" | LE => "E" | LF => "F" | LG => "G" | LA => "A" | LB => "B"
  end%char.

Definition letter_semitone (l : letter) : Z :=
  match l with
  | LC => 0 | LD => 2 | LE => 4 | LF => 5 | LG => 7 | LA => 9 | LB => 11
  end.

Definition letter_below (l : letter) : option letter :=
  match l with
  | LD => Some LC | LE => Some LD | LG => Some LF | LA => Some LG | LB => Some LA
  | LC | LF => None
  end.

Definition semitone_spec (l : letter) (a : accidental_t) : option Z :=
  match a with
  | Natural => Some (letter_semitone l)
  | Sharp => Some (letter_semitone l + 1)
  | Flat =>
      match letter_below l with
      | Some l' => Some (letter_semitone l' + 1)
      | None => None
      end
  end.

Definition note_number_spec (l : letter) (a : accidental_t) (octave : nat) : Z :=
  match semitone_spec l a with
  | Some semitone =>
      let n := (Z.of_nat octave + 1) * 12 + semitone in
      if (0 <=? n) && (n <=? 127) then n else 255
  | None => 255
  end.

(** The written form: ["C4"], ["F#3"], ["Bb5"]. *)
Definition note_name (l : letter) (a : accidental_t) (octave : nat) : string :=
  String (letter_char l)
    (match a with
     | Natural => ""
     | Sharp => "#"
     | Flat => "b"
     end ++ String (ascii_of_nat (48 + octave)) "")%string.

(** The sharp spelling of a note number: letter and accidental of its
    semitone, octave digit [number / 12 - 1]. *)
Definition sharp_spelling (number : nat) : letter * accidental_t * nat :=
  let (l, a) :=
    match (number mod 12)%nat with
    | 0 => (LC, Natural) | 1 => (LC, Sharp) | 2 => (LD, Natural)
    | 3 => (LD, Sharp) | 4 => (LE, Natural) | 5 => (LF, Natural)
    | 6 => (LF, Sharp) | 7 => (LG, Natural) | 8 => (LG, Sharp)
    | 9 => (LA, Natural) | 10 => (LA, Sharp) | _ => (LB, Natural)
    end%nat in
  (l, a, (number / 12 - 1)%nat).

End Midi.

Module MCP23017.

(** *** drivers/MCP23017/stm32g4_mcp23017.c : register interface *)

(** Modelled from the spec: the status type of the HAL, declared outside the
    sources; the driver only tests [!= HAL_OK]. *)
Inductive HAL_StatusTypeDef := HAL_OK | HAL_ERROR | HAL_BUSY | HAL_TIMEOUT.

Definition is_ok (s : HAL_StatusTypeDef) : bool :=
  match s with HAL_OK => true | _ => false end.

Inductive MCP23017_register_e :=
| MPC23017_REGISTER_IODIR_A | MPC23017_REGISTER_IODIR_B
| MPC23017_REGISTER_IPOL_A | MPC23017_REGISTER_IPOL_B
| MPC23017_REGISTER_GPINTEN_A | MPC23017_REGISTER_GPINTEN_B
| MPC23017_REGISTER_DEFVAL_A | MPC23017_REGISTER_DEFVAL_B
| MPC23017_REGISTER_INTCON_A | MPC23017_REGISTER_INTCON_B
| MPC23017_REGISTER_IOCON_A | MPC23017_REGISTER_IOCON_B
| MPC23017_REGISTER_GPPU_A | MPC23017_REGISTER_GPPU_B
| MPC23017_REGISTER_INTF_A | MPC23017_REGISTER_INTF_B
| MPC23017_REGISTER_INTCAP_A | MPC23017_REGISTER_INTCAP_B
| MPC23017_REGISTER_GPIO_A | MPC23017_REGISTER_GPIO_B
| MPC23017_REGISTER_OLAT_A | MPC23017_REGISTER_OLAT_B.

(** The enumerators' values: sequential addressing, [IOCON.BANK = 0]. *)
Definition register_address (r : MCP23017_register_e) : Z :=
  match r with
  | MPC23017_REGISTER_IODIR_A => 0x00 | MPC23017_REGISTER_IODIR_B => 0x01
  | MPC23017_REGISTER_IPOL_A => 0x02 | MPC23017_REGISTER_IPOL_B => 0x03
  | MPC23017_REGISTER_GPINTEN_A => 0x04 | MPC23017_REGISTER_GPINTEN_B => 0x05
  | MPC23017_REGISTER_DEFVAL_A => 0x06 | MPC23017_REGISTER_DEFVAL_B => 0x07
  | MPC23017_REGISTER_INTCON_A => 0x08 | MPC23017_REGISTER_INTCON_B => 0x09
  | MPC23017_REGISTER_IOCON_A => 0x0A | MPC23017_REGISTER_IOCON_B => 0x0B
  | MPC23017_REGISTER_GPPU_A => 0x0C | MPC23017_REGISTER_GPPU_B => 0x0D
  | MPC23017_REGISTER_INTF_A => 0x0E | MPC23017_REGISTER_INTF_B => 0x0F
  | MPC23017_REGISTER_INTCAP_A => 0x10 | MPC23017_REGISTER_INTCAP_B => 0x11
  | MPC23017_REGISTER_GPIO_A => 0x12 | MPC23017_REGISTER_GPIO_B => 0x13
  | MPC23017_REGISTER_OLAT_A => 0x14 | MPC23017_REGISTER_OLAT_B => 0x15
  end.

(** Modelled from the spec: the enumerations of [stm32g4_mcp23017.h], which
    is not among the sources, with the enumerators the driver compares
    against.  A [MCP23017_pin_e] is used by the driver as a bit mask over the
    port ([value & pin], [value | pin]) and is kept as the integer the caller
    passes. *)
Inductive MCP23017_port_e := MCP23017_PORT_A | MCP23017_PORT_B.
Inductive MCP23017_direction_e :=
  MCP23017_DIRECTION_OUTPUT | MCP23017_DIRECTION_INPUT.
Inductive MCP23017_pinState_e := MCP23017_PIN_STATE_LOW | MCP23017_PIN_STATE_HIGH.
Inductive MCP23017_pullUpState_e :=
  MCP23017_PULL_UP_STATE_LOW | MCP23017_PULL_UP_STATE_HIGH.

(** The I2C collaborator ([stm32g4_i2c.h]): peripheral handles, the state of
    the bus with whatever is wired to it, and the three entry points the
    driver calls.  [BSP_I2C_Read] yields the byte stored through its pointer
    argument, meaningful when the status is [HAL_OK]. *)
Class I2C_Bus := {
  I2C_TypeDef : Type;
  I2C_NULL : I2C_TypeDef;
  bus_t : Type;
  BSP_I2C_Init : I2C_TypeDef -> bus_t -> HAL_StatusTypeDef * bus_t;
  BSP_I2C_Read :
    I2C_TypeDef -> Z -> MCP23017_register_e -> bus_t -> HAL_StatusTypeDef * Z * bus_t;
  BSP_I2C_Write :
    I2C_TypeDef -> Z -> MCP23017_register_e -> Z -> bus_t -> HAL_StatusTypeDef * bus_t
}.

(** Constants of the driver's header: the number of chip slots and the
    handle returned on failure. *)
Class MCP23017_Config := {
  MCP23017_NB_IC : nat;
  MCP23017_ID_ERROR : nat
}.

Section Driver.
Context `{B : I2C_Bus} `{C : MCP23017_Config}.

Record MCP23017_ic_t := mkIc {
  used : bool;
  address : Z;
  I2Cx : I2C_TypeDef;
  error_count : Z
}.

#[export] Instance MCP23017_ic_inhabited : Inhabited MCP23017_ic_t :=
  populate {| used := false; address := 0; I2Cx := I2C_NULL; error_count := 0 |}.

(** The driver's table [MCP23017_ic] and the bus it talks to. *)
Record driver_t := mkDriver {
  MCP23017_ic : list MCP23017_ic_t;
  i2c : bus_t
}.

(** The driver's functions thread the table and the bus. *)
Definition M : Type -> Type := St driver_t.

Definition get_ic (id : nat) : M MCP23017_ic_t :=
  fun d => (MCP23017_ic d !!! id, d).

(** An assignment to fields of [MCP23017_ic[id]]. *)
Definition set_ic (id : nat) (f : MCP23017_ic_t -> MCP23017_ic_t) : M unit :=
  fun d =>
    (tt, {| MCP23017_ic := <[id := f (MCP23017_ic d !!! id)]> (MCP23017_ic d);
            i2c := i2c d |}).

Definition set_used (b : bool) (ic : MCP23017_ic_t) : MCP23017_ic_t :=
  {| used := b; address := address ic; I2Cx := I2Cx ic;
     error_count := error_count ic |}.

Definition set_error_count (n : Z) (ic : MCP23017_ic_t) : MCP23017_ic_t :=
  {| used := used ic; address := address ic; I2Cx := I2Cx ic; error_count := n |}.

(** [MCP23017_ic[id].error_count++] on the [uint8_t] field. *)
Definition incr_error_count (ic : MCP23017_ic_t) : MCP23017_ic_t :=
  set_error_count (incr8 (error_count ic)) ic.

Definition i2c_Init (p : I2C_TypeDef) : M HAL_StatusTypeDef :=
  fun d => let (s, b) := BSP_I2C_Init p (i2c d) in
           (s, {| MCP23017_ic := MCP23017_ic d; i2c := b |}).

Definition i2c_Read (p : I2C_TypeDef) (a : Z) (r : MCP23017_register_e)
  : M (HAL_StatusTypeDef * Z) :=
  fun d => let '(s, v, b) := BSP_I2C_Read p a r (i2c d) in
           ((s, v), {| MCP23017_ic := MCP23017_ic d; i2c := b |}).

Definition i2c_Write (p : I2C_TypeDef) (a : Z) (r : MCP23017_register_e) (v : Z)
  : M HAL_StatusTypeDef :=
  fun d => let (s, b) := BSP_I2C_Write p a r v (i2c d) in
           (s, {| MCP23017_ic := MCP23017_ic d; i2c := b |}).

Definition MCP23017_init : M bool :=
  fun d =>
    (true,
     {| MCP23017_ic :=
          fold_left
            (fun t i => <[i := set_error_count 0 (set_used false (t !!! i))]> t)
            (seq 0 MCP23017_NB_IC) (MCP23017_ic d);
        i2c := i2c d |}).

Definition MCP23017_checkId (id : nat) : M bool :=
  if (MCP23017_NB_IC <=? id)%nat then ret false
  else
    ic <- get_ic id ;;
    if negb (used ic) then ret false else ret true.

(** The abort path taken at each step of [MCP23017_initIc]. *)
Definition init_abort (id : nat) : M HAL_StatusTypeDef :=
  set_ic id (set_used false) ;;; ret HAL_ERROR.

(** The value of [iocon.rawData]: cleared, then every bit-field set to its
    enumerator of value 0. *)
Definition iocon_rawData : Z := 0x00.

Definition MCP23017_initIc (id : nat) (p : I2C_TypeDef) (addr : Z)
  : M HAL_StatusTypeDef :=
  if (MCP23017_NB_IC <=? id)%nat then ret HAL_ERROR
  else
    set_ic id (fun _ =>
      {| used := true;
         address := Z.lor (Z.shiftl 0x20 1) (Z.shiftl (Z.land addr 0x07) 1);
         I2Cx := p; error_count := 0 |}) ;;;
    s <- i2c_Init p ;;
    if negb (is_ok s) then init_abort id else
    ic <- get_ic id ;;
    r <- i2c_Read p (address ic) MPC23017_REGISTER_IODIR_A ;;
    if negb (is_ok (fst r)) then init_abort id else
    s <- i2c_Write p (address ic) MPC23017_REGISTER_IODIR_A 0x00 ;;
    if negb (is_ok s) then init_abort id else
    s <- i2c_Write p (address ic) MPC23017_REGISTER_IODIR_B 0xFF ;;
    if negb (is_ok s) then init_abort id else
    s <- i2c_Write p (address ic) MPC23017_REGISTER_GPPU_B 0xFF ;;
    if negb (is_ok s) then init_abort id else
    s <- i2c_Write p (address ic) MPC23017_REGISTER_GPPU_A 0x00 ;;
    if negb (is_ok s) then init_abort id else
    s <- i2c_Write p (address ic) MPC23017_REGISTER_OLAT_A 0xFF ;;
    if negb (is_ok s) then init_abort id else
    s <- i2c_Write p (address ic) MPC23017_REGISTER_IOCON_A iocon_rawData ;;
    if negb (is_ok s) then init_abort id else
    s <- i2c_Write p (address ic) MPC23017_REGISTER_IOCON_B iocon_rawData ;;
    if negb (is_ok s) then init_abort id else
    s <- i2c_Write p (address ic) MPC23017_REGISTER_GPINTEN_A 0x00 ;;
    if negb (is_ok s) then init_abort id else
    s <- i2c_Write p (address ic) MPC23017_REGISTER_GPINTEN_B 0x00 ;;
    if negb (is_ok s) then init_abort id else
    ra <- i2c_Read p (address ic) MPC23017_REGISTER_IODIR_A ;;
    if negb (is_ok (fst ra)) then init_abort id else
    rb <- i2c_Read p (address ic) MPC23017_REGISTER_IODIR_B ;;
    if negb (is_ok (fst rb)) then init_abort id else
    rp <- i2c_Read p (address ic) MPC23017_REGISTER_GPPU_B ;;
    if negb (is_ok (fst rp)) then init_abort id else
    if negb (snd ra =? 0x00) || negb (snd rb =? 0xFF) || negb (snd rp =? 0xFF)
    then init_abort id
    else ret HAL_OK.

(** The slot search of [MCP23017_add]: the first unused slot decides. *)
Fixpoint add_loop (idxs : list nat) (p : I2C_TypeDef) (addr : Z) : M nat :=
  match idxs with
  | [] => ret MCP23017_ID_ERROR
  | i :: rest =>
      ic <- get_ic i ;;
      if negb (used ic) then
        s <- MCP23017_initIc i p addr ;;
        if is_ok s then ret i else ret MCP23017_ID_ERROR
      else add_loop rest p addr
  end.

Definition MCP23017_add (p : I2C_TypeDef) (addr : Z) : M nat :=
  if 0x07 <? addr then ret MCP23017_ID_ERROR
  else add_loop (seq 0 MCP23017_NB_IC) p addr.

(** The abort path of the register operations: count the error, fail. *)
Definition op_abort {A} (id : nat) (a : A) : M A :=
  set_ic id incr_error_count ;;; ret a.

(** [value & (~pin)] and [value | pin], stored back into a [uint8_t]. *)
Definition clear_bits (value pin : Z) : Z := Z.land value (Z.lnot pin) mod UINT8_MOD.
Definition set_bits (value pin : Z) : Z := Z.lor value pin mod UINT8_MOD.

Definition MCP23017_setIO (id : nat) (port : MCP23017_port_e) (pin : Z)
  (direction : MCP23017_direction_e) : M bool :=
  ok <- MCP23017_checkId id ;;
  if negb ok then ret false else
  let reg := match port with
             | MCP23017_PORT_A => MPC23017_REGISTER_IODIR_A
             | MCP23017_PORT_B => MPC23017_REGISTER_IODIR_B
             end in
  ic <- get_ic id ;;
  r <- i2c_Read (I2Cx ic) (address ic) reg ;;
  if negb (is_ok (fst r)) then op_abort id false else
  let value := match direction with
               | MCP23017_DIRECTION_OUTPUT => clear_bits (snd r) pin
               | MCP23017_DIRECTION_INPUT => set_bits (snd r) pin
               end in
  s <- i2c_Write (I2Cx ic) (address ic) reg value ;;
  if negb (is_ok s) then op_abort id false else ret true.

(** The getters store their result through a pointer, taken to be non-null
    as at every call site: [Some x] stands for "returned [true] after storing
    [x]", [None] for "returned [false], nothing stored". *)
Definition MCP23017_getIO (id : nat) (port : MCP23017_port_e) (pin : Z)
  : M (option MCP23017_direction_e) :=
  ok <- MCP23017_checkId id ;;
  if negb ok then ret None else
  let reg := match port with
             | MCP23017_PORT_A => MPC23017_REGISTER_IODIR_A
             | MCP23017_PORT_B => MPC23017_REGISTER_IODIR_B
             end in
  ic <- get_ic id ;;
  r <- i2c_Read (I2Cx ic) (address ic) reg ;;
  if negb (is_ok (fst r)) then op_abort id None else
  ret (Some (if masked (snd r) pin
             then MCP23017_DIRECTION_INPUT else MCP23017_DIRECTION_OUTPUT)).

Definition MCP23017_setGPIO (id : nat) (port : MCP23017_port_e) (pin : Z)
  (state : MCP23017_pinState_e) : M bool :=
  ok <- MCP23017_checkId id ;;
  if negb ok then ret false else
  let reg := match port with
             | MCP23017_PORT_A => MPC23017_REGISTER_OLAT_A
             | MCP23017_PORT_B => MPC23017_REGISTER_OLAT_B
             end in
  ic <- get_ic id ;;
  r <- i2c_Read (I2Cx ic) (address ic) reg ;;
  if negb (is_ok (fst r)) then op_abort id false else
  let value := match state with
               | MCP23017_PIN_STATE_LOW => clear_bits (snd r) pin
               | MCP23017_PIN_STATE_HIGH => set_bits (snd r) pin
               end in
  s <- i2c_Write (I2Cx ic) (address ic) reg value ;;
  if negb (is_ok s) then op_abort id false else ret true.

Definition MCP23017_getGPIO (id : nat) (port : MCP23017_port_e) (pin : Z)
  : M (option MCP23017_pinState_e) :=
  ok <- MCP23017_checkId id ;;
  if negb ok then ret None else
  let reg := match port with
             | MCP23017_PORT_A => MPC23017_REGISTER_GPIO_A
             | MCP23017_PORT_B => MPC23017_REGISTER_GPIO_B
             end in
  ic <- get_ic id ;;
  r <- i2c_Read (I2Cx ic) (address ic) reg ;;
  if negb (is_ok (fst r)) then op_abort id None else
  ret (Some (if masked (snd r) pin
             then MCP23017_PIN_STATE_HIGH else MCP23017_PIN_STATE_LOW)).

Definition MCP23017_getGPIO_all_pins (id : nat) (port : MCP23017_port_e)
  : M (option Z) :=
  ok <- MCP23017_checkId id ;;
  if negb ok then ret None else
  let reg := match port with
             | MCP23017_PORT_A => MPC23017_REGISTER_GPIO_A
             | MCP23017_PORT_B => MPC23017_REGISTER_GPIO_B
             end in
  ic <- get_ic id ;;
  r <- i2c_Read (I2Cx ic) (address ic) reg ;;
  if negb (is_ok (fst r)) then op_abort id None else ret (Some (snd r)).

Definition MCP23017_setPullUp (id : nat) (port : MCP23017_port_e) (pin : Z)
  (state : MCP23017_pullUpState_e) : M bool :=
  ok <- MCP23017_checkId id ;;
  if negb ok then ret false else
  let reg := match port with
             | MCP23017_PORT_A => MPC23017_REGISTER_GPPU_A
             | MCP23017_PORT_B => MPC23017_REGISTER_GPPU_B
             end in
  ic <- get_ic id ;;
  r <- i2c_Read (I2Cx ic) (address ic) reg ;;
  if negb (is_ok (fst r)) then op_abort id false else
  let value := match state with
               | MCP23017_PULL_UP_STATE_LOW => clear_bits (snd r) pin
               | MCP23017_PULL_UP_STATE_HIGH => set_bits (snd r) pin
               end in
  s <- i2c_Write (I2Cx ic) (address ic) reg value ;;
  if negb (is_ok s) then op_abort id false else ret true.

Definition MCP23017_getPullUp (id : nat) (port : MCP23017_port_e) (pin : Z)
  : M (option MCP23017_pullUpState_e) :=
  ok <- MCP23017_checkId id ;;
  if negb ok then ret None else
  let reg := match port with
             | MCP23017_PORT_A => MPC23017_REGISTER_GPPU_A
             | MCP23017_PORT_B => MPC23017_REGISTER_GPPU_B
             end in
  ic <- get_ic id ;;
  r <- i2c_Read (I2Cx ic) (address ic) reg ;;
  if negb (is_ok (fst r)) then op_abort id None else
  ret (Some (if masked (snd r) pin
             then MCP23017_PULL_UP_STATE_HIGH else MCP23017_PULL_UP_STATE_LOW)).

Definition MCP23017_getErrorCount (id : nat) : M Z :=
  if (MCP23017_NB_IC <=? id)%nat then ret 0xFF
  else
    ic <- get_ic id ;;
    if negb (used ic) then ret 0xFF else ret (error_count ic).

Definition MCP23017_resetErrorCount (id : nat) : M bool :=
  ok <- MCP23017_checkId id ;;
  if negb ok then ret false else
  set_ic id (set_error_count 0) ;;; ret true.

(** **** The initialization sequence as a script

    The bus transactions of the initialization, in program order, for the
    peripheral [p] and the bus address [a] of the chip. *)

Inductive i2c_op :=
| OpInit (p : I2C_TypeDef)
| OpRead (p : I2C_TypeDef) (a : Z) (r : MCP23017_register_e)
| OpWrite (p : I2C_TypeDef) (a : Z) (r : MCP23017_register_e) (v : Z).

Definition init_sequence (p : I2C_TypeDef) (a : Z) : list i2c_op :=
  [ OpInit p;
    OpRead p a MPC23017_REGISTER_IODIR_A;
    OpWrite p a MPC23017_REGISTER_IODIR_A 0x00;
    OpWrite p a MPC23017_REGISTER_IODIR_B 0xFF;
    OpWrite p a MPC23017_REGISTER_GPPU_B 0xFF;
    OpWrite p a MPC23017_REGISTER_GPPU_A 0x00;
    OpWrite p a MPC23017_REGISTER_OLAT_A 0xFF;
    OpWrite p a MPC23017_REGISTER_IOCON_A 0x00;
    OpWrite p a MPC23017_REGISTER_IOCON_B 0x00;
    OpWrite p a MPC23017_REGISTER_GPINTEN_A 0x00;
    OpWrite p a MPC23017_REGISTER_GPINTEN_B 0x00;
    OpRead p a MPC23017_REGISTER_IODIR_A;
    OpRead p a MPC23017_REGISTER_IODIR_B;
    OpRead p a MPC23017_REGISTER_GPPU_B ].

(** One transaction on the bus: its status, the byte read (0 when nothing
    is read) and the bus afterwards. *)
Definition run_op (o : i2c_op) (b : bus_t) : HAL_StatusTypeDef * Z * bus_t :=
  match o with
  | OpInit p => let (s, b') := BSP_I2C_Init p b in (s, 0, b')
  | OpRead p a r => BSP_I2C_Read p a r b
  | OpWrite p a r v => let (s, b') := BSP_I2C_Write p a r v b in (s, 0, b')
  end.

(** The transactions of a script in order, stopping after the first one
    that fails; the results of those performed are returned. *)
Fixpoint run_ops (ops : list i2c_op) (b : bus_t)
  : list (HAL_StatusTypeDef * Z) * bus_t :=
  match ops with
  | [] => ([], b)
  | o :: rest =>
      let '(s, v, b') := run_op o b in
      if is_ok s then
        let (res, b'') := run_ops rest b' in ((s, v) :: res, b'')
      else ([(s, v)], b')
  end.

(** The sequence succeeds when its 14 transactions all succeed and the three
    registers read back hold what was written to them. *)
Definition init_verdict (res : list (HAL_StatusTypeDef * Z)) : bool :=
  match drop 11 res with
  | [ra; rb; rp] =>
      forallb (fun sv => is_ok (fst sv)) res
      && (snd ra =? 0x00) && (snd rb =? 0xFF) && (snd rp =? 0xFF)
  | _ => false
  end.

(** **** The register operations, uniformly

    The seven per-chip operations with their arguments, each run as the
    driver function of that name and reduced to its success flag. *)

Inductive reg_op :=
| Op_setIO (port : MCP23017_port_e) (pin : Z) (direction : MCP23017_direction_e)
| Op_getIO (port : MCP23017_port_e) (pin : Z)
| Op_setGPIO (port : MCP23017_port_e) (pin : Z) (state : MCP23017_pinState_e)
| Op_getGPIO (port : MCP23017_port_e) (pin : Z)
| Op_getGPIO_all_pins (port : MCP23017_port_e)
| Op_setPullUp (port : MCP23017_port_e) (pin : Z) (state : MCP23017_pullUpState_e)
| Op_getPullUp (port : MCP23017_port_e) (pin : Z).

Definition flag {A} (c : M (option A)) : M bool :=
  r <- c ;; ret (match r with Some _ => true | None => false end).

Definition run_reg_op (o : reg_op) (id : nat) : M bool :=
  match o with
  | Op_setIO port pin direction => MCP23017_setIO id port pin direction
  | Op_getIO port pin => flag (MCP23017_getIO id port pin)
  | Op_setGPIO port pin state => MCP23017_setGPIO id port pin state
  | Op_getGPIO port pin => flag (MCP23017_getGPIO id port pin)
  | Op_getGPIO_all_pins port => flag (MCP23017_getGPIO_all_pins id port)
  | Op_setPullUp port pin state => MCP23017_setPullUp id port pin state
  | Op_getPullUp port pin => flag (MCP23017_getPullUp id port pin)
  end.

Definition on_port (port : MCP23017_port_e) (ra rb : MCP23017_register_e)
  : MCP23017_register_e :=
  match port with MCP23017_PORT_A => ra | MCP23017_PORT_B => rb end.

(** The register an operation addresses. *)
Definition op_register (o : reg_op) : MCP23017_register_e :=
  match o with
  | Op_setIO port _ _ | Op_getIO port _ =>
      on_port port MPC23017_REGISTER_IODIR_A MPC23017_REGISTER_IODIR_B
  | Op_setGPIO port _ _ =>
      on_port port MPC23017_REGISTER_OLAT_A MPC23017_REGISTER_OLAT_B
  | Op_getGPIO port _ | Op_getGPIO_all_pins port =>
      on_port port MPC23017_REGISTER_GPIO_A MPC23017_REGISTER_GPIO_B
  | Op_setPullUp port _ _ | Op_getPullUp port _ =>
      on_port port MPC23017_REGISTER_GPPU_A MPC23017_REGISTER_GPPU_B
  end.

(** For a read-modify-write operation, the byte written back for the byte
    read. *)
Definition op_update (o : reg_op) : option (Z -> Z) :=
  match o with
  | Op_setIO _ pin MCP23017_DIRECTION_OUTPUT
  | Op_setGPIO _ pin MCP23017_PIN_STATE_LOW
  | Op_setPullUp _ pin MCP23017_PULL_UP_STATE_LOW => Some (fun v => clear_bits v pin)
  | Op_setIO _ pin MCP23017_DIRECTION_INPUT
  | Op_setGPIO _ pin MCP23017_PIN_STATE_HIGH
  | Op_setPullUp _ pin MCP23017_PULL_UP_STATE_HIGH => Some (fun v => set_bits v pin)
  | _ => None
  end.

(** The common shape of the seven operations: validate, read, and for a
    read-modify-write operation write back; count one error on a failed
    transaction. *)
Definition reg_op_shape (o : reg_op) (id : nat) : M bool :=
  fun d =>
    let ic := MCP23017_ic d !!! id in
    if negb ((id <? MCP23017_NB_IC)%nat && used ic) then (false, d)
    else
      let '(s, v, b) := BSP_I2C_Read (I2Cx ic) (address ic) (op_register o) (i2c d) in
      if negb (is_ok s)
      then op_abort id false {| MCP23017_ic := MCP23017_ic d; i2c := b |}
      else
        match op_update o with
        | None => (true, {| MCP23017_ic := MCP23017_ic d; i2c := b |})
        | Some f =>
            let (s', b') :=
              BSP_I2C_Write (I2Cx ic) (address ic) (op_register o) (f v) b in
            if negb (is_ok s')
            then op_abort id false {| MCP23017_ic := MCP23017_ic d; i2c := b' |}
            else (true, {| MCP23017_ic := MCP23017_ic d; i2c := b' |})
        end.

(** [d'] differs from [d] in the error counter of slot [id] only, which has
    advanced by one on its 8 bits, and in the bus, left as [b]. *)
Definition only_error_counted (d : driver_t) (id : nat) (b : bus_t) (d' : driver_t)
  : Prop :=
  i2c d' = b /\
  length (MCP23017_ic d') = length (MCP23017_ic d) /\
  (forall j : nat, j <> id -> MCP23017_ic d' !!! j = MCP23017_ic d !!! j) /\
  used (MCP23017_ic d' !!! id) = used (MCP23017_ic d !!! id) /\
  address (MCP23017_ic d' !!! id) = address (MCP23017_ic d !!! id) /\
  I2Cx (MCP23017_ic d' !!! id) = I2Cx (MCP23017_ic d !!! id) /\
  error_count (MCP23017_ic d' !!! id) =
  (error_count (MCP23017_ic d !!! id) + 1) mod UINT8_MOD.

(** For a read-modify-write operation, the level given to the pins of the
    mask: set for INPUT, HIGH and pull-up on, cleared otherwise. *)
Definition op_level (o : reg_op) : bool :=
  match o with
  | Op_setIO _ _ MCP23017_DIRECTION_INPUT
  | Op_setGPIO _ _ MCP23017_PIN_STATE_HIGH
  | Op_setPullUp _ _ MCP23017_PULL_UP_STATE_HIGH => true
  | _ => false
  end.

Definition op_mask (o : reg_op) : Z :=
  match o with
  | Op_setIO _ pin _ | Op_getIO _ pin | Op_setGPIO _ pin _ | Op_getGPIO _ pin
  | Op_setPullUp _ pin _ | Op_getPullUp _ pin => pin
  | Op_getGPIO_all_pins _ => 0xFF
  end.

End Driver.

End MCP23017.

Module MatrixKeyboard.

(** *** drivers/MatrixKeyboard/stm32g4_matrix_keyboard.c : matrix scan

    [HAL_Delay] only lets the lines settle and is not represented. *)

Import MCP23017.

Definition MATRIX_ROWS : nat := 8.
Definition MATRIX_COLS : nat := 8.

Section Keyboard.
Context `{B : I2C_Bus} `{C : MCP23017_Config}.
(** The peripheral the expander hangs on ([I2C1] of the HAL). *)
Variable I2C1 : I2C_TypeDef.

(** The file-scope variables of the module and the driver underneath. *)
Record keyboard_t := mkKeyboard {
  keyboard_keys : list ascii;
  initialized : bool;
  keyboard_chip_id : nat;
  driver : driver_t
}.

Definition K : Type -> Type := St keyboard_t.

(** A driver call made from the keyboard module. *)
Definition drv {A} (c : M A) : K A :=
  fun k =>
    let (a, d) := c (driver k) in
    (a, {| keyboard_keys := keyboard_keys k; initialized := initialized k;
           keyboard_chip_id := keyboard_chip_id k; driver := d |}).

Definition chip_id : K nat := fun k => (keyboard_chip_id k, k).

(** [for (int i = 0; i < n; i++) body] threading a local variable [acc]. *)
Fixpoint for_loop {S A} (idxs : list nat) (body : nat -> A -> St S A) (acc : A)
  : St S A :=
  match idxs with
  | [] => ret acc
  | i :: rest => acc' <- body i acc ;; for_loop rest body acc'
  end.

(** [1 << n] on [int], for the small [n] of the scan loops. *)
Definition int_bit (n : nat) : Z := Z.shiftl 1 (Z.of_nat n).

Definition BSP_MATRIX_KEYBOARD_init (new_keyboard_keys : option (list ascii))
  : K unit :=
  drv MCP23017_init ;;;
  id <- drv (MCP23017_add I2C1 0) ;;
  (fun k => (tt, {| keyboard_keys := keyboard_keys k; initialized := initialized k;
                    keyboard_chip_id := id; driver := driver k |})) ;;;
  for_loop (seq 0 MATRIX_COLS)
    (fun col _ =>
       drv (MCP23017_setIO id MCP23017_PORT_A (int_bit col) MCP23017_DIRECTION_OUTPUT) ;;;
       drv (MCP23017_setGPIO id MCP23017_PORT_A (int_bit col) MCP23017_PIN_STATE_HIGH) ;;;
       ret tt) tt ;;;
  for_loop (seq 0 MATRIX_ROWS)
    (fun row _ =>
       drv (MCP23017_setIO id MCP23017_PORT_B (int_bit row) MCP23017_DIRECTION_INPUT) ;;;
       drv (MCP23017_setPullUp id MCP23017_PORT_B (int_bit row)
              MCP23017_PULL_UP_STATE_HIGH) ;;;
       ret tt) tt ;;;
  (fun k =>
     (tt, {| keyboard_keys :=
               match new_keyboard_keys with
               | Some keys => take (MATRIX_ROWS * MATRIX_COLS) keys
               | None => replicate (MATRIX_ROWS * MATRIX_COLS) " "%char
               end;
             initialized := true;
             keyboard_chip_id := keyboard_chip_id k; driver := driver k |})).

(** All eight columns back to HIGH. *)
Definition columns_idle : K unit :=
  id <- chip_id ;;
  for_loop (seq 0 MATRIX_COLS)
    (fun col _ =>
       drv (MCP23017_setGPIO id MCP23017_PORT_A (int_bit col) MCP23017_PIN_STATE_HIGH) ;;;
       ret tt) tt.

(** Column [col] LOW, the others HIGH. *)
Definition strobe_column (col : nat) : K unit :=
  id <- chip_id ;;
  for_loop (seq 0 MATRIX_COLS)
    (fun c _ =>
       drv (MCP23017_setGPIO id MCP23017_PORT_A (int_bit c)
              (if (c =? col)%nat then MCP23017_PIN_STATE_LOW
               else MCP23017_PIN_STATE_HIGH)) ;;;
       ret tt) tt.

(** The inner loop that assembles [port_b_value]; the third argument of
    [MCP23017_getGPIO] is the loop variable [pin] itself. *)
Definition read_rows : K Z :=
  id <- chip_id ;;
  for_loop (seq 0 8)
    (fun pin port_b_value =>
       r <- drv (MCP23017_getGPIO id MCP23017_PORT_B (Z.of_nat pin)) ;;
       match r with
       | Some MCP23017_PIN_STATE_HIGH =>
           ret (Z.lor port_b_value (int_bit pin) mod UINT8_MOD)
       | _ => ret port_b_value
       end) 0.

(** The row analysis for one column: a row read LOW marks a pressed key. *)
Definition mark_rows (col : nat) (port_b_value state : Z) : Z :=
  fold_left
    (fun state row =>
       if negb (masked port_b_value (int_bit row)) then
         let key_index := (row * MATRIX_COLS + col)%nat in
         if (key_index <? 32)%nat then Z.lor state (ul_bit key_index) else state
       else state)
    (seq 0 MATRIX_ROWS) state.

Definition MATRIX_KEYBOARD_read_all_touchs : K Z :=
  fun k =>
    if negb (initialized k) then (0, k)
    else
      (columns_idle ;;;
       state <- for_loop (seq 0 MATRIX_COLS)
                  (fun col state =>
                     strobe_column col ;;;
                     port_b_value <- read_rows ;;
                     ret (mark_rows col port_b_value state)) 0 ;;
       columns_idle ;;;
       ret state) k.

(** **** [MATRIX_KEYBOARD_get_key] *)

Definition NO_KEY : ascii := ascii_of_nat 0.
Definition MANY_KEYS : ascii := ascii_of_nat 255.

(** The counting loop over [i < 64 && i < 32]: the number of set bits and
    the index of the first one ([-1] while none has been seen). *)
Definition count_keys (touchs : Z) : Z * Z :=
  fold_left
    (fun cf i =>
       if masked touchs (ul_bit i)
       then (fst cf + 1, if snd cf =? -1 then Z.of_nat i else snd cf)
       else cf)
    (seq 0 32) (0, -1).

(** What [MATRIX_KEYBOARD_get_key] returns for the bitmap [touchs] its scan
    produced, [keys] being the table [keyboard_keys]. *)
Definition key_of_touchs (keys : list ascii) (touchs : Z) : ascii :=
  if touchs =? 0 then NO_KEY
  else
    let (count, first_key) := count_keys touchs in
    if 1 <? count then MANY_KEYS
    else if 0 <=? first_key then nth (Z.to_nat first_key) keys NO_KEY
         else NO_KEY.

Definition MATRIX_KEYBOARD_get_key : K ascii :=
  fun k =>
    if negb (initialized k) then (NO_KEY, k)
    else
      (touchs <- MATRIX_KEYBOARD_read_all_touchs ;;
       fun k' => (key_of_touchs (keyboard_keys k') touchs, k')) k.

(** **** [BSP_MATRIX_KEYBOARD_test_i2c]

    The first loop is the row-reading loop of the scan, its value only
    printed; then pin mask [0x01] of port A goes LOW and back HIGH. *)
Definition BSP_MATRIX_KEYBOARD_test_i2c : K unit :=
  read_rows ;;;
  id <- chip_id ;;
  drv (MCP23017_setGPIO id MCP23017_PORT_A 0x01 MCP23017_PIN_STATE_LOW) ;;;
  drv (MCP23017_setGPIO id MCP23017_PORT_A 0x01 MCP23017_PIN_STATE_HIGH) ;;;
  ret tt.

End Keyboard.

End MatrixKeyboard.

Module Main.

(** *** app/main.c : keyboard state, debounce and change detection *)

Definition MAX_MATRIX_KEYS : nat := 64.
Definition DEBOUNCE_COUNT : Z := 3.

Record KeyboardState_t := mkKeyboardState {
  current_state : Z;
  previous_state : Z;
  debounce_counter : list Z;
  stable_state : Z
}.

(** [static KeyboardState_t keyboard_state = {0}] and the [memset] of [main]. *)
Definition keyboard_state_zero : KeyboardState_t :=
  {| current_state := 0; previous_state := 0;
     debounce_counter := replicate MAX_MATRIX_KEYS 0; stable_state := 0 |}.

Definition set_counter (k : KeyboardState_t) (i : nat) (v : Z) : KeyboardState_t :=
  {| current_state := current_state k; previous_state := previous_state k;
     debounce_counter := <[i := v]> (debounce_counter k);
     stable_state := stable_state k |}.

Definition set_stable (k : KeyboardState_t) (v : Z) : KeyboardState_t :=
  {| current_state := current_state k; previous_state := previous_state k;
     debounce_counter := debounce_counter k; stable_state := v |}.

(** Body of the [for] loop of [Update_Keyboard_State] for one index [i]. *)
Definition debounce_key (raw_state : Z) (k : KeyboardState_t) (i : nat)
  : KeyboardState_t :=
  let raw_pressed := masked raw_state (ul_bit i) in
  let stable_pressed := masked (stable_state k) (ul_bit i) in
  if Bool.eqb raw_pressed stable_pressed then
    set_counter k i 0
  else
    let k1 := set_counter k i (incr8 (debounce_counter k !!! i)) in
    if DEBOUNCE_COUNT <=? debounce_counter k1 !!! i then
      let k2 :=
        if raw_pressed
        then set_stable k1 (Z.lor (stable_state k1) (ul_bit i))
        else set_stable k1 (Z.land (stable_state k1) (ul_not (ul_bit i))) in
      set_counter k2 i 0
    else k1.

Definition Update_Keyboard_State (k : KeyboardState_t) (raw_state : Z)
  : KeyboardState_t :=
  let k0 :=
    {| current_state := current_state k; previous_state := stable_state k;
       debounce_counter := debounce_counter k;
       stable_state := stable_state k |} in
  let k1 := fold_left (debounce_key raw_state) (seq 0 MAX_MATRIX_KEYS) k0 in
  {| current_state := stable_state k1; previous_state := previous_state k1;
     debounce_counter := debounce_counter k1;
     stable_state := stable_state k1 |}.

(** The automaton of a single key, read off the loop body: from the raw
    level, the stable level and the counter to the new stable level and
    counter. *)
Definition key_step (raw_pressed stable_pressed : bool) (c : Z) : bool * Z :=
  if Bool.eqb raw_pressed stable_pressed then (stable_pressed, 0)
  else if DEBOUNCE_COUNT <=? incr8 c then (raw_pressed, 0)
       else (stable_pressed, incr8 c).

(** Bit [i] of a bitmap and entry [i] of the counter array. *)
Definition key_bit (x : Z) (i : nat) : bool := Z.testbit x (Z.of_nat i).
Definition key_counter (k : KeyboardState_t) (i : nat) : Z := debounce_counter k !!! i.

(** The same automaton over successive raw levels of one key, oldest first. *)
Definition key_run (raws : list bool) (sc : bool * Z) : bool * Z :=
  fold_left (fun sc r => key_step r (fst sc) (snd sc)) raws sc.

(** What the state holds about key [i]. *)
Definition key_view (k : KeyboardState_t) (i : nat) : bool * Z :=
  (key_bit (stable_state k) i, key_counter k i).

(** Successive scan cycles: one call per raw bitmap, oldest first. *)
Definition run_updates (k : KeyboardState_t) (raws : list Z) : KeyboardState_t :=
  fold_left Update_Keyboard_State raws k.

(** Well-formed values of the C struct. *)
Definition wf_state (k : KeyboardState_t) : Prop :=
  is_uint32 (stable_state k) /\
  length (debounce_counter k) = MAX_MATRIX_KEYS /\
  Forall is_uint8 (debounce_counter k).

(** The note table: key [i] sounds MIDI note [48 + i]. *)
Definition midi_notes : list Z :=
  [ 48;  49;  50;  51;  52;  53;  54;  55;
    56;  57;  58;  59;  60;  61;  62;  63;
    64;  65;  66;  67;  68;  69;  70;  71;
    72;  73;  74;  75;  76;  77;  78;  79;
    80;  81;  82;  83;  84;  85;  86;  87;
    88;  89;  90;  91;  92;  93;  94;  95;
    96;  97;  98;  99; 100; 101; 102; 103;
   104; 105; 106; 107; 108; 109; 110; 111].

(** The [printf] calls write debug text to the standard output and are not
    represented: [uart_tx] holds the bytes [MIDI_send_raw] hands over. *)
Definition Send_MIDI_Note (key_index : Z) (pressed : bool) (m : Midi.midi_t)
  : Midi.midi_t :=
  if (key_index <? 0) || (Z.of_nat MAX_MATRIX_KEYS <=? key_index) then m
  else
    let midi_note := midi_notes !!! Z.to_nat key_index in
    if pressed then Midi.MIDI_send_note_on 1 midi_note 100 m
    else Midi.MIDI_send_note_off 1 midi_note 0 m.

Definition Process_Key_Changes (k : KeyboardState_t) (m : Midi.midi_t)
  : Midi.midi_t :=
  let changes := Z.lxor (current_state k) (previous_state k) in
  if changes =? 0 then m
  else
    fold_left
      (fun m' i =>
         if masked changes (ul_bit i) then
           let is_pressed := masked (current_state k) (ul_bit i) in
           Send_MIDI_Note (Z.of_nat i) is_pressed m'
         else m')
      (seq 0 MAX_MATRIX_KEYS) m.

(** The message expected for key [i] of a state whose stable bit [i] has
    just changed: Note On (velocity 100) when the bit is now set, Note Off
    (velocity 0) when it is now clear, on channel 1. *)
Definition note_message (k : KeyboardState_t) (i : nat) : list Z :=
  if key_bit (stable_state k) i
  then [Z.lor 0x90 (1 - 1); midi_notes !!! i; 100]
  else [Z.lor 0x80 (1 - 1); midi_notes !!! i; 0].

(** The body of [Keyboard_MIDI_Process] once the period has elapsed, for the
    bitmap [raw_state] returned by the scan. *)
Definition Keyboard_MIDI_cycle (raw_state : Z) (km : KeyboardState_t * Midi.midi_t)
  : KeyboardState_t * Midi.midi_t :=
  let k' := Update_Keyboard_State (fst km) raw_state in
  (k', Process_Key_Changes k' (snd km)).

(** Successive runs of the pipeline, one per raw bitmap, oldest first. *)
Definition run_cycles (raws : list Z) (km : KeyboardState_t * Midi.midi_t)
  : KeyboardState_t * Midi.midi_t :=
  fold_left (fun km r => Keyboard_MIDI_cycle r km) raws km.

(** **** The two periodic tasks of the main loop

    [HAL_GetTick] is the tick collaborator: the value it returns is the
    argument [current_tick].  The heartbeat LED is a boolean. *)

Definition LED_BLINK_PERIOD_MS : Z := 1000.
Definition KEYBOARD_SCAN_PERIOD_MS : Z := 10.

(** [a - b] on [uint32_t]. *)
Definition sub32 (a b : Z) : Z := (a - b) mod UINT32_MOD.

Section App.
Context `{B : MCP23017.I2C_Bus} `{C : MCP23017.MCP23017_Config}.
Variable I2C1 : MCP23017.I2C_TypeDef.

(** The file-scope variables of [main.c], the LED pin and the modules
    underneath. *)
Record app_t := mkApp {
  led_last_toggle : Z;
  keyboard_last_scan : Z;
  keyboard_state : KeyboardState_t;
  led_green : bool;
  midi : Midi.midi_t;
  keyboard : MatrixKeyboard.keyboard_t
}.

Definition LED_Process (current_tick : Z) (a : app_t) : app_t :=
  if LED_BLINK_PERIOD_MS <=? sub32 current_tick (led_last_toggle a) then
    {| led_last_toggle := current_tick;
       keyboard_last_scan := keyboard_last_scan a;
       keyboard_state := keyboard_state a;
       led_green := negb (led_green a);
       midi := midi a; keyboard := keyboard a |}
  else a.

Definition Keyboard_MIDI_Process (current_tick : Z) (a : app_t) : app_t :=
  if KEYBOARD_SCAN_PERIOD_MS <=? sub32 current_tick (keyboard_last_scan a) then
    let (raw_state, kb) :=
      MatrixKeyboard.MATRIX_KEYBOARD_read_all_touchs (keyboard a) in
    let km := Keyboard_MIDI_cycle raw_state (keyboard_state a, midi a) in
    {| led_last_toggle := led_last_toggle a;
       keyboard_last_scan := current_tick;
       keyboard_state := fst km;
       led_green := led_green a;
       midi := snd km; keyboard := kb |}
  else a.

(** [main] up to its loop.  The clock, pin and UART set-up belong to the
    HAL; [MX_GPIO_Init] leaves the LED pin reset.  [layout] is the table
    [piano_layout], and [tick_led], [tick_scan] are what the two calls of
    [HAL_GetTick] return. *)
Definition main_startup (layout : list ascii) (tick_led tick_scan : Z) (a : app_t)
  : app_t :=
  let m := Midi.MIDI_init (midi a) in
  let kb := snd (MatrixKeyboard.BSP_MATRIX_KEYBOARD_init I2C1 (Some layout)
                   (keyboard a)) in
  let kb := snd (MatrixKeyboard.BSP_MATRIX_KEYBOARD_test_i2c kb) in
  {| led_last_toggle := tick_led;
     keyboard_last_scan := tick_scan;
     keyboard_state := keyboard_state_zero;
     led_green := false;
     midi := m; keyboard := kb |}.

(** One turn of the main loop, [tick_led] and [tick_scan] being the ticks
    read by the two tasks. *)
Definition main_loop_turn (tick_led tick_scan : Z) (a : app_t) : app_t :=
  Keyboard_MIDI_Process tick_scan (LED_Process tick_led a).

End App.

End Main.

Module Bench.

(** *** A bench set-up: an ideal expander wired to the switch matrix

    A simulated instance of the I2C collaborator.  The chip answers at the
    bus address of hardware address 0 and starts from its power-on register
    values; the rows idle high through the pull-ups and read low only while a
    closed switch connects them to a column whose output latch is low.  [responding = false] stands for a chip that does not answer, and
    [stuck] lists registers (by address) that ignore writes and always read
    the given byte. *)

Import MCP23017.

Record device := mkDevice {
  regs : list Z;
  pressed : list (nat * nat);
  responding : bool;
  stuck : list (nat * Z)
}.

Definition reg_index (r : MCP23017_register_e) : nat := Z.to_nat (register_address r).

Definition power_on_regs : list Z := [0xFF; 0xFF] ++ replicate 20 0.

Definition key_closed (d : device) (row col : nat) : bool :=
  existsb (fun rc => (fst rc =? row)%nat && (snd rc =? col)%nat) (pressed d).

(** Level of row [row]: low when some closed switch of the row sits on a
    column whose output latch is low. *)
Definition row_high (d : device) (row : nat) : bool :=
  negb (existsb
          (fun col => key_closed d row col
                      && negb (Z.testbit (regs d !!! reg_index MPC23017_REGISTER_OLAT_A)
                                 (Z.of_nat col)))
          (seq 0 8)).

Definition rows_value (d : device) : Z :=
  fold_left (fun v row => if row_high d row then Z.lor v (Z.shiftl 1 (Z.of_nat row)) else v)
    (seq 0 8) 0.

Definition device_address : Z := 0x40.

Definition stuck_value (d : device) (r : MCP23017_register_e) : option Z :=
  match List.find (fun rv => (fst rv =? reg_index r)%nat) (stuck d) with
  | Some rv => Some (snd rv)
  | None => None
  end.

Definition dev_read (a : Z) (r : MCP23017_register_e) (d : device)
  : HAL_StatusTypeDef * Z * device :=
  if negb (responding d) || negb (a =? device_address) then (HAL_ERROR, 0, d)
  else
    match stuck_value d r with
    | Some v => (HAL_OK, v, d)
    | None =>
        match r with
        | MPC23017_REGISTER_GPIO_B => (HAL_OK, rows_value d, d)
        | MPC23017_REGISTER_GPIO_A =>
            (HAL_OK, regs d !!! reg_index MPC23017_REGISTER_OLAT_A, d)
        | _ => (HAL_OK, regs d !!! reg_index r, d)
        end
    end.

Definition dev_write (a : Z) (r : MCP23017_register_e) (v : Z) (d : device)
  : HAL_StatusTypeDef * device :=
  if negb (responding d) || negb (a =? device_address) then (HAL_ERROR, d)
  else
    (HAL_OK,
     {| regs := <[reg_index r := v mod UINT8_MOD]> (regs d);
        pressed := pressed d; responding := responding d; stuck := stuck d |}).

#[export] Instance bench_bus : I2C_Bus := {|
  I2C_TypeDef := nat;
  I2C_NULL := 0%nat;
  bus_t := device;
  BSP_I2C_Init := fun _ d => (HAL_OK, d);
  BSP_I2C_Read := fun _ a r d => dev_read a r d;
  BSP_I2C_Write := fun _ a r v d => dev_write a r v d
|}.

(** Two chip slots, [0xFF] as the failure handle. *)
#[export] Instance bench_config : MCP23017_Config := {|
  MCP23017_NB_IC := 2;
  MCP23017_ID_ERROR := 255
|}.

Definition I2C1 : nat := 1.

(** The driver table at reset (static storage is zeroed) on a bus with the
    given keys held down. *)
Definition bench_driver (keys : list (nat * nat)) (alive : bool) : driver_t :=
  {| MCP23017_ic :=
       replicate 2 {| used := false; address := 0; I2Cx := 0%nat; error_count := 0 |};
     i2c := {| regs := power_on_regs; pressed := keys; responding := alive;
               stuck := [] |} |}.

(** A chip registered in slot 0 that has stopped answering, its error
    counter standing at [n]. *)
Definition bench_dead_driver (n : Z) : driver_t :=
  {| MCP23017_ic :=
       [ {| used := true; address := device_address; I2Cx := I2C1; error_count := n |};
         {| used := false; address := 0; I2Cx := 0%nat; error_count := 0 |} ];
     i2c := {| regs := power_on_regs; pressed := []; responding := false;
               stuck := [] |} |}.

(** Both slots taken. *)
Definition bench_full_driver : driver_t :=
  {| MCP23017_ic :=
       replicate 2
         {| used := true; address := device_address; I2Cx := I2C1; error_count := 0 |};
     i2c := {| regs := power_on_regs; pressed := []; responding := true;
               stuck := [] |} |}.

(** An empty table on a chip whose port A pull-up register reads [0xFF]
    whatever is written to it. *)
Definition bench_stuck_gppu_a_driver : driver_t :=
  {| MCP23017_ic :=
       replicate 2 {| used := false; address := 0; I2Cx := 0%nat; error_count := 0 |};
     i2c := {| regs := power_on_regs; pressed := []; responding := true;
               stuck := [(reg_index MPC23017_REGISTER_GPPU_A, 0xFF)] |} |}.

Definition bench_keyboard (keys : list (nat * nat)) : MatrixKeyboard.keyboard_t :=
  {| MatrixKeyboard.keyboard_keys := replicate 64 " "%char;
     MatrixKeyboard.initialized := false;
     MatrixKeyboard.keyboard_chip_id := 0;
     MatrixKeyboard.driver := bench_driver keys true |}.

(** The keyboard after [BSP_MATRIX_KEYBOARD_init] on the bench. *)
Definition bench_ready (keys : list (nat * nat)) : MatrixKeyboard.keyboard_t :=
  snd (MatrixKeyboard.BSP_MATRIX_KEYBOARD_init I2C1 None (bench_keyboard keys)).

(** The same on a chip that does not answer. *)
Definition bench_unplugged : MatrixKeyboard.keyboard_t :=
  snd (MatrixKeyboard.BSP_MATRIX_KEYBOARD_init I2C1 None
         {| MatrixKeyboard.keyboard_keys := replicate 64 " "%char;
            MatrixKeyboard.initialized := false;
            MatrixKeyboard.keyboard_chip_id := 0;
            MatrixKeyboard.driver := bench_driver [] false |}).

(** The application at reset, with the given keys held down. *)
Definition bench_app (keys : list (nat * nat)) : Main.app_t :=
  {| Main.led_last_toggle := 0;
     Main.keyboard_last_scan := 0;
     Main.keyboard_state := Main.keyboard_state_zero;
     Main.led_green := false;
     Main.midi := Midi.mkMidi false [];
     Main.keyboard := bench_keyboard keys |}.

End Bench.

(** * Properties *)

(** ** Bit-level facts about the 32-bit masks *)

Lemma ul_bit_lt (i : nat) : (i < 32)%nat -> ul_bit i = 2 ^ Z.of_nat i.
Proof.
  intros Hi. unfold ul_bit, UINT32_MOD. rewrite Z.shiftl_1_l.
  apply Z.mod_small. split; [apply Z.pow_nonneg; lia|].
  change 4294967296 with (2 ^ 32). apply Z.pow_lt_mono_r; lia.
Qed.

Lemma ul_bit_ge (i : nat) : (32 <= i)%nat -> ul_bit i = 0.
Proof.
  intros Hi. unfold ul_bit, UINT32_MOD. rewrite Z.shiftl_1_l.
  change 4294967296 with (2 ^ 32).
  replace (Z.of_nat i) with (32 + (Z.of_nat i - 32)) by lia.
  rewrite Z.pow_add_r by lia. rewrite Z.mul_comm. apply Z.mod_mul.
  discriminate.
Qed.

Lemma uint32_high_bits (x : Z) (j : Z) :
  is_uint32 x -> 32 <= j -> Z.testbit x j = false.
Proof.
  intros Hx Hj. unfold is_uint32, UINT32_MOD in Hx.
  rewrite <- (Z.mod_small x (2 ^ 32)) by (change (2 ^ 32) with 4294967296; lia).
  apply Z.mod_pow2_bits_high. lia.
Qed.

Lemma uint32_from_bits (x : Z) :
  0 <= x -> (forall j, 32 <= j -> Z.testbit x j = false) -> is_uint32 x.
Proof.
  intros Hx Hb. unfold is_uint32, UINT32_MOD.
  assert (E : x mod 2 ^ 32 = x).
  { apply Z.bits_inj'. intros n Hn.
    destruct (Z_lt_le_dec n 32) as [Hlt | Hge].
    - apply Z.mod_pow2_bits_low. lia.
    - rewrite Z.mod_pow2_bits_high by lia. symmetry. apply Hb. lia. }
  change 4294967296 with (2 ^ 32). rewrite <- E.
  apply Z.mod_pos_bound. reflexivity.
Qed.

Lemma land_pow2_testbit (x : Z) (n : Z) :
  0 <= n -> (Z.land x (2 ^ n) =? 0) = negb (Z.testbit x n).
Proof.
  intros Hn. destruct (Z.testbit x n) eqn:E; simpl.
  - apply Z.eqb_neq. intros H0.
    assert (T : Z.testbit (Z.land x (2 ^ n)) n = true).
    { rewrite Z.land_spec, E, Z.pow2_bits_true by lia. reflexivity. }
    rewrite H0, Z.bits_0 in T. discriminate.
  - apply Z.eqb_eq. apply Z.bits_inj'. intros m Hm.
    rewrite Z.land_spec, Z.bits_0.
    destruct (Z.eq_dec m n) as [-> | Hne].
    + rewrite E. reflexivity.
    + rewrite Z.pow2_bits_false by lia. apply andb_false_r.
Qed.

(** On a 32-bit operand, [(x & (1UL << i)) != 0] reads bit [i] of [x]. *)
Lemma masked_ul_bit (x : Z) (i : nat) :
  is_uint32 x -> masked x (ul_bit i) = Z.testbit x (Z.of_nat i).
Proof.
  intros Hx. unfold masked.
  destruct (Nat.lt_ge_cases i 32) as [Hlt | Hge].
  - rewrite ul_bit_lt by exact Hlt.
    rewrite land_pow2_testbit by lia. apply negb_involutive.
  - rewrite ul_bit_ge by exact Hge. rewrite Z.land_0_r. simpl.
    symmetry. apply uint32_high_bits; [exact Hx | lia].
Qed.

Lemma ul_not_bit_testbit (i : nat) (j : Z) :
  (i < 32)%nat -> 0 <= j < 32 ->
  Z.testbit (ul_not (ul_bit i)) j = negb (j =? Z.of_nat i).
Proof.
  intros Hi Hj. unfold ul_not, UINT32_MOD. change 4294967296 with (2 ^ 32).
  rewrite Z.mod_pow2_bits_low by lia.
  rewrite Z.lnot_spec by lia. rewrite ul_bit_lt by exact Hi.
  rewrite Z.pow2_bits_eqb by lia. rewrite Z.eqb_sym. reflexivity.
Qed.

(** ** Debounce: one key at a time *)

Section Debounce.
Import Main.

Lemma wf_length (k : KeyboardState_t) :
  wf_state k -> length (debounce_counter k) = MAX_MATRIX_KEYS.
Proof. intros (_ & H & _). exact H. Qed.

Lemma wf_counter_range (k : KeyboardState_t) (i : nat) :
  wf_state k -> (i < MAX_MATRIX_KEYS)%nat -> is_uint8 (key_counter k i).
Proof.
  intros (_ & Hlen & Hall) Hi. unfold key_counter.
  rewrite Forall_lookup in Hall. apply (Hall i).
  apply list_lookup_lookup_total_lt. rewrite Hlen. exact Hi.
Qed.

Lemma is_uint8_incr8 (c : Z) : is_uint8 (incr8 c).
Proof. unfold is_uint8, incr8, UINT8_MOD. apply Z.mod_pos_bound. reflexivity. Qed.

Lemma Forall_uint8_insert (l : list Z) (i : nat) (v : Z) :
  Forall is_uint8 l -> is_uint8 v -> Forall is_uint8 (<[i := v]> l).
Proof.
  intros Hl Hv. rewrite Forall_lookup in *. intros j x Hj.
  destruct (decide (i = j)) as [-> | Hne].
  - destruct (decide (j < length l)%nat) as [Hlt | Hge].
    + rewrite list_lookup_insert_eq in Hj by exact Hlt. congruence.
    + rewrite list_insert_ge in Hj by lia. eapply Hl. exact Hj.
  - rewrite list_lookup_insert_ne in Hj by exact Hne. eapply Hl. exact Hj.
Qed.

Ltac simpl_kbd :=
  cbn [debounce_counter current_state previous_state stable_state
       set_counter set_stable fst snd].

(** What one iteration of the loop does to the state. *)
Lemma debounce_key_spec (raw : Z) (k : KeyboardState_t) (i : nat) :
  wf_state k -> is_uint32 raw -> (i < MAX_MATRIX_KEYS)%nat ->
  let st := key_step (key_bit raw i) (key_bit (stable_state k) i) (key_counter k i) in
  let k' := debounce_key raw k i in
  wf_state k' /\
  current_state k' = current_state k /\
  previous_state k' = previous_state k /\
  debounce_counter k' = <[i := snd st]> (debounce_counter k) /\
  (forall j : nat,
      key_bit (stable_state k') j =
      if (j =? i)%nat then fst st else key_bit (stable_state k) j).
Proof.
  intros Hwf Hraw Hi. destruct Hwf as (Hst & Hlen & Hall).
  unfold debounce_key, key_step, key_bit, key_counter.
  rewrite !masked_ul_bit by assumption.
  set (r := Z.testbit raw (Z.of_nat i)).
  set (s := Z.testbit (stable_state k) (Z.of_nat i)).
  assert (H0 : is_uint8 0) by (unfold is_uint8, UINT8_MOD; lia).
  destruct (Bool.eqb r s) eqn:Ers; cbn zeta.
  - (* agreement: only the counter is cleared *)
    cbn. refine (conj (conj Hst (conj _ _)) (conj eq_refl (conj eq_refl (conj eq_refl _))));
      simpl_kbd.
    + rewrite length_insert. exact Hlen.
    + apply Forall_uint8_insert; assumption.
    + intros j. destruct (j =? i)%nat eqn:Eji; [|reflexivity].
      apply Nat.eqb_eq in Eji. subst j. reflexivity.
  - (* disagreement *)
    assert (Hi32 : (i < 32)%nat).
    { destruct (Nat.lt_ge_cases i 32) as [Hlt | Hge]; [exact Hlt|].
      exfalso. subst r s.
      rewrite (uint32_high_bits raw) in Ers by (assumption || lia).
      rewrite (uint32_high_bits (stable_state k)) in Ers by (assumption || lia).
      discriminate. }
    cbn [debounce_counter set_counter].
    rewrite list_lookup_total_insert_eq by (rewrite Hlen; exact Hi).
    destruct (DEBOUNCE_COUNT <=? incr8 (debounce_counter k !!! i)) eqn:Ethr.
    + (* threshold reached: commit *)
      destruct r eqn:Er; cbn;
        refine (conj (conj _ (conj _ _)) (conj eq_refl (conj eq_refl (conj _ _))));
        simpl_kbd.
      * apply uint32_from_bits.
        -- apply Z.lor_nonneg. split; [apply Hst|].
           rewrite ul_bit_lt by exact Hi32. apply Z.pow_nonneg. lia.
        -- intros j Hj. rewrite Z.lor_spec.
           rewrite (uint32_high_bits (stable_state k)) by assumption.
           rewrite ul_bit_lt by exact Hi32.
           rewrite Z.pow2_bits_false by lia. reflexivity.
      * rewrite !length_insert. exact Hlen.
      * apply Forall_uint8_insert; [|exact H0].
        apply Forall_uint8_insert; [exact Hall | apply is_uint8_incr8].
      * apply list_insert_insert_eq.
      * intros j. rewrite Z.lor_spec. rewrite ul_bit_lt by exact Hi32.
        rewrite Z.pow2_bits_eqb by lia.
        destruct (j =? i)%nat eqn:Eji.
        -- apply Nat.eqb_eq in Eji. subst j.
           rewrite Z.eqb_refl. apply orb_true_r.
        -- apply Nat.eqb_neq in Eji.
           replace (Z.of_nat i =? Z.of_nat j) with false
             by (symmetry; apply Z.eqb_neq; lia).
           apply orb_false_r.
      * apply uint32_from_bits.
        -- apply Z.land_nonneg. left. apply Hst.
        -- intros j Hj. rewrite Z.land_spec.
           rewrite (uint32_high_bits (stable_state k)) by assumption.
           reflexivity.
      * rewrite !length_insert. exact Hlen.
      * apply Forall_uint8_insert; [|exact H0].
        apply Forall_uint8_insert; [exact Hall | apply is_uint8_incr8].
      * apply list_insert_insert_eq.
      * intros j. rewrite Z.land_spec.
        destruct (Nat.lt_ge_cases j 32) as [Hj | Hj].
        -- rewrite ul_not_bit_testbit by lia.
           destruct (j =? i)%nat eqn:Eji.
           ++ apply Nat.eqb_eq in Eji. subst j.
              rewrite Z.eqb_refl. apply andb_false_r.
           ++ apply Nat.eqb_neq in Eji.
              replace (Z.of_nat j =? Z.of_nat i) with false
                by (symmetry; apply Z.eqb_neq; lia).
              apply andb_true_r.
        -- rewrite (uint32_high_bits (stable_state k)) by (assumption || lia).
           replace (j =? i)%nat with false
             by (symmetry; apply Nat.eqb_neq; lia).
           reflexivity.
    + (* below the threshold: the counter advances *)
      cbn. refine (conj (conj Hst (conj _ _)) (conj eq_refl (conj eq_refl (conj eq_refl _))));
      simpl_kbd.
      * rewrite length_insert. exact Hlen.
      * apply Forall_uint8_insert; [exact Hall | apply is_uint8_incr8].
      * intros j. destruct (j =? i)%nat eqn:Eji; [|reflexivity].
        apply Nat.eqb_eq in Eji. subst j. reflexivity.
Qed.

(** The loop after its first [n] iterations: keys below [n] have taken one
    step of their automaton, the others are as they were. *)
Lemma debounce_loop_spec (raw : Z) (k : KeyboardState_t) (n : nat) :
  wf_state k -> is_uint32 raw -> (n <= MAX_MATRIX_KEYS)%nat ->
  let k' := fold_left (debounce_key raw) (seq 0 n) k in
  wf_state k' /\
  current_state k' = current_state k /\
  previous_state k' = previous_state k /\
  (forall j : nat,
      key_view k' j =
      if (j <? n)%nat
      then key_step (key_bit raw j) (key_bit (stable_state k) j) (key_counter k j)
      else key_view k j).
Proof.
  intros Hwf Hraw. induction n as [|n IH]; intros Hn; cbn zeta.
  - cbn. repeat split; try apply Hwf.
  - rewrite seq_S, fold_left_app. cbn [fold_left Nat.add].
    destruct IH as (Hwf' & Hcur & Hprev & Hkeys); [lia|].
    set (kn := fold_left (debounce_key raw) (seq 0 n) k) in *.
    destruct (debounce_key_spec raw kn n Hwf' Hraw) as (W & Cu & Pr & Cn & Bits);
      [unfold MAX_MATRIX_KEYS in *; lia|].
    pose proof (Hkeys n) as Hn_view.
    rewrite (proj2 (Nat.ltb_ge n n)) in Hn_view by lia.
    unfold key_view in Hn_view. injection Hn_view as Hbit_n Hcnt_n.
    refine (conj W (conj _ (conj _ _))); [congruence | congruence |].
    intros j. unfold key_view, key_counter. rewrite Bits, Cn.
    specialize (Hkeys j). unfold key_view, key_counter in Hkeys.
    destruct (j =? n)%nat eqn:Ejn.
    + apply Nat.eqb_eq in Ejn. subst j.
      rewrite (proj2 (Nat.ltb_lt n (S n))) by lia.
      rewrite list_lookup_total_insert_eq
        by (rewrite (wf_length kn Hwf'); unfold MAX_MATRIX_KEYS in *; lia).
      rewrite Hbit_n. unfold key_counter in *. rewrite Hcnt_n.
      symmetry. apply surjective_pairing.
    + apply Nat.eqb_neq in Ejn.
      rewrite list_lookup_total_insert_ne by lia.
      rewrite Hkeys.
      destruct (j <? n)%nat eqn:Ejlt.
      * apply Nat.ltb_lt in Ejlt. rewrite (proj2 (Nat.ltb_lt j (S n))) by lia.
        reflexivity.
      * apply Nat.ltb_ge in Ejlt. rewrite (proj2 (Nat.ltb_ge j (S n))) by lia.
        reflexivity.
Qed.

(** One call of [Update_Keyboard_State], key by key. *)
Lemma Update_key_spec (k : KeyboardState_t) (raw : Z) :
  wf_state k -> is_uint32 raw ->
  let k' := Update_Keyboard_State k raw in
  wf_state k' /\
  current_state k' = stable_state k' /\
  previous_state k' = stable_state k /\
  (forall j : nat, (j < MAX_MATRIX_KEYS)%nat ->
      key_view k' j =
      key_step (key_bit raw j) (key_bit (stable_state k) j) (key_counter k j)).
Proof.
  intros Hwf Hraw.
  pose proof (debounce_loop_spec raw
                {| current_state := current_state k; previous_state := stable_state k;
                   debounce_counter := debounce_counter k;
                   stable_state := stable_state k |}
                MAX_MATRIX_KEYS Hwf Hraw (Nat.le_refl _)) as H.
  unfold Update_Keyboard_State. cbv zeta in *.
  generalize dependent
    (fold_left (debounce_key raw) (seq 0 MAX_MATRIX_KEYS)
       {| current_state := current_state k; previous_state := stable_state k;
          debounce_counter := debounce_counter k;
          stable_state := stable_state k |}).
  intros k1 (W & _ & Pr & Keys).
  refine (conj W (conj eq_refl (conj Pr _))).
  intros j Hj. specialize (Keys j).
  rewrite (proj2 (Nat.ltb_lt j MAX_MATRIX_KEYS)) in Keys by exact Hj.
  exact Keys.
Qed.

(** From here on an update is used through [Update_key_spec] only. *)
#[local] Opaque Update_Keyboard_State.

Lemma Update_wf (k : KeyboardState_t) (raw : Z) :
  wf_state k -> is_uint32 raw -> wf_state (Update_Keyboard_State k raw).
Proof. intros Hwf Hraw. apply (Update_key_spec k raw Hwf Hraw). Qed.

Lemma run_updates_wf (raws : list Z) (k : KeyboardState_t) :
  wf_state k -> Forall is_uint32 raws -> wf_state (run_updates k raws).
Proof.
  revert k. induction raws as [|r raws IH]; intros k Hwf Hall; [exact Hwf|].
  inversion Hall; subst. cbn. apply IH; [apply Update_wf|]; assumption.
Qed.

(** Any number of calls, key by key: key [j] evolves by its own automaton
    on its own raw levels. *)
Lemma run_updates_key (raws : list Z) (k : KeyboardState_t) (j : nat) :
  wf_state k -> Forall is_uint32 raws -> (j < MAX_MATRIX_KEYS)%nat ->
  key_view (run_updates k raws) j =
  key_run (map (fun r => key_bit r j) raws) (key_view k j).
Proof.
  revert k. induction raws as [|r raws IH]; intros k Hwf Hall Hj; [reflexivity|].
  inversion Hall; subst. cbn [run_updates fold_left map key_run].
  fold (run_updates (Update_Keyboard_State k r) raws).
  rewrite IH by (try apply Update_wf; assumption).
  destruct (Update_key_spec k r) as (_ & _ & _ & Keys); [assumption..|].
  rewrite (Keys j Hj). reflexivity.
Qed.

Lemma run_updates_app (k : KeyboardState_t) (xs ys : list Z) :
  run_updates k (xs ++ ys) = run_updates (run_updates k xs) ys.
Proof. apply fold_left_app. Qed.

(** The automaton's counter stays below the threshold. *)
Lemma key_step_counter_bound (r s : bool) (c : Z) :
  0 <= snd (key_step r s c) <= 2.
Proof.
  unfold key_step, DEBOUNCE_COUNT.
  destruct (Bool.eqb r s); cbn [snd]; [lia|].
  destruct (3 <=? incr8 c) eqn:E; cbn [snd]; [lia|].
  apply Z.leb_gt in E. pose proof (is_uint8_incr8 c) as [H _]. lia.
Qed.

(** Disagreeing reads below the threshold only count. *)
Lemma key_run_disagree (n : nat) (s : bool) (c : Z) :
  0 <= c -> c + Z.of_nat n < DEBOUNCE_COUNT ->
  key_run (replicate n (negb s)) (s, c) = (s, c + Z.of_nat n).
Proof.
  revert c. induction n as [|n IH]; intros c Hc Hn.
  - cbn. rewrite Z.add_0_r. reflexivity.
  - cbn [replicate key_run fold_left fst snd]. fold (key_run (replicate n (negb s))).
    unfold DEBOUNCE_COUNT in *.
    assert (E : key_step (negb s) s c = (s, c + 1)).
    { unfold key_step, DEBOUNCE_COUNT, incr8, UINT8_MOD.
      rewrite Z.mod_small by lia.
      replace (Bool.eqb (negb s) s) with false by (destruct s; reflexivity).
      replace (3 <=? c + 1) with false by (symmetry; apply Z.leb_gt; lia).
      reflexivity. }
    rewrite E. rewrite IH by lia. f_equal. lia.
Qed.

Lemma key_step_agree (s : bool) (c : Z) : key_step s s c = (s, 0).
Proof. unfold key_step. rewrite Bool.eqb_reflx. reflexivity. Qed.

Lemma keyboard_state_zero_wf : wf_state keyboard_state_zero.
Proof.
  refine (conj _ (conj eq_refl _)).
  - unfold is_uint32, UINT32_MOD. cbn. lia.
  - apply Forall_forall. intros x Hx. apply elem_of_replicate_inv in Hx. subst x.
    unfold is_uint8, UINT8_MOD. lia.
Qed.

(** C10. From the zeroed state, after any sequence of raw scans every
    debounce counter is at most 2 (never left at the threshold) and
    [current_state] equals [stable_state]. *)
Theorem C10_counter_below_threshold (raws : list Z) :
  Forall is_uint32 raws ->
  let k := run_updates keyboard_state_zero raws in
  (forall i : nat, (i < MAX_MATRIX_KEYS)%nat -> 0 <= key_counter k i <= 2) /\
  current_state k = stable_state k.
Proof.
  intros Hall. cbv zeta.
  destruct raws as [|r0 raws0] using rev_ind.
  - split; [|reflexivity]. intros i Hi. unfold key_counter. cbn [run_updates fold_left].
    unfold keyboard_state_zero. cbn [debounce_counter].
    rewrite lookup_total_replicate_2 by exact Hi. lia.
  - clear IHraws0. rewrite run_updates_app. cbn [run_updates fold_left].
    fold (run_updates keyboard_state_zero raws0).
    apply Forall_app in Hall as [Hall0 Hr0]. inversion Hr0; subst.
    pose proof (run_updates_wf raws0 _ keyboard_state_zero_wf Hall0) as Hwf.
    destruct (Update_key_spec (run_updates keyboard_state_zero raws0) r0 Hwf)
      as (_ & Hcur & _ & Keys); [assumption|].
    split; [|exact Hcur].
    intros i Hi. specialize (Keys i Hi). apply (f_equal snd) in Keys.
    cbn [key_view snd] in Keys. rewrite Keys. apply key_step_counter_bound.
Qed.

Lemma C10_counter_below_threshold_witness :
  Forall is_uint32 [8; 8; 0; 8; 8; 8] /\
  (forall i : nat, (i < MAX_MATRIX_KEYS)%nat ->
     0 <= key_counter (run_updates keyboard_state_zero [8; 8; 0; 8; 8; 8]) i <= 2) /\
  current_state (run_updates keyboard_state_zero [8; 8; 0; 8; 8; 8]) =
  stable_state (run_updates keyboard_state_zero [8; 8; 0; 8; 8; 8]).
Proof.
  assert (H : Forall is_uint32 [8; 8; 0; 8; 8; 8]).
  { repeat constructor; unfold UINT32_MOD; lia. }
  split; [exact H|].
  exact (C10_counter_below_threshold [8; 8; 0; 8; 8; 8] H).
Defined.

(** C2. With [debounce_counter[i] = 0], three consecutive updates whose raw
    bit [i] is the opposite of the stable bit [i] leave the stable bit alone
    on the first two cycles, set it to the raw value on the third and clear
    the counter; every other key evolves by its own automaton on its own raw
    levels, whatever key [i] does. *)
Theorem C2_three_opposite_reads_commit
  (k : KeyboardState_t) (r1 r2 r3 : Z) (i : nat) :
  wf_state k -> is_uint32 r1 -> is_uint32 r2 -> is_uint32 r3 ->
  (i < MAX_MATRIX_KEYS)%nat ->
  key_counter k i = 0 ->
  let k1 := Update_Keyboard_State k r1 in
  let k2 := Update_Keyboard_State k1 r2 in
  let k3 := Update_Keyboard_State k2 r3 in
  key_bit r1 i = negb (key_bit (stable_state k) i) ->
  key_bit r2 i = negb (key_bit (stable_state k1) i) ->
  key_bit r3 i = negb (key_bit (stable_state k2) i) ->
  key_view k1 i = (key_bit (stable_state k) i, 1) /\
  key_view k2 i = (key_bit (stable_state k) i, 2) /\
  key_view k3 i = (key_bit r3 i, 0) /\
  key_bit (stable_state k3) i = negb (key_bit (stable_state k) i) /\
  (forall j : nat, j <> i -> (j < MAX_MATRIX_KEYS)%nat ->
     key_view k3 j =
     key_run [key_bit r1 j; key_bit r2 j; key_bit r3 j] (key_view k j)).
Proof.
  intros Hwf H1 H2 H3 Hi Hc k1 k2 k3 D1 D2 D3.
  destruct (Update_key_spec k r1 Hwf H1) as (W1 & _ & _ & K1). fold k1 in W1, K1.
  destruct (Update_key_spec k1 r2 W1 H2) as (W2 & _ & _ & K2). fold k2 in W2, K2.
  destruct (Update_key_spec k2 r3 W2 H3) as (W3 & _ & _ & K3). fold k3 in W3, K3.
  assert (V1 : key_view k1 i = (key_bit (stable_state k) i, 1)).
  { rewrite (K1 i Hi), D1, Hc. destruct (key_bit (stable_state k) i); reflexivity. }
  assert (B1 : key_bit (stable_state k1) i = key_bit (stable_state k) i)
    by (unfold key_view in V1; congruence).
  assert (C1 : key_counter k1 i = 1) by (unfold key_view in V1; congruence).
  assert (V2 : key_view k2 i = (key_bit (stable_state k) i, 2)).
  { rewrite (K2 i Hi), D2, C1, B1. destruct (key_bit (stable_state k) i); reflexivity. }
  assert (B2 : key_bit (stable_state k2) i = key_bit (stable_state k) i)
    by (unfold key_view in V2; congruence).
  assert (C2 : key_counter k2 i = 2) by (unfold key_view in V2; congruence).
  assert (V3 : key_view k3 i = (key_bit r3 i, 0)).
  { rewrite (K3 i Hi), D3, C2, B2. destruct (key_bit (stable_state k) i); reflexivity. }
  refine (conj V1 (conj V2 (conj V3 (conj _ _)))).
  - unfold key_view in V3. injection V3 as E _. rewrite E, D3, B2. reflexivity.
  - intros j _ Hj. rewrite (K3 j Hj). cbn [key_run fold_left].
    change (key_view k j).1 with (key_bit (stable_state k) j).
    change (key_view k j).2 with (key_counter k j).
    rewrite <- (K1 j Hj).
    change (key_view k1 j).1 with (key_bit (stable_state k1) j).
    change (key_view k1 j).2 with (key_counter k1 j).
    rewrite <- (K2 j Hj). reflexivity.
Qed.

Lemma C2_three_opposite_reads_commit_witness :
  key_view (run_updates keyboard_state_zero [8; 8; 8]) 3 = (true, 0) /\
  key_bit (stable_state (run_updates keyboard_state_zero [8; 8; 8])) 3 = true.
Proof.
  assert (U : is_uint32 8) by (unfold is_uint32, UINT32_MOD; lia).
  assert (L : (3 < MAX_MATRIX_KEYS)%nat) by (unfold MAX_MATRIX_KEYS; lia).
  destruct (C2_three_opposite_reads_commit keyboard_state_zero 8 8 8 3
              keyboard_state_zero_wf U U U L eq_refl eq_refl eq_refl eq_refl)
    as (_ & _ & V & B & _).
  split; [exact V | exact B].
Defined.

(** C3. When the raw bit [i] disagrees with the stable bit [i] for fewer
    than 3 consecutive updates (the counter holding those already seen) and
    then agrees, the stable bit [i] is the same after every update of the
    episode; the counter, which had counted the disagreeing reads, is 0 after
    the agreeing one. *)
Theorem C3_short_bounce_rejected
  (k : KeyboardState_t) (rs : list Z) (r : Z) (i : nat) :
  wf_state k -> Forall is_uint32 rs -> is_uint32 r ->
  (i < MAX_MATRIX_KEYS)%nat ->
  key_counter k i + Z.of_nat (length rs) < DEBOUNCE_COUNT ->
  Forall (fun x => key_bit x i = negb (key_bit (stable_state k) i)) rs ->
  key_bit r i = key_bit (stable_state k) i ->
  (forall n : nat,
     key_bit (stable_state (run_updates k (take n rs))) i =
     key_bit (stable_state k) i) /\
  key_counter (run_updates k rs) i = key_counter k i + Z.of_nat (length rs) /\
  key_view (run_updates k (rs ++ [r])) i = (key_bit (stable_state k) i, 0).
Proof.
  intros Hwf Hrs Hr Hi Hlen Hdis Hagree.
  assert (Hc0 : 0 <= key_counter k i) by (apply (wf_counter_range k i Hwf Hi)).
  assert (Hmap : forall l : list Z,
             Forall (fun x => key_bit x i = negb (key_bit (stable_state k) i)) l ->
             map (fun x => key_bit x i) l =
             replicate (length l) (negb (key_bit (stable_state k) i))).
  { induction l as [|x l IH]; intros Hl; [reflexivity|].
    inversion Hl; subst. cbn. f_equal; [assumption | apply IH; assumption]. }
  assert (Hpre : forall n : nat,
             key_view (run_updates k (take n rs)) i =
             (key_bit (stable_state k) i,
              key_counter k i + Z.of_nat (length (take n rs)))).
  { intros n.
    rewrite run_updates_key by (try apply Forall_take; assumption).
    rewrite Hmap by (apply Forall_take; exact Hdis).
    apply key_run_disagree; [exact Hc0|].
    rewrite length_take. lia. }
  refine (conj _ (conj _ _)).
  - intros n. specialize (Hpre n). unfold key_view in Hpre. congruence.
  - specialize (Hpre (length rs)). rewrite firstn_all in Hpre.
    unfold key_view in Hpre. congruence.
  - rewrite run_updates_app. cbn [run_updates fold_left].
    fold (run_updates k rs).
    pose proof (run_updates_wf rs k Hwf Hrs) as Hwf'.
    destruct (Update_key_spec (run_updates k rs) r Hwf' Hr) as (_ & _ & _ & Keys).
    rewrite (Keys i Hi).
    specialize (Hpre (length rs)). rewrite firstn_all in Hpre.
    unfold key_view in Hpre. injection Hpre as Hb _.
    rewrite Hb, Hagree. apply key_step_agree.
Qed.

Lemma C3_short_bounce_rejected_witness :
  key_counter (run_updates keyboard_state_zero [8; 8]) 3 = 2 /\
  key_view (run_updates keyboard_state_zero ([8; 8] ++ [0])) 3 = (false, 0).
Proof.
  assert (U8 : is_uint32 8) by (unfold is_uint32, UINT32_MOD; lia).
  assert (U0 : is_uint32 0) by (unfold is_uint32, UINT32_MOD; lia).
  assert (L : (3 < MAX_MATRIX_KEYS)%nat) by (unfold MAX_MATRIX_KEYS; lia).
  assert (N : key_counter keyboard_state_zero 3 + Z.of_nat (length [8; 8])
              < DEBOUNCE_COUNT) by reflexivity.
  assert (D : Forall (fun x => key_bit x 3 =
                               negb (key_bit (stable_state keyboard_state_zero) 3))
                [8; 8]) by (repeat constructor).
  assert (F : Forall is_uint32 [8; 8]) by (repeat constructor; apply U8).
  destruct (C3_short_bounce_rejected keyboard_state_zero [8; 8] 0 3
              keyboard_state_zero_wf F U0 L N D eq_refl)
    as (_ & Hc & Hv).
  split; [exact Hc | exact Hv].
Defined.

End Debounce.

(** ** Change detection and MIDI emission *)

Section Changes.
Import Main Midi.
#[local] Opaque Update_Keyboard_State.

Lemma midi_notes_lookup (i : nat) :
  (i < MAX_MATRIX_KEYS)%nat -> midi_notes !!! i = 48 + Z.of_nat i.
Proof.
  unfold MAX_MATRIX_KEYS. intros Hi.
  do 64 (destruct i as [|i]; [reflexivity|]). lia.
Qed.

Lemma MIDI_send_raw_3 (a b c : Z) (m : midi_t) :
  midi_initialized m = true ->
  MIDI_send_raw (Some [a; b; c]) 3 m =
  {| midi_initialized := true; uart_tx := uart_tx m ++ [a; b; c] |}.
Proof.
  intros Hm. unfold MIDI_send_raw. rewrite Hm.
  change (take (Z.to_nat 3) [a; b; c]) with [a; b; c].
  cbn. unfold BSP_UART_putc. cbn. rewrite Hm. rewrite <- !app_assoc. reflexivity.
Qed.

Lemma Send_MIDI_Note_tx (k : KeyboardState_t) (i : nat) (m : midi_t) :
  (i < MAX_MATRIX_KEYS)%nat -> midi_initialized m = true ->
  Send_MIDI_Note (Z.of_nat i) (key_bit (stable_state k) i) m =
  {| midi_initialized := true; uart_tx := uart_tx m ++ note_message k i |}.
Proof.
  intros Hi Hm. unfold Send_MIDI_Note, note_message.
  replace (Z.of_nat i <? 0) with false by (symmetry; apply Z.ltb_ge; lia).
  replace (Z.of_nat MAX_MATRIX_KEYS <=? Z.of_nat i) with false
    by (symmetry; apply Z.leb_gt; lia).
  cbn [orb]. rewrite Nat2Z.id. rewrite midi_notes_lookup by exact Hi.
  unfold MAX_MATRIX_KEYS in Hi.
  destruct (key_bit (stable_state k) i).
  - unfold MIDI_send_note_on.
    replace (127 <? 48 + Z.of_nat i) with false by (symmetry; apply Z.ltb_ge; lia).
    cbn [orb Z.ltb Z.compare Pos.compare Pos.compare_cont].
    apply MIDI_send_raw_3. exact Hm.
  - unfold MIDI_send_note_off.
    replace (127 <? 48 + Z.of_nat i) with false by (symmetry; apply Z.ltb_ge; lia).
    cbn [orb Z.ltb Z.compare Pos.compare Pos.compare_cont].
    apply MIDI_send_raw_3. exact Hm.
Qed.

Lemma filter_key_bit_0 (idxs : list nat) : List.filter (key_bit 0) idxs = [].
Proof.
  induction idxs as [|i idxs IH]; [reflexivity|].
  cbn [List.filter]. unfold key_bit at 1. rewrite Z.testbit_0_l. exact IH.
Qed.

(** The emission loop over any list of key indices. *)
Lemma emit_loop_tx (k : KeyboardState_t) (changes : Z) (idxs : list nat) (m : midi_t) :
  is_uint32 changes -> is_uint32 (current_state k) ->
  current_state k = stable_state k ->
  Forall (fun i => (i < MAX_MATRIX_KEYS)%nat) idxs ->
  midi_initialized m = true ->
  let m' :=
    fold_left
      (fun m' i =>
         if masked changes (ul_bit i)
         then Send_MIDI_Note (Z.of_nat i) (masked (current_state k) (ul_bit i)) m'
         else m')
      idxs m in
  midi_initialized m' = true /\
  uart_tx m' =
  uart_tx m ++ concat (map (note_message k) (List.filter (key_bit changes) idxs)).
Proof.
  intros Hch Hcur Heq Hidx. revert m.
  induction idxs as [|i idxs IH]; intros m Hm; cbn zeta.
  - cbn. rewrite app_nil_r. split; [exact Hm | reflexivity].
  - inversion Hidx; subst. cbn [fold_left List.filter].
    rewrite !masked_ul_bit by assumption. fold (key_bit changes i).
    fold (key_bit (current_state k) i).
    destruct (key_bit changes i) eqn:Ec.
    + rewrite Heq. rewrite Send_MIDI_Note_tx by assumption.
      rewrite <- Heq.
      match goal with
      | |- context [fold_left ?f idxs ?m0] =>
          destruct (IH ltac:(assumption) m0 eq_refl) as [I T]
      end.
      cbv zeta in I, T. split; [exact I|].
      rewrite T. cbn [uart_tx map concat]. rewrite app_assoc. reflexivity.
    + apply IH; assumption.
Qed.

(** C1. After the debounce update the change set is the XOR of the new
    stable bitmap with the stable bitmap the cycle started from, and the
    bytes handed to the transport during the cycle are, in ascending key
    order, one three-byte message per key whose bit is set in that XOR
    (status [0x90 | (channel - 1)] when the key is now pressed,
    [0x80 | (channel - 1)] when it is now released, channel 1) and nothing
    for the other keys. *)
Theorem C1_one_message_per_change
  (k : KeyboardState_t) (raw : Z) (m : midi_t) :
  wf_state k -> is_uint32 raw -> midi_initialized m = true ->
  let k' := Update_Keyboard_State k raw in
  let changes := Z.lxor (current_state k') (previous_state k') in
  changes = Z.lxor (stable_state k') (stable_state k) /\
  uart_tx (Process_Key_Changes k' m) =
  uart_tx m ++
  concat (map (note_message k')
            (List.filter (key_bit changes) (seq 0 MAX_MATRIX_KEYS))).
Proof.
  intros Hwf Hraw Hm k' changes.
  destruct (Update_key_spec k raw Hwf Hraw) as (W & Hcur & Hprev & _).
  fold k' in W, Hcur, Hprev.
  assert (Hx : changes = Z.lxor (stable_state k') (stable_state k)).
  { unfold changes. rewrite Hcur, Hprev. reflexivity. }
  split; [exact Hx|].
  assert (Hs' : is_uint32 (stable_state k')) by apply W.
  assert (Hs : is_uint32 (stable_state k)) by apply Hwf.
  assert (Hch : is_uint32 changes).
  { rewrite Hx. apply uint32_from_bits.
    - apply Z.lxor_nonneg. unfold is_uint32 in *. lia.
    - intros j Hj. rewrite Z.lxor_spec.
      rewrite !uint32_high_bits by assumption. reflexivity. }
  unfold Process_Key_Changes. fold changes.
  destruct (changes =? 0) eqn:E0.
  - apply Z.eqb_eq in E0. rewrite E0.
    replace (List.filter (key_bit 0) (seq 0 MAX_MATRIX_KEYS)) with (@nil nat).
    + cbn. rewrite app_nil_r. reflexivity.
    + symmetry. apply filter_key_bit_0.
  - assert (Hc' : is_uint32 (current_state k')) by (rewrite Hcur; exact Hs').
    assert (Hidx : Forall (fun i => (i < MAX_MATRIX_KEYS)%nat) (seq 0 MAX_MATRIX_KEYS)).
    { apply Forall_forall. intros i Hi. apply elem_of_seq in Hi. lia. }
    exact (proj2 (emit_loop_tx k' changes (seq 0 MAX_MATRIX_KEYS) m
                    Hch Hc' Hcur Hidx Hm)).
Qed.

Lemma C1_one_message_per_change_witness :
  uart_tx (snd (Keyboard_MIDI_cycle 9
                  (run_updates keyboard_state_zero [9; 9], mkMidi true []))) =
  [0x90; 48; 100; 0x90; 51; 100].
Proof.
  assert (U : is_uint32 9) by (unfold is_uint32, UINT32_MOD; lia).
  assert (F : Forall is_uint32 [9; 9]) by (repeat constructor; apply U).
  destruct (C1_one_message_per_change
              (run_updates keyboard_state_zero [9; 9]) 9 (mkMidi true [])
              (run_updates_wf _ _ keyboard_state_zero_wf F) U eq_refl) as [_ H].
  unfold Keyboard_MIDI_cycle. cbn [fst snd]. rewrite H. vm_compute. reflexivity.
Defined.

End Changes.

(** ** The MIDI encoder *)

Section Encoder.
Import Midi.

(** The shared range test of the three-byte channel messages. *)
Lemma range_test_invalid (channel x y : Z) :
  ~ (1 <= channel <= 16 /\ x <= 127 /\ y <= 127) ->
  (channel <? 1) || (16 <? channel) || (127 <? x) || (127 <? y) = true.
Proof.
  intros H.
  destruct (channel <? 1) eqn:E1; [reflexivity|].
  destruct (16 <? channel) eqn:E2; [reflexivity|].
  destruct (127 <? x) eqn:E3; [reflexivity|].
  destruct (127 <? y) eqn:E4; [reflexivity|].
  exfalso. apply H. lia.
Qed.

Lemma range_test_valid (channel x y : Z) :
  1 <= channel <= 16 -> x <= 127 -> y <= 127 ->
  (channel <? 1) || (16 <? channel) || (127 <? x) || (127 <? y) = false.
Proof.
  intros H1 H2 H3.
  replace (channel <? 1) with false by (symmetry; apply Z.ltb_ge; lia).
  replace (16 <? channel) with false by (symmetry; apply Z.ltb_ge; lia).
  replace (127 <? x) with false by (symmetry; apply Z.ltb_ge; lia).
  replace (127 <? y) with false by (symmetry; apply Z.ltb_ge; lia).
  reflexivity.
Qed.

Lemma channel_test_invalid (channel : Z) :
  ~ (1 <= channel <= 16) -> (channel <? 1) || (16 <? channel) = true.
Proof.
  intros H.
  destruct (channel <? 1) eqn:E1; [reflexivity|].
  destruct (16 <? channel) eqn:E2; [reflexivity|].
  exfalso. apply H. lia.
Qed.

Lemma channel_test_valid (channel : Z) :
  1 <= channel <= 16 -> (channel <? 1) || (16 <? channel) = false.
Proof.
  intros H.
  replace (channel <? 1) with false by (symmetry; apply Z.ltb_ge; lia).
  replace (16 <? channel) with false by (symmetry; apply Z.ltb_ge; lia).
  reflexivity.
Qed.

(** The claim of C4 fails at velocity 0 and at an out-of-range bend value:
    bytes are handed to the transport in both cases. *)
Lemma C4_out_of_range_is_sent :
  uart_tx (MIDI_send_note_on 1 60 0 (mkMidi true [])) = [0x90; 60; 0] /\
  uart_tx (MIDI_send_pitch_bend 1 10000 (mkMidi true [])) = [0xE0; 0x7F; 0x7F].
Proof. split; vm_compute; reflexivity. Qed.

(** C4, amended.  The encoders drop a call whose channel is outside 1..16
    or whose data byte exceeds 127, leaving the module's state and the
    transport untouched; [MIDI_send_note_on] accepts velocity 0, and
    [MIDI_send_pitch_bend] checks its channel only: for a valid channel three
    bytes are sent whatever the bend value, a value above +8191 being
    saturated to 16383. *)
Theorem C4_invalid_calls_dropped (m : midi_t) (channel x y : Z) :
  is_uint8 channel -> is_uint8 x -> is_uint8 y ->
  (~ (1 <= channel <= 16 /\ 0 <= x <= 127 /\ 0 <= y <= 127) ->
     MIDI_send_note_on channel x y m = m /\
     MIDI_send_note_off channel x y m = m /\
     MIDI_send_control_change channel x y m = m) /\
  (~ (1 <= channel <= 16 /\ 0 <= x <= 127) ->
     MIDI_send_program_change channel x m = m) /\
  (~ (1 <= channel <= 16) ->
     MIDI_send_all_notes_off channel m = m /\
     forall value : Z, MIDI_send_pitch_bend channel value m = m) /\
  (midi_initialized m = true -> 1 <= channel <= 16 -> x <= 127 ->
     uart_tx (MIDI_send_note_on channel x 0 m) =
     uart_tx m ++ [status_byte MIDI_NOTE_ON channel; x; 0]) /\
  (midi_initialized m = true -> 1 <= channel <= 16 ->
     forall value : Z, -32768 <= value <= 32767 ->
       exists lsb msb : Z,
         uart_tx (MIDI_send_pitch_bend channel value m) =
         uart_tx m ++ [status_byte MIDI_PITCH_BEND channel; lsb; msb] /\
         (8191 < value -> lsb = 0x7F /\ msb = 0x7F) /\
         (-8192 <= value <= 8191 ->
            lsb = (value + 8192) mod 128 /\ msb = (value + 8192) / 128)).
Proof.
  intros Hc Hx Hy. unfold is_uint8, UINT8_MOD in *.
  refine (conj _ (conj _ (conj _ (conj _ _)))).
  - intros Hbad.
    assert (T : (channel <? 1) || (16 <? channel) || (127 <? x) || (127 <? y) = true)
      by (apply range_test_invalid; lia).
    unfold MIDI_send_note_on, MIDI_send_note_off, MIDI_send_control_change.
    rewrite T. repeat split.
  - intros Hbad. unfold MIDI_send_program_change.
    destruct (channel <? 1) eqn:E1; [reflexivity|].
    destruct (16 <? channel) eqn:E2; [reflexivity|].
    destruct (127 <? x) eqn:E3; [reflexivity|].
    exfalso. apply Hbad. lia.
  - intros Hbad. split.
    + unfold MIDI_send_all_notes_off, MIDI_send_control_change.
      rewrite range_test_invalid; [reflexivity|]. lia.
    + intros value. unfold MIDI_send_pitch_bend.
      rewrite channel_test_invalid by exact Hbad. reflexivity.
  - intros Hm Hch Hx127. unfold MIDI_send_note_on.
    rewrite range_test_valid by lia.
    rewrite MIDI_send_raw_3 by exact Hm. reflexivity.
  - intros Hm Hch value Hv. unfold MIDI_send_pitch_bend.
    rewrite channel_test_valid by exact Hch.
    rewrite MIDI_send_raw_3 by exact Hm. cbn [uart_tx].
    eexists _, _. split; [reflexivity|]. unfold UINT16_MOD. split.
    + intros Hhi. rewrite Z.mod_small by lia.
      replace (16383 <? value + 8192) with true by (symmetry; apply Z.ltb_lt; lia).
      split; reflexivity.
    + intros Hin. rewrite Z.mod_small by lia.
      replace (16383 <? value + 8192) with false by (symmetry; apply Z.ltb_ge; lia).
      split.
      * change 127 with (Z.ones 7). rewrite Z.land_ones by lia. reflexivity.
      * rewrite Z.shiftr_div_pow2 by lia. change 127 with (Z.ones 7).
        rewrite Z.land_ones by lia. change (2 ^ 7) with 128.
        apply Z.mod_small. split.
        -- apply Z.div_pos; lia.
        -- apply Z.div_lt_upper_bound; lia.
Qed.

Lemma C4_invalid_calls_dropped_witness :
  MIDI_send_note_on 17 60 100 (mkMidi true []) = mkMidi true [] /\
  MIDI_send_note_on 1 128 100 (mkMidi true []) = mkMidi true [] /\
  uart_tx (MIDI_send_note_on 1 60 0 (mkMidi true [])) = [] ++ [0x90; 60; 0].
Proof.
  assert (U : forall n, 0 <= n < 256 -> is_uint8 n) by (intros n H; exact H).
  refine (conj _ (conj _ _)).
  - apply (C4_invalid_calls_dropped (mkMidi true []) 17 60 100);
      [apply U; lia | apply U; lia | apply U; lia | lia].
  - apply (C4_invalid_calls_dropped (mkMidi true []) 1 128 100);
      [apply U; lia | apply U; lia | apply U; lia | lia].
  - apply (C4_invalid_calls_dropped (mkMidi true []) 1 60 0);
      [apply U; lia | apply U; lia | apply U; lia | reflexivity | lia | lia].
Defined.

(** The result is a MIDI note number or the invalid marker. *)
Lemma note_number_from_range (s : string) (c a : ascii) :
  note_number_from s c a = 255 \/ 0 <= note_number_from s c a <= 127.
Proof.
  unfold note_number_from.
  destruct (find_semitone (seq 0 12) c a =? -1); [left; reflexivity|].
  destruct (String.length s <=? _)%nat; [left; reflexivity|].
  destruct (_ || _); [left; reflexivity|].
  match goal with |- context [if ?b then _ else _] => destruct b eqn:E end;
    [right | left; reflexivity].
  apply andb_true_iff in E as [E1 E2].
  apply Z.leb_le in E1, E2. lia.
Qed.

(** The claim of C6 gives every letter a sharp: the table [notes] has no
    entry for E# and B#, so the search leaves [semitone] at -1 and "E#4",
    for which the formula of the claim gives 65, is invalid; so is "B#3"
    (formula: 60). *)
Lemma C6_sharp_on_E_and_B_is_invalid :
  note_name LE Sharp 4 = "E#4"%string /\
  note_number_spec LE Sharp 4 = 65 /\
  MIDI_note_name_to_number (Some "E#4"%string) = 255 /\
  note_name LB Sharp 3 = "B#3"%string /\
  note_number_spec LB Sharp 3 = 60 /\
  MIDI_note_name_to_number (Some "B#3"%string) = 255.
Proof. vm_compute. repeat split. Qed.

(** C6, amended in the sharps of E and B.  For every letter, optional
    accidental and octave digit 0..9, [MIDI_note_name_to_number] returns 255
    for a sharp on E or B and otherwise [(octave+1)*12 + semitone] when that
    is within 0..127 and 255 when it is not, a flat counting as the sharp of
    the letter below and being invalid on C and F; every result is in 0..127
    or is 255; "C4" gives 60, "A4" gives 69, "Db5" and "C#5" agree, and "H4",
    "C" and the empty string give 255. *)
Theorem C6_note_name_to_number (l : letter) (a : accidental_t) (octave : nat) :
  (octave <= 9)%nat ->
  MIDI_note_name_to_number (Some (note_name l a octave)) =
    match a, l with
    | Sharp, LE | Sharp, LB => 255
    | _, _ => note_number_spec l a octave
    end /\
  (forall l' : letter, letter_below l = Some l' ->
     MIDI_note_name_to_number (Some (note_name l Flat octave)) =
     MIDI_note_name_to_number (Some (note_name l' Sharp octave))) /\
  (letter_below l = None ->
     MIDI_note_name_to_number (Some (note_name l Flat octave)) = 255) /\
  (forall s : option string,
     MIDI_note_name_to_number s = 255 \/ 0 <= MIDI_note_name_to_number s <= 127) /\
  MIDI_note_name_to_number (Some "C4"%string) = 60 /\
  MIDI_note_name_to_number (Some "A4"%string) = 69 /\
  MIDI_note_name_to_number (Some "Db5"%string) =
  MIDI_note_name_to_number (Some "C#5"%string) /\
  MIDI_note_name_to_number (Some "H4"%string) = 255 /\
  MIDI_note_name_to_number (Some "C"%string) = 255 /\
  MIDI_note_name_to_number (Some ""%string) = 255.
Proof.
  intros Hoct.
  assert (Hcases : In octave (seq 0 10)) by (apply in_seq; lia).
  refine (conj _ (conj _ (conj _ (conj _ _)))).
  - cbn in Hcases.
    repeat (destruct Hcases as [<- | Hcases]; [destruct l, a; vm_compute; reflexivity|]).
    contradiction.
  - intros l' Hl'. cbn in Hcases.
    repeat (destruct Hcases as [<- | Hcases];
            [destruct l; inversion Hl'; subst; vm_compute; reflexivity|]).
    contradiction.
  - intros Hnone. cbn in Hcases.
    repeat (destruct Hcases as [<- | Hcases];
            [destruct l; try discriminate Hnone; vm_compute; reflexivity|]).
    contradiction.
  - intros [s|]; [|left; reflexivity]. unfold MIDI_note_name_to_number.
    destruct (String.length s <? 2)%nat; [left; reflexivity|].
    destruct (Ascii.eqb _ "b").
    + destruct (flat_to_sharp _); [apply note_number_from_range | left; reflexivity].
    + apply note_number_from_range.
  - repeat split; vm_compute; reflexivity.
Qed.

Lemma C6_note_name_to_number_witness :
  MIDI_note_name_to_number (Some (note_name LB Flat 3)) = note_number_spec LB Flat 3 /\
  note_number_spec LB Flat 3 = 58 /\
  MIDI_note_name_to_number (Some (note_name LE Sharp 4)) = 255.
Proof.
  assert (H3 : (3 <= 9)%nat) by lia. assert (H4 : (4 <= 9)%nat) by lia.
  refine (conj _ (conj eq_refl _)).
  - exact (proj1 (C6_note_name_to_number LB Flat 3 H3)).
  - exact (proj1 (C6_note_name_to_number LE Sharp 4 H4)).
Defined.

End Encoder.

(** ** The expander driver *)

Section DriverFacts.
Import MCP23017.
Context `{B : I2C_Bus} `{C : MCP23017_Config}.

Lemma land_7_small (x : Z) : 0 <= x <= 7 -> Z.land x 0x07 = x.
Proof.
  intros H. change 7 with (Z.ones 3). rewrite Z.land_ones by lia.
  apply Z.mod_small. change (2 ^ 3) with 8. lia.
Qed.

Ltac bus_step :=
  match goal with
  | |- context [BSP_I2C_Init ?p ?b] =>
      destruct (BSP_I2C_Init p b) as [[] ?]
  | |- context [BSP_I2C_Read ?p ?a ?r ?b] =>
      destruct (BSP_I2C_Read p a r b) as [[[] ?] ?]
  | |- context [BSP_I2C_Write ?p ?a ?r ?v ?b] =>
      destruct (BSP_I2C_Write p a r v b) as [[] ?]
  end.

Ltac slot_norm :=
  repeat first
    [ rewrite list_lookup_total_insert_eq by (rewrite ?length_insert; assumption)
    | rewrite list_insert_insert_eq ].

(** [MCP23017_initIc] runs the script [init_sequence] and nothing else: the
    bus ends where the script leaves it, the slot holds the computed address
    and is in use exactly when the script's verdict is positive. *)
Lemma initIc_script (d : driver_t) (id : nat) (p : I2C_TypeDef) (addr : Z) :
  (id < MCP23017_NB_IC)%nat -> (id < length (MCP23017_ic d))%nat ->
  0 <= addr <= 7 ->
  MCP23017_initIc id p addr d =
  (let a := Z.lor (Z.shiftl 0x20 1) (Z.shiftl addr 1) in
   let (res, b') := run_ops (init_sequence p a) (i2c d) in
   let ok := init_verdict res in
   (if ok then HAL_OK else HAL_ERROR,
    {| MCP23017_ic :=
         <[id := {| used := ok; address := a; I2Cx := p; error_count := 0 |}]>
           (MCP23017_ic d);
       i2c := b' |})).
Proof.
  intros Hid Hlen Haddr. unfold MCP23017_initIc.
  rewrite (proj2 (Nat.leb_gt MCP23017_NB_IC id)) by exact Hid.
  rewrite land_7_small by exact Haddr.
  generalize (Z.lor (Z.shiftl 32 1) (Z.shiftl addr 1)). intros a. cbv zeta.
  unfold init_sequence, init_abort, iocon_rawData, bind, ret, set_ic, get_ic,
    i2c_Init, i2c_Read, i2c_Write.
  cbn [MCP23017_ic i2c run_ops run_op].
  slot_norm. cbn [address set_used used I2Cx error_count].
  repeat (bus_step;
          cbn [is_ok negb fst snd MCP23017_ic i2c init_verdict drop forallb andb];
          slot_norm; cbn [address set_used used I2Cx error_count];
          try reflexivity).
  repeat match goal with
         | |- context [?x =? ?y] => destruct (x =? y)
         end;
    cbn [negb orb andb MCP23017_ic i2c]; slot_norm;
    cbn [address set_used used I2Cx error_count]; reflexivity.
Qed.

(** C8, amended in the registers read back.  [MCP23017_initIc] stores the
    bus address
    [(0x20 << 1) | (hardware_address << 1)] and issues exactly the
    transactions of [init_sequence] in that order (peripheral set-up, the
    communication-test read, IODIR_A = 0x00, IODIR_B = 0xFF, GPPU_B = 0xFF,
    GPPU_A = 0x00, OLAT_A = 0xFF, IOCON to both ports, GPINTEN = 0x00 on
    both ports, then the read-back of IODIR_A, IODIR_B and GPPU_B), stopping
    at the first transaction that fails; it returns [HAL_OK] with the slot
    in use when all succeed and the read-back matches, and [HAL_ERROR] with
    the slot free otherwise. *)
Theorem C8_init_sequence (d : driver_t) (id : nat) (p : I2C_TypeDef) (addr : Z) :
  (id < MCP23017_NB_IC)%nat -> length (MCP23017_ic d) = MCP23017_NB_IC ->
  0 <= addr <= 7 ->
  let a := Z.lor (Z.shiftl 0x20 1) (Z.shiftl addr 1) in
  let ran := run_ops (init_sequence p a) (i2c d) in
  let ok := init_verdict (fst ran) in
  MCP23017_initIc id p addr d =
  (if ok then HAL_OK else HAL_ERROR,
   {| MCP23017_ic :=
        <[id := {| used := ok; address := a; I2Cx := p; error_count := 0 |}]>
          (MCP23017_ic d);
      i2c := snd ran |}).
Proof.
  intros Hid Hlen Haddr a ran ok.
  rewrite initIc_script by (rewrite ?Hlen; assumption).
  cbv zeta. subst ok ran a.
  destruct (run_ops _ _) as [res b']. reflexivity.
Qed.

Lemma seq_split (i n : nat) :
  (i < n)%nat -> seq 0 n = seq 0 i ++ i :: seq (S i) (n - S i).
Proof.
  intros H. replace n with (i + S (n - S i))%nat at 1 by lia.
  rewrite seq_app. reflexivity.
Qed.

(** The slot search: skipped slots are in use, the first free one decides. *)
Lemma add_loop_all_used (idxs : list nat) (p : I2C_TypeDef) (addr : Z) (d : driver_t) :
  Forall (fun i => used (MCP23017_ic d !!! i) = true) idxs ->
  add_loop idxs p addr d = (MCP23017_ID_ERROR, d).
Proof.
  induction idxs as [|i idxs IH]; intros Hall; [reflexivity|].
  inversion Hall as [|? ? Hi Hrest]; subst.
  cbn [add_loop]. unfold bind at 1, get_ic at 1. rewrite Hi. cbn [negb].
  apply IH. exact Hrest.
Qed.

Lemma add_loop_first_free (pre post : list nat) (i : nat) (p : I2C_TypeDef)
  (addr : Z) (d : driver_t) :
  Forall (fun j => used (MCP23017_ic d !!! j) = true) pre ->
  used (MCP23017_ic d !!! i) = false ->
  add_loop (pre ++ i :: post) p addr d =
  (let (s, d') := MCP23017_initIc i p addr d in
   (if is_ok s then i else MCP23017_ID_ERROR, d')).
Proof.
  induction pre as [|j pre IH]; intros Hall Hfree.
  - cbn [app add_loop]. unfold bind, get_ic. rewrite Hfree. cbn [negb].
    destruct (MCP23017_initIc i p addr d) as [s d']. destruct (is_ok s); reflexivity.
  - inversion Hall as [|? ? Hj Hrest]; subst.
    cbn [app add_loop]. unfold bind at 1, get_ic at 1. rewrite Hj. cbn [negb].
    apply IH; assumption.
Qed.

(** C7. [MCP23017_add] returns the ERROR handle, leaving the table and the
    bus as they were, when the hardware address exceeds 7 or when every slot
    is in use; otherwise it runs the initialization sequence on the first
    free slot [i] and returns [i] with the slot in use when the sequence
    succeeds, the ERROR handle with the slot free when any step fails. *)
Theorem C7_add_result (d : driver_t) (p : I2C_TypeDef) (addr : Z) :
  length (MCP23017_ic d) = MCP23017_NB_IC -> 0 <= addr ->
  (7 < addr -> MCP23017_add p addr d = (MCP23017_ID_ERROR, d)) /\
  ((forall i : nat, (i < MCP23017_NB_IC)%nat -> used (MCP23017_ic d !!! i) = true) ->
   MCP23017_add p addr d = (MCP23017_ID_ERROR, d)) /\
  (forall i : nat,
     addr <= 7 -> (i < MCP23017_NB_IC)%nat ->
     used (MCP23017_ic d !!! i) = false ->
     (forall j : nat, (j < i)%nat -> used (MCP23017_ic d !!! j) = true) ->
     let a := Z.lor (Z.shiftl 0x20 1) (Z.shiftl addr 1) in
     let ran := run_ops (init_sequence p a) (i2c d) in
     let ok := init_verdict (fst ran) in
     MCP23017_add p addr d =
     (if ok then i else MCP23017_ID_ERROR,
      {| MCP23017_ic :=
           <[i := {| used := ok; address := a; I2Cx := p; error_count := 0 |}]>
             (MCP23017_ic d);
         i2c := snd ran |})).
Proof.
  intros Hlen Haddr0. refine (conj _ (conj _ _)).
  - intros Hbig. unfold MCP23017_add.
    rewrite (proj2 (Z.ltb_lt 7 addr)) by exact Hbig. reflexivity.
  - intros Hall. unfold MCP23017_add.
    destruct (7 <? addr); [reflexivity|].
    apply add_loop_all_used. apply Forall_forall. intros i Hi.
    apply elem_of_seq in Hi. apply Hall. lia.
  - intros i Haddr Hi Hfree Hbefore a ran ok. unfold MCP23017_add.
    rewrite (proj2 (Z.ltb_ge 7 addr)) by exact Haddr.
    replace (seq 0 MCP23017_NB_IC)
      with (seq 0 i ++ i :: seq (S i) (MCP23017_NB_IC - S i)).
    + rewrite add_loop_first_free.
      * rewrite initIc_script by (rewrite ?Hlen; (assumption || lia)).
        cbv zeta. subst ok ran a.
        destruct (run_ops _ _) as [res b']. cbn [fst snd].
        destruct (init_verdict res); reflexivity.
      * apply Forall_forall. intros j Hj. apply elem_of_seq in Hj.
        apply Hbefore. lia.
      * exact Hfree.
    + symmetry. apply seq_split. exact Hi.
Qed.

(** The state after the abort path of a register operation. *)
Lemma op_abort_counts {A} (d : driver_t) (id : nat) (b : bus_t) (x : A) :
  (id < length (MCP23017_ic d))%nat ->
  let r := op_abort id x {| MCP23017_ic := MCP23017_ic d; i2c := b |} in
  fst r = x /\ only_error_counted d id b (snd r).
Proof.
  intros Hid. cbv zeta. unfold op_abort, bind, ret, set_ic.
  cbn [fst snd MCP23017_ic i2c]. split; [reflexivity|].
  unfold only_error_counted. cbn [MCP23017_ic i2c].
  rewrite length_insert. rewrite list_lookup_total_insert_eq by exact Hid.
  repeat split.
  intros j Hj. apply list_lookup_total_insert_ne. congruence.
Qed.

Lemma checkId_spec (id : nat) (d : driver_t) :
  MCP23017_checkId id d =
  ((id <? MCP23017_NB_IC)%nat && used (MCP23017_ic d !!! id), d).
Proof.
  unfold MCP23017_checkId.
  destruct (MCP23017_NB_IC <=? id)%nat eqn:E.
  - apply Nat.leb_le in E.
    rewrite (proj2 (Nat.ltb_ge id MCP23017_NB_IC)) by exact E. reflexivity.
  - apply Nat.leb_gt in E.
    rewrite (proj2 (Nat.ltb_lt id MCP23017_NB_IC)) by exact E.
    unfold bind, get_ic, ret. destruct (used _); reflexivity.
Qed.

Lemma run_reg_op_shape (o : reg_op) (id : nat) (d : driver_t) :
  run_reg_op o id d = reg_op_shape o id d.
Proof.
  destruct o as [port pin dir|port pin|port pin st|port pin|port|port pin st|port pin];
    destruct port; try destruct dir; try destruct st;
    unfold reg_op_shape, run_reg_op, flag, MCP23017_setIO, MCP23017_getIO,
      MCP23017_setGPIO, MCP23017_getGPIO, MCP23017_getGPIO_all_pins,
      MCP23017_setPullUp, MCP23017_getPullUp, bind;
    rewrite checkId_spec;
    cbn [op_register on_port op_update];
    (destruct ((id <? MCP23017_NB_IC)%nat && used (MCP23017_ic d !!! id));
     cbn [negb]; [|reflexivity]);
    unfold get_ic, i2c_Read, i2c_Write, op_abort, bind, ret, set_ic;
    cbn [MCP23017_ic i2c];
    repeat (bus_step; cbn [is_ok negb fst snd MCP23017_ic i2c]; try reflexivity).
Qed.

(** Called with the pin argument 0, as the scan loop does on its first
    iteration, [MCP23017_getGPIO] tests the port value against an empty mask
    and never reports HIGH. *)
Lemma getGPIO_mask_0_never_high (id : nat) (port : MCP23017_port_e) (d : driver_t) :
  fst (MCP23017_getGPIO id port 0 d) <> Some MCP23017_PIN_STATE_HIGH.
Proof.
  unfold MCP23017_getGPIO, bind. rewrite checkId_spec.
  destruct ((id <? MCP23017_NB_IC)%nat && used (MCP23017_ic d !!! id));
    cbn [negb]; [|discriminate].
  unfold get_ic, i2c_Read, op_abort, bind, ret, set_ic.
  destruct port; bus_step; cbn [is_ok negb fst snd]; try discriminate;
    unfold masked; rewrite Z.land_0_r; discriminate.
Qed.

(** C9, amended in the width of the counter.  Each of the seven register
    operations first checks that [id] names a slot in use and fails without
    touching the table or the bus when it does not.  When its register read
    fails it returns [false], nothing is written to the chip, and the state
    differs only in that slot's error counter, advanced by one modulo 256;
    likewise when the write-back of a read-modify-write operation fails. *)
Theorem C9_failure_counts_once (o : reg_op) (id : nat) (d : driver_t) :
  length (MCP23017_ic d) = MCP23017_NB_IC ->
  let ic := MCP23017_ic d !!! id in
  let valid := (id <? MCP23017_NB_IC)%nat && used ic in
  let rd := BSP_I2C_Read (I2Cx ic) (address ic) (op_register o) (i2c d) in
  MCP23017_checkId id d = (valid, d) /\
  (valid = false -> run_reg_op o id d = (false, d)) /\
  (valid = true -> is_ok (fst (fst rd)) = false ->
     fst (run_reg_op o id d) = false /\
     only_error_counted d id (snd rd) (snd (run_reg_op o id d))) /\
  (valid = true -> is_ok (fst (fst rd)) = true ->
     forall f : Z -> Z, op_update o = Some f ->
       let wr := BSP_I2C_Write (I2Cx ic) (address ic) (op_register o)
                   (f (snd (fst rd))) (snd rd) in
       is_ok (fst wr) = false ->
       fst (run_reg_op o id d) = false /\
       only_error_counted d id (snd wr) (snd (run_reg_op o id d))).
Proof.
  intros Hlen ic valid rd. rewrite run_reg_op_shape. unfold reg_op_shape.
  fold ic. fold valid. fold rd.
  assert (Hid : valid = true -> (id < length (MCP23017_ic d))%nat).
  { intros Hv. rewrite Hlen. subst valid. apply andb_true_iff in Hv as [Hv _].
    apply Nat.ltb_lt. exact Hv. }
  refine (conj (checkId_spec id d) (conj _ (conj _ _))).
  - intros Hv. rewrite Hv. reflexivity.
  - intros Hv Hrd. rewrite Hv. cbn [negb].
    destruct rd as [[s v] b]. cbn [fst snd] in Hrd |- *. rewrite Hrd. cbn [negb].
    exact (op_abort_counts d id b false (Hid Hv)).
  - intros Hv Hrd f Hf. cbv zeta. rewrite Hv. cbn [negb].
    destruct rd as [[s v] b]. cbn [fst snd] in Hrd |- *.
    rewrite Hrd, Hf. cbn [negb].
    destruct (BSP_I2C_Write (I2Cx ic) (address ic) (op_register o) (f v) b)
      as [s' b'].
    cbn [fst snd]. intros Hwr. rewrite Hwr. cbn [negb].
    exact (op_abort_counts d id b' false (Hid Hv)).
Qed.

End DriverFacts.

(** ** The driver and the scan on the bench *)

Section OnTheBench.
Import MCP23017 MatrixKeyboard Bench.

Lemma C8_init_sequence_witness :
  let r := MCP23017_initIc 0 I2C1 0 (bench_driver [] true) in
  fst r = HAL_OK /\
  map used (MCP23017_ic (snd r)) = [true; false] /\
  map address (MCP23017_ic (snd r)) = [0x40; 0] /\
  regs (i2c (snd r)) =
  [0; 255; 0; 0; 0; 0; 0; 0; 0; 0; 0; 0; 0; 255; 0; 0; 0; 0; 0; 0; 255; 0].
Proof.
  cbv zeta.
  rewrite (C8_init_sequence (C := bench_config) (bench_driver [] true) 0 I2C1 0
             (Nat.lt_0_succ 1) eq_refl (conj (Z.le_refl 0) (Zle_0_pos 7))).
  vm_compute. repeat split.
Defined.

(** The claim of C8 has the pull-up registers read back and compared: the
    port A pull-up register is written 0x00 and never read back, so a chip on
    which it reads 0xFF is accepted. *)
Lemma C8_port_A_pullup_not_read_back :
  let r := MCP23017_initIc 0 I2C1 0 bench_stuck_gppu_a_driver in
  fst r = HAL_OK /\
  map used (MCP23017_ic (snd r)) = [true; false] /\
  In (OpWrite I2C1 0x40 MPC23017_REGISTER_GPPU_A 0x00) (init_sequence I2C1 0x40) /\
  ~ In (OpRead I2C1 0x40 MPC23017_REGISTER_GPPU_A) (init_sequence I2C1 0x40) /\
  fst (BSP_I2C_Read I2C1 0x40 MPC23017_REGISTER_GPPU_A (i2c (snd r)))
  = (HAL_OK, 0xFF).
Proof.
  cbv zeta. refine (conj _ (conj _ (conj _ (conj _ _)))).
  - vm_compute. reflexivity.
  - vm_compute. reflexivity.
  - cbn. tauto.
  - cbn. intros H. repeat (destruct H as [H | H]; [discriminate H|]). exact H.
  - vm_compute. reflexivity.
Qed.

Lemma C7_add_result_witness :
  MCP23017_add I2C1 8 (bench_driver [] true) = (255%nat, bench_driver [] true) /\
  MCP23017_add I2C1 0 bench_full_driver = (255%nat, bench_full_driver) /\
  fst (MCP23017_add I2C1 0 (bench_driver [] true)) = 0%nat /\
  fst (MCP23017_add I2C1 0 (bench_driver [] false)) = 255%nat.
Proof.
  assert (L8 : 0 <= 8) by lia. assert (L0 : 0 <= 0) by lia.
  assert (L7 : 0 <= 7) by lia.
  assert (F : forall keys alive (j : nat),
             (j < 0)%nat -> used (MCP23017_ic (bench_driver keys alive) !!! j) = true)
    by (intros keys alive j Hj; lia).
  pose proof (C7_add_result (C := bench_config) (bench_driver [] true) I2C1 8
                eq_refl L8) as (Hbig & _ & _).
  pose proof (C7_add_result (C := bench_config) bench_full_driver I2C1 0
                eq_refl L0) as (_ & Hfull & _).
  pose proof (C7_add_result (C := bench_config) (bench_driver [] true) I2C1 0
                eq_refl L0) as (_ & _ & Hfree).
  pose proof (C7_add_result (C := bench_config) (bench_driver [] false) I2C1 0
                eq_refl L0) as (_ & _ & Hdead).
  refine (conj _ (conj _ (conj _ _))).
  - apply Hbig. lia.
  - apply Hfull. intros i Hi. cbn in Hi.
    destruct i as [|[|i]]; [reflexivity | reflexivity | lia].
  - rewrite (Hfree 0%nat L7 (Nat.lt_0_succ 1) eq_refl (F [] true)).
    vm_compute. reflexivity.
  - rewrite (Hdead 0%nat L7 (Nat.lt_0_succ 1) eq_refl (F [] false)).
    vm_compute. reflexivity.
Defined.

(** The claim of C9 counts "exactly one" per failure: at 255 the 8-bit
    counter goes to 0. *)
Lemma C9_counter_wraps_at_255 :
  let d := bench_dead_driver 255 in
  let r := MCP23017_getGPIO 0 MCP23017_PORT_B 1 d in
  fst r = None /\
  error_count (MCP23017_ic d !!! 0%nat) = 255 /\
  error_count (MCP23017_ic (snd r) !!! 0%nat) = 0 /\
  error_count (MCP23017_ic (snd r) !!! 0%nat) <>
  error_count (MCP23017_ic d !!! 0%nat) + 1.
Proof. vm_compute. repeat split; discriminate. Qed.

Lemma C9_failure_counts_once_witness :
  fst (run_reg_op (Op_setGPIO MCP23017_PORT_A 1 MCP23017_PIN_STATE_LOW) 0
         (bench_dead_driver 3)) = false /\
  error_count
    (MCP23017_ic
       (snd (run_reg_op (Op_setGPIO MCP23017_PORT_A 1 MCP23017_PIN_STATE_LOW) 0
               (bench_dead_driver 3))) !!! 0%nat) = 4.
Proof.
  destruct (C9_failure_counts_once (C := bench_config)
              (Op_setGPIO MCP23017_PORT_A 1 MCP23017_PIN_STATE_LOW) 0
              (bench_dead_driver 3) eq_refl) as (_ & _ & H & _).
  destruct (H eq_refl eq_refl) as (Hf & Hc). split; [exact Hf|].
  destruct Hc as (_ & _ & _ & _ & _ & _ & Hc). exact Hc.
Defined.

(** C5 on the bench: with no key held the scan reports the eight keys of
    row 0, and with only the key of row 2, column 3 held it reports the same
    eight keys and not key 19. *)
Lemma C5_scan_reports_row_0 :
  fst (MATRIX_KEYBOARD_read_all_touchs (bench_ready [])) = 0xFF /\
  fst (MATRIX_KEYBOARD_read_all_touchs (bench_ready [(2, 3)%nat])) = 0xFF /\
  Z.testbit (fst (MATRIX_KEYBOARD_read_all_touchs (bench_ready [(2, 3)%nat]))) 19
  = false.
Proof. vm_compute. repeat split. Qed.

End OnTheBench.

(** * Further properties *)

(** ** The encoder: what reaches the transport *)

Section EncoderStream.
Import Midi.

(** X1. Until [MIDI_init] has run, no function of the module hands a byte
    to the transport or changes the module's state, whatever its
    arguments. *)
Theorem X1_silent_before_init (m : midi_t) (a b c : Z)
  (data : option (list Z)) :
  midi_initialized m = false ->
  MIDI_send_raw data a m = m /\
  MIDI_send_note_on a b c m = m /\
  MIDI_send_note_off a b c m = m /\
  MIDI_send_control_change a b c m = m /\
  MIDI_send_program_change a b m = m /\
  MIDI_send_pitch_bend a b m = m /\
  MIDI_send_all_notes_off a m = m.
Proof.
  intros Hm.
  assert (R : forall d l, MIDI_send_raw d l m = m).
  { intros d l. unfold MIDI_send_raw. rewrite Hm. destruct d; reflexivity. }
  unfold MIDI_send_all_notes_off, MIDI_send_note_on, MIDI_send_note_off,
    MIDI_send_control_change, MIDI_send_program_change, MIDI_send_pitch_bend.
  repeat split; try apply R;
    match goal with |- (if ?t then _ else _) = _ => destruct t end;
    reflexivity || apply R.
Qed.

Lemma X1_silent_before_init_witness :
  MIDI_send_note_on 1 60 100 (mkMidi false []) = mkMidi false [] /\
  MIDI_send_pitch_bend 1 0 (mkMidi false []) = mkMidi false [].
Proof.
  pose proof (X1_silent_before_init (mkMidi false []) 1 60 100 None eq_refl)
    as (_ & H1 & _).
  pose proof (X1_silent_before_init (mkMidi false []) 1 0 0 None eq_refl)
    as (_ & _ & _ & _ & _ & H2 & _).
  split; [exact H1 | exact H2].
Defined.

(** The status byte of channels 1..16: the opcode nibble plus the channel
    nibble. *)
Lemma status_byte_sum (opcode channel : Z) :
  In opcode [MIDI_NOTE_OFF; MIDI_NOTE_ON; MIDI_CONTROL_CHANGE;
             MIDI_PROGRAM_CHANGE; MIDI_PITCH_BEND] ->
  1 <= channel <= 16 ->
  status_byte opcode channel = opcode + (channel - 1) /\
  is_status_byte (status_byte opcode channel).
Proof.
  intros Hop Hch.
  assert (Hc : In channel [1; 2; 3; 4; 5; 6; 7; 8; 9; 10; 11; 12; 13; 14; 15; 16]).
  { cbn. lia. }
  cbn in Hop, Hc.
  repeat (destruct Hop as [<- | Hop]; [|]); try contradiction;
    repeat (destruct Hc as [<- | Hc]; [vm_compute; intuition discriminate|]);
    contradiction.
Qed.

Lemma sent_nothing (m : midi_t) : sent m [] m.
Proof. split; [reflexivity | symmetry; apply app_nil_r]. Qed.

Lemma send_raw_3_sent (a b c : Z) (m : midi_t) :
  midi_initialized m = true -> sent m [a; b; c] (MIDI_send_raw (Some [a; b; c]) 3 m).
Proof.
  intros Hm. rewrite MIDI_send_raw_3 by exact Hm.
  split; [cbn; congruence | reflexivity].
Qed.

Lemma send_raw_2_sent (a b : Z) (m : midi_t) :
  midi_initialized m = true -> sent m [a; b] (MIDI_send_raw (Some [a; b]) 2 m).
Proof.
  intros Hm. unfold MIDI_send_raw. rewrite Hm.
  change (take (Z.to_nat 2) [a; b]) with [a; b].
  cbn. unfold BSP_UART_putc, sent. cbn. rewrite <- !app_assoc.
  split; [congruence | reflexivity].
Qed.

(** X2. Once the module is initialised, every encoder call with byte
    arguments either sends nothing or sends one well-framed channel message:
    a status byte equal to the opcode plus [channel - 1], in [0x80..0xEF],
    followed by two data bytes (one for Program Change) that are at most
    127. *)
Theorem X2_stream_is_well_framed (m : midi_t) (channel x y value : Z) :
  midi_initialized m = true ->
  is_uint8 channel -> is_uint8 x -> is_uint8 y -> -32768 <= value <= 32767 ->
  (MIDI_send_note_on channel x y m = m \/
   exists msg, length msg = 3%nat /\ channel_message MIDI_NOTE_ON channel msg /\
               sent m msg (MIDI_send_note_on channel x y m)) /\
  (MIDI_send_note_off channel x y m = m \/
   exists msg, length msg = 3%nat /\ channel_message MIDI_NOTE_OFF channel msg /\
               sent m msg (MIDI_send_note_off channel x y m)) /\
  (MIDI_send_control_change channel x y m = m \/
   exists msg, length msg = 3%nat /\ channel_message MIDI_CONTROL_CHANGE channel msg /\
               sent m msg (MIDI_send_control_change channel x y m)) /\
  (MIDI_send_program_change channel x m = m \/
   exists msg, length msg = 2%nat /\ channel_message MIDI_PROGRAM_CHANGE channel msg /\
               sent m msg (MIDI_send_program_change channel x m)) /\
  (MIDI_send_pitch_bend channel value m = m \/
   exists msg, length msg = 3%nat /\ channel_message MIDI_PITCH_BEND channel msg /\
               sent m msg (MIDI_send_pitch_bend channel value m)).
Proof.
  intros Hm Hc Hx Hy Hv. unfold is_uint8, UINT8_MOD in *.
  assert (Hop : forall op, In op [MIDI_NOTE_OFF; MIDI_NOTE_ON; MIDI_CONTROL_CHANGE;
                                  MIDI_PROGRAM_CHANGE; MIDI_PITCH_BEND] ->
                1 <= channel <= 16 ->
                forall data, Forall is_data_byte data ->
                  channel_message op channel (status_byte op channel :: data)).
  { intros op Hin Hch data Hd.
    destruct (status_byte_sum op channel Hin Hch) as [E S].
    cbn. rewrite E in *. auto. }
  assert (D2 : forall a b, 0 <= a -> 0 <= b -> a <= 127 -> b <= 127 ->
                           Forall is_data_byte [a; b]).
  { intros a b ? ? ? ?. repeat constructor; lia. }
  unfold MIDI_send_note_on, MIDI_send_note_off, MIDI_send_control_change,
    MIDI_send_program_change, MIDI_send_pitch_bend.
  refine (conj _ (conj _ (conj _ (conj _ _)))).
  - destruct (_ || _) eqn:E; [left; reflexivity | right].
    repeat (apply orb_false_iff in E as [E ?]).
    eexists. split; [|split; [apply Hop | apply send_raw_3_sent, Hm]];
      [reflexivity | cbn; tauto | lia | apply D2; lia].
  - destruct (_ || _) eqn:E; [left; reflexivity | right].
    repeat (apply orb_false_iff in E as [E ?]).
    eexists. split; [|split; [apply Hop | apply send_raw_3_sent, Hm]];
      [reflexivity | cbn; tauto | lia | apply D2; lia].
  - destruct (_ || _) eqn:E; [left; reflexivity | right].
    repeat (apply orb_false_iff in E as [E ?]).
    eexists. split; [|split; [apply Hop | apply send_raw_3_sent, Hm]];
      [reflexivity | cbn; tauto | lia | apply D2; lia].
  - destruct (_ || _) eqn:E; [left; reflexivity | right].
    repeat (apply orb_false_iff in E as [E ?]).
    eexists. split; [|split; [apply Hop | apply send_raw_2_sent, Hm]];
      [reflexivity | cbn; tauto | lia | repeat constructor; lia].
  - destruct (_ || _) eqn:E; [left; reflexivity | right].
    repeat (apply orb_false_iff in E as [E ?]).
    eexists. split; [|split; [apply Hop | apply send_raw_3_sent, Hm]];
      [reflexivity | cbn; tauto | lia |].
    change 127 with (Z.ones 7). rewrite !Z.land_ones by lia.
    assert (Hmod : forall t, 0 <= t mod 2 ^ 7 <= Z.ones 7).
    { intros t. pose proof (Z.mod_pos_bound t (2 ^ 7) eq_refl) as Hb.
      change (2 ^ 7) with 128 in *. change (Z.ones 7) with 127. lia. }
    repeat constructor; apply Hmod.
Qed.

Lemma X2_stream_is_well_framed_witness :
  exists msg, length msg = 3%nat /\ channel_message MIDI_NOTE_ON 10 msg /\
              sent (mkMidi true []) msg (MIDI_send_note_on 10 60 100 (mkMidi true [])).
Proof.
  assert (U : forall n, 0 <= n < 256 -> is_uint8 n) by (intros n H; exact H).
  destruct (X2_stream_is_well_framed (mkMidi true []) 10 60 100 0 eq_refl
              (U 10 ltac:(lia)) (U 60 ltac:(lia)) (U 100 ltac:(lia)) ltac:(lia))
    as ([H | H] & _).
  - vm_compute in H. discriminate H.
  - exact H.
Defined.

(** X3. For a valid channel and an initialised module, a bend value
    outside -8192..+8191 is sent as the maximum 16383 on either side (bytes
    [0x7F 0x7F]), and a value inside the range is sent as two 7-bit bytes,
    least significant first, from which it is recovered as
    [lsb + 128 * msb - 8192]. *)
Theorem X3_pitch_bend_bytes (m : midi_t) (channel value : Z) :
  midi_initialized m = true -> 1 <= channel <= 16 ->
  -32768 <= value <= 32767 ->
  exists lsb msb : Z,
    uart_tx (MIDI_send_pitch_bend channel value m) =
    uart_tx m ++ [MIDI_PITCH_BEND + (channel - 1); lsb; msb] /\
    (value < -8192 \/ 8191 < value -> lsb = 0x7F /\ msb = 0x7F) /\
    (-8192 <= value <= 8191 ->
       0 <= lsb <= 127 /\ 0 <= msb <= 127 /\ lsb + 128 * msb - 8192 = value).
Proof.
  intros Hm Hch Hv. unfold MIDI_send_pitch_bend.
  rewrite channel_test_valid by exact Hch.
  rewrite MIDI_send_raw_3 by exact Hm. cbn [uart_tx].
  destruct (status_byte_sum MIDI_PITCH_BEND channel) as [-> _];
    [cbn; tauto | exact Hch |].
  eexists _, _. split; [reflexivity|]. unfold UINT16_MOD. split.
  - intros [Hlo | Hhi].
    + replace ((value + 8192) mod 65536) with (value + 8192 + 65536)
        by (apply Z.mod_unique with (q := -1); lia).
      replace (16383 <? value + 8192 + 65536) with true
        by (symmetry; apply Z.ltb_lt; lia).
      split; reflexivity.
    + rewrite Z.mod_small by lia.
      replace (16383 <? value + 8192) with true by (symmetry; apply Z.ltb_lt; lia).
      split; reflexivity.
  - intros Hin. rewrite Z.mod_small by lia.
    replace (16383 <? value + 8192) with false by (symmetry; apply Z.ltb_ge; lia).
    rewrite Z.shiftr_div_pow2 by lia. change 127 with (Z.ones 7).
    rewrite !Z.land_ones by lia. change (2 ^ 7) with 128. change (Z.ones 7) with 127.
    assert (Hq : 0 <= (value + 8192) / 128 < 128).
    { split; [apply Z.div_pos; lia | apply Z.div_lt_upper_bound; lia]. }
    rewrite (Z.mod_small ((value + 8192) / 128)) by exact Hq.
    pose proof (Z.mod_pos_bound (value + 8192) 128 eq_refl) as Hr.
    pose proof (Z.div_mod (value + 8192) 128 ltac:(lia)) as Hd.
    lia.
Qed.

Lemma X3_pitch_bend_bytes_witness :
  uart_tx (MIDI_send_pitch_bend 1 (-10000) (mkMidi true [])) = [0xE0; 0x7F; 0x7F] /\
  uart_tx (MIDI_send_pitch_bend 1 0 (mkMidi true [])) = [0xE0; 0x00; 0x40].
Proof.
  destruct (X3_pitch_bend_bytes (mkMidi true []) 1 (-10000) eq_refl
              ltac:(lia) ltac:(lia)) as (l1 & m1 & E1 & S1 & _).
  destruct (S1 ltac:(lia)) as [-> ->].
  destruct (X3_pitch_bend_bytes (mkMidi true []) 1 0 eq_refl
              ltac:(lia) ltac:(lia)) as (l2 & m2 & E2 & _ & R2).
  split; [exact E1|]. vm_compute. reflexivity.
Defined.

End EncoderStream.

(** ** Note names: what is accepted and what comes out *)

Section NoteNames.
Import Midi.

(** X4. A note name is read as a prefix: whatever follows the octave digit
    of a well-formed name is ignored. *)
Theorem X4_trailing_characters_ignored
  (l : letter) (a : accidental_t) (octave : nat) (rest : string) :
  (octave <= 9)%nat ->
  MIDI_note_name_to_number (Some (note_name l a octave ++ rest)%string) =
  MIDI_note_name_to_number (Some (note_name l a octave)).
Proof.
  intros Hoct.
  assert (Hcases : In octave (seq 0 10)) by (apply in_seq; lia).
  cbn in Hcases.
  repeat (destruct Hcases as [<- | Hcases];
          [destruct l, a, rest as [|c rest]; vm_compute; reflexivity|]).
  contradiction.
Qed.

Lemma X4_trailing_characters_ignored_witness :
  MIDI_note_name_to_number (Some "C45"%string) = 60.
Proof.
  exact (X4_trailing_characters_ignored LC Natural 4 "5" ltac:(lia)).
Defined.

(** X5. A name that does not start with one of the upper-case letters
    C, D, E, F, G, A, B is invalid, whatever follows. *)
Theorem X5_unknown_letter_rejected (s : string) :
  (forall l : letter, char_at s 0 <> letter_char l) ->
  MIDI_note_name_to_number (Some s) = 255.
Proof.
  intros Hno.
  assert (E : forall l, Ascii.eqb (letter_char l) (char_at s 0) = false).
  { intros l. apply Ascii.eqb_neq. intros H. apply (Hno l). symmetry. exact H. }
  assert (E' : forall l, Ascii.eqb (char_at s 0) (letter_char l) = false).
  { intros l. rewrite Ascii.eqb_sym. apply E. }
  pose proof (E LC) as EC. pose proof (E LD) as ED. pose proof (E LE) as EE.
  pose proof (E LF) as EF. pose proof (E LG) as EG. pose proof (E LA) as EA.
  pose proof (E LB) as EB. cbn [letter_char] in EC, ED, EE, EF, EG, EA, EB.
  assert (F : forall acc, find_semitone (seq 0 12) (char_at s 0) acc = -1).
  { intros acc. revert EC ED EE EF EG EA EB.
    generalize (char_at s 0). intros c EC ED EE EF EG EA EB.
    cbv [find_semitone seq notes char_at String.get Nat.mul Nat.add].
    rewrite EC, ED, EE, EF, EG, EA, EB. reflexivity. }
  unfold MIDI_note_name_to_number.
  destruct (String.length s <? 2)%nat; [reflexivity|].
  destruct (Ascii.eqb _ "b").
  - unfold flat_to_sharp.
    pose proof (E' LD) as FD. pose proof (E' LE) as FE. pose proof (E' LG) as FG.
    pose proof (E' LA) as FA. pose proof (E' LB) as FB.
    cbn [letter_char] in FD, FE, FG, FA, FB.
    rewrite FD, FE, FG, FA, FB. reflexivity.
  - unfold note_number_from. rewrite F. reflexivity.
Qed.

Lemma X5_unknown_letter_rejected_witness :
  MIDI_note_name_to_number (Some "c4"%string) = 255.
Proof.
  apply (X5_unknown_letter_rejected "c4"). intros l. destruct l; discriminate.
Defined.

Lemma find_semitone_sign (idxs : list nat) (c a : ascii) :
  find_semitone idxs c a = -1 \/ 0 <= find_semitone idxs c a.
Proof.
  induction idxs as [|i idxs IH]; [left; reflexivity|].
  cbn [find_semitone]. destruct (_ && _); [right; lia | exact IH].
Qed.

Lemma note_number_from_floor (s : string) (c a : ascii) :
  note_number_from s c a = 255 \/ 12 <= note_number_from s c a <= 127.
Proof.
  unfold note_number_from.
  destruct (find_semitone_sign (seq 0 12) c a) as [-> | Hs]; [left; reflexivity|].
  destruct (_ =? -1); [left; reflexivity|].
  destruct (String.length s <=? _)%nat; [left; reflexivity|].
  destruct (_ || _) eqn:Eo; [left; reflexivity|].
  apply orb_false_iff in Eo as [Eo _]. apply Z.ltb_ge in Eo.
  match goal with |- context [if ?b then _ else _] => destruct b eqn:E end;
    [right | left; reflexivity].
  apply andb_true_iff in E as [_ E2]. apply Z.leb_le in E2. lia.
Qed.

(** X6. The function never returns a number below 12: its result is 255 or
    lies in 12..127, since the lowest octave digit is 0 and stands for
    octave 0 (numbers 12..23). *)
Theorem X6_no_note_below_12 (s : option string) :
  MIDI_note_name_to_number s = 255 \/ 12 <= MIDI_note_name_to_number s <= 127.
Proof.
  destruct s as [s|]; [|left; reflexivity]. unfold MIDI_note_name_to_number.
  destruct (String.length s <? 2)%nat; [left; reflexivity|].
  destruct (Ascii.eqb _ "b").
  - destruct (flat_to_sharp _); [apply note_number_from_floor | left; reflexivity].
  - apply note_number_from_floor.
Qed.

(** X7. Every note number from 12 to 127 is the value of its sharp spelling:
    spelling the number and parsing the spelling gives the number back. *)
Theorem X7_spelling_round_trip (number : nat) :
  (12 <= number <= 127)%nat ->
  let '(l, a, octave) := sharp_spelling number in
  (octave <= 9)%nat /\
  MIDI_note_name_to_number (Some (note_name l a octave)) = Z.of_nat number.
Proof.
  intros Hn.
  assert (Hall :
    forallb (fun n =>
               let '(l, a, octave) := sharp_spelling n in
               (octave <=? 9)%nat
               && (MIDI_note_name_to_number (Some (note_name l a octave))
                   =? Z.of_nat n))
      (seq 12 116) = true) by (vm_compute; reflexivity).
  rewrite forallb_forall in Hall.
  specialize (Hall number ltac:(apply in_seq; lia)).
  destruct (sharp_spelling number) as [[l a] octave].
  apply andb_true_iff in Hall as [H1 H2].
  split; [apply Nat.leb_le, H1 | apply Z.eqb_eq, H2].
Qed.

Lemma X7_spelling_round_trip_witness :
  sharp_spelling 70 = (LA, Sharp, 4%nat) /\
  MIDI_note_name_to_number (Some "A#4"%string) = 70.
Proof.
  split; [reflexivity|].
  exact (proj2 (X7_spelling_round_trip 70 ltac:(lia))).
Defined.

End NoteNames.

(** ** The debounce pipeline over several scans *)

Section Pipeline.
Import Main Midi.
#[local] Opaque Update_Keyboard_State.

(** Two 32-bit bitmaps with the same 64 key bits are equal. *)
Lemma key_bits_inj (a b : Z) :
  is_uint32 a -> is_uint32 b ->
  (forall j : nat, (j < MAX_MATRIX_KEYS)%nat -> key_bit a j = key_bit b j) ->
  a = b.
Proof.
  intros Ha Hb Hbits. apply Z.bits_inj'. intros n Hn.
  destruct (Z_lt_le_dec n 64) as [Hlt | Hge].
  - specialize (Hbits (Z.to_nat n)). unfold key_bit in Hbits.
    rewrite Z2Nat.id in Hbits by exact Hn. apply Hbits.
    unfold MAX_MATRIX_KEYS. lia.
  - rewrite !uint32_high_bits by (assumption || lia). reflexivity.
Qed.

Lemma key_view_bit (k : KeyboardState_t) (j : nat) (b : bool) (c : Z) :
  key_view k j = (b, c) -> key_bit (stable_state k) j = b /\ key_counter k j = c.
Proof. unfold key_view. intros H. injection H as -> ->. split; reflexivity. Qed.

(** The emission, for any state whose [current_state] is its stable
    bitmap. *)
Lemma Process_Key_Changes_tx (k : KeyboardState_t) (m : midi_t) :
  is_uint32 (stable_state k) -> is_uint32 (previous_state k) ->
  current_state k = stable_state k -> midi_initialized m = true ->
  uart_tx (Process_Key_Changes k m) =
  uart_tx m ++
  concat (map (note_message k)
            (List.filter (key_bit (Z.lxor (stable_state k) (previous_state k)))
               (seq 0 MAX_MATRIX_KEYS))).
Proof.
  intros Hs Hp Hcur Hm.
  assert (Hch : is_uint32 (Z.lxor (stable_state k) (previous_state k))).
  { apply uint32_from_bits.
    - apply Z.lxor_nonneg. unfold is_uint32 in *. lia.
    - intros j Hj. rewrite Z.lxor_spec.
      rewrite !uint32_high_bits by assumption. reflexivity. }
  unfold Process_Key_Changes. rewrite Hcur.
  destruct (Z.lxor (stable_state k) (previous_state k) =? 0) eqn:E0.
  - apply Z.eqb_eq in E0. rewrite E0, filter_key_bit_0. cbn.
    rewrite app_nil_r. reflexivity.
  - assert (Hc' : is_uint32 (current_state k)) by (rewrite Hcur; exact Hs).
    assert (Hidx : Forall (fun i => (i < MAX_MATRIX_KEYS)%nat) (seq 0 MAX_MATRIX_KEYS)).
    { apply Forall_forall. intros i Hi. apply elem_of_seq in Hi. lia. }
    pose proof (proj2 (emit_loop_tx k _ (seq 0 MAX_MATRIX_KEYS) m
                         Hch Hc' Hcur Hidx Hm)) as H.
    rewrite Hcur in H. exact H.
Qed.

(** Keys 32..63 have no bit in a 32-bit bitmap. *)
Lemma filter_upper_keys (x : Z) :
  is_uint32 x ->
  List.filter (key_bit x) (seq 0 MAX_MATRIX_KEYS) = List.filter (key_bit x) (seq 0 32).
Proof.
  intros Hx. change (seq 0 MAX_MATRIX_KEYS) with (seq 0 32 ++ seq 32 32).
  rewrite List.filter_app.
  replace (List.filter (key_bit x) (seq 32 32)) with (@nil nat);
    [apply app_nil_r|].
  symmetry. generalize (seq 32 32) (fun i => proj1 (in_seq 32 32 i)).
  intros l Hl. induction l as [|i l IH]; [reflexivity|].
  cbn [List.filter]. unfold key_bit at 1.
  rewrite uint32_high_bits; [|exact Hx|].
  - apply IH. intros j Hj. apply Hl. right. exact Hj.
  - specialize (Hl i (or_introl eq_refl)). lia.
Qed.

(** X8. A scan equal to the stable bitmap leaves the stable bitmap as it
    is, clears every debounce counter, and sends nothing. *)
Theorem X8_agreeing_scan_is_quiet (k : KeyboardState_t) (m : midi_t) :
  wf_state k ->
  let k' := Update_Keyboard_State k (stable_state k) in
  stable_state k' = stable_state k /\
  (forall j : nat, (j < MAX_MATRIX_KEYS)%nat -> key_counter k' j = 0) /\
  Process_Key_Changes k' m = m.
Proof.
  intros Hwf k'.
  destruct (Update_key_spec k (stable_state k) Hwf (proj1 Hwf))
    as (W & Hcur & Hprev & Keys). fold k' in W, Hcur, Hprev, Keys.
  assert (Hv : forall j, (j < MAX_MATRIX_KEYS)%nat ->
                         key_view k' j = (key_bit (stable_state k) j, 0)).
  { intros j Hj. rewrite (Keys j Hj). apply key_step_agree. }
  assert (Hs : stable_state k' = stable_state k).
  { apply key_bits_inj; [apply W | apply Hwf |].
    intros j Hj. apply (key_view_bit _ _ _ _ (Hv j Hj)). }
  refine (conj Hs (conj _ _)).
  - intros j Hj. apply (key_view_bit _ _ _ _ (Hv j Hj)).
  - unfold Process_Key_Changes. rewrite Hcur, Hprev, Hs, Z.lxor_nilpotent.
    reflexivity.
Qed.

Lemma X8_agreeing_scan_is_quiet_witness :
  let k := run_updates keyboard_state_zero [5; 5; 5; 0] in
  stable_state k = 5 /\ key_counter k 0 = 1 /\
  stable_state (Update_Keyboard_State k 5) = 5 /\
  key_counter (Update_Keyboard_State k 5) 0 = 0.
Proof.
  assert (F : Forall is_uint32 [5; 5; 5; 0])
    by (repeat constructor; unfold UINT32_MOD; lia).
  pose proof (X8_agreeing_scan_is_quiet
                (run_updates keyboard_state_zero [5; 5; 5; 0]) (mkMidi true [])
                (run_updates_wf _ _ keyboard_state_zero_wf F)) as H.
  cbv zeta in H |- *.
  assert (E : stable_state (run_updates keyboard_state_zero [5; 5; 5; 0]) = 5)
    by (vm_compute; reflexivity).
  rewrite E in H. destruct H as (Hs & Hc & _).
  refine (conj E (conj _ (conj Hs (Hc 0%nat _)))).
  - vm_compute. reflexivity.
  - unfold MAX_MATRIX_KEYS. lia.
Defined.

Lemma key_run_three_equal (r s : bool) (c : Z) :
  0 <= c <= 2 -> key_run [r; r; r] (s, c) = (r, 0).
Proof.
  intros Hc. assert (Hcases : c = 0 \/ c = 1 \/ c = 2) by lia.
  destruct Hcases as [-> | [-> | ->]]; destruct r, s; reflexivity.
Qed.

(** X9. From a state whose counters are all at most 2 (as after any update),
    three consecutive scans of the same bitmap make the stable bitmap equal
    to it and leave every counter at 0, whatever the state was. *)
Theorem X9_three_equal_scans_settle (k : KeyboardState_t) (raw : Z) :
  wf_state k -> is_uint32 raw ->
  (forall j : nat, (j < MAX_MATRIX_KEYS)%nat -> key_counter k j <= 2) ->
  let k3 := run_updates k [raw; raw; raw] in
  stable_state k3 = raw /\
  (forall j : nat, (j < MAX_MATRIX_KEYS)%nat -> key_counter k3 j = 0).
Proof.
  intros Hwf Hraw Hc k3.
  assert (F : Forall is_uint32 [raw; raw; raw])
    by (repeat (apply List.Forall_cons; [exact Hraw|]); apply List.Forall_nil).
  assert (Hv : forall j, (j < MAX_MATRIX_KEYS)%nat ->
                         key_view k3 j = (key_bit raw j, 0)).
  { intros j Hj. unfold k3. rewrite run_updates_key by assumption.
    cbn [map]. unfold key_view at 1. apply key_run_three_equal.
    pose proof (wf_counter_range k j Hwf Hj) as [H0 _].
    specialize (Hc j Hj). lia. }
  split.
  - apply key_bits_inj; [apply (run_updates_wf _ _ Hwf F) | exact Hraw |].
    intros j Hj. apply (key_view_bit _ _ _ _ (Hv j Hj)).
  - intros j Hj. apply (key_view_bit _ _ _ _ (Hv j Hj)).
Qed.

Lemma X9_three_equal_scans_settle_witness :
  stable_state (run_updates (run_updates keyboard_state_zero [5; 5; 2])
                  [9; 9; 9]) = 9.
Proof.
  assert (U : forall n, 0 <= n < 16 -> is_uint32 n)
    by (intros n H; unfold is_uint32, UINT32_MOD; lia).
  assert (F : Forall is_uint32 [5; 5; 2]) by (repeat constructor; apply U; lia).
  assert (C : forall j : nat, (j < MAX_MATRIX_KEYS)%nat ->
                key_counter (run_updates keyboard_state_zero [5; 5; 2]) j <= 2).
  { intros j Hj. unfold MAX_MATRIX_KEYS in Hj.
    do 64 (destruct j as [|j]; [vm_compute; discriminate|]). lia. }
  pose proof (X9_three_equal_scans_settle
                (run_updates keyboard_state_zero [5; 5; 2]) 9
                (run_updates_wf _ _ keyboard_state_zero_wf F) (U 9 ltac:(lia)) C)
    as H.
  cbv zeta in H. exact (proj1 H).
Defined.

(** X10. Keys 32..63 are dead in the pipeline: after any update their
    stable bit is clear and their counter is 0, and the MIDI messages handed
    to [BSP_UART_putc] in a cycle are those of the changed keys among 0..31
    only. *)
Theorem X10_upper_keys_are_dead (k : KeyboardState_t) (raw : Z) (m : midi_t) :
  wf_state k -> is_uint32 raw -> midi_initialized m = true ->
  let k' := Update_Keyboard_State k raw in
  (forall i : nat, (32 <= i < MAX_MATRIX_KEYS)%nat -> key_view k' i = (false, 0)) /\
  uart_tx (Process_Key_Changes k' m) =
  uart_tx m ++
  concat (map (note_message k')
            (List.filter (key_bit (Z.lxor (stable_state k') (stable_state k)))
               (seq 0 32))).
Proof.
  intros Hwf Hraw Hm k'.
  destruct (Update_key_spec k raw Hwf Hraw) as (W & Hcur & Hprev & Keys).
  fold k' in W, Hcur, Hprev, Keys.
  split.
  - intros i [Hlo Hhi]. rewrite (Keys i Hhi). unfold key_bit.
    rewrite !uint32_high_bits by (assumption || apply Hwf || lia).
    reflexivity.
  - rewrite Process_Key_Changes_tx;
      [| apply W | rewrite Hprev; apply Hwf | exact Hcur | exact Hm].
    rewrite Hprev. rewrite filter_upper_keys; [reflexivity|].
    apply uint32_from_bits.
    + apply Z.lxor_nonneg. destruct W as [W _], Hwf as [Hwf _].
      unfold is_uint32 in *. lia.
    + intros j Hj. rewrite Z.lxor_spec.
      rewrite !uint32_high_bits by (assumption || apply W || apply Hwf).
      reflexivity.
Qed.

Lemma X10_upper_keys_are_dead_witness :
  key_view (Update_Keyboard_State keyboard_state_zero 4294967295) 40 = (false, 0).
Proof.
  assert (U : is_uint32 4294967295) by (unfold is_uint32, UINT32_MOD; lia).
  pose proof (X10_upper_keys_are_dead keyboard_state_zero 4294967295
                (mkMidi true []) keyboard_state_zero_wf U eq_refl) as H.
  cbv zeta in H. apply (proj1 H). unfold MAX_MATRIX_KEYS. lia.
Defined.

Lemma key_run_settled (r s : bool) :
  fst (key_run [r] (s, 0)) = s /\ snd (key_run [r] (s, 0)) <= 2 /\
  fst (key_run [r; r] (s, 0)) = s /\
  key_run [r; r; r] (s, 0) = (r, 0).
Proof. destruct r, s; vm_compute; intuition discriminate. Qed.

(** The message of key [i] when the stable bitmap is [raw]. *)
Lemma note_message_settled (k : KeyboardState_t) (raw : Z) (i : nat) :
  stable_state k = raw -> (i < MAX_MATRIX_KEYS)%nat ->
  note_message k i =
  if key_bit raw i then [0x90; 48 + Z.of_nat i; 100] else [0x80; 48 + Z.of_nat i; 0].
Proof.
  intros Hs Hi. unfold note_message. rewrite Hs, midi_notes_lookup by exact Hi.
  reflexivity.
Qed.

(** X11. From a settled state (every counter 0) with the MIDI module
    initialised, three consecutive scans of the same bitmap send nothing on
    the first two cycles; on the third the stable bitmap becomes the scanned
    one and exactly one message is sent, in ascending key order, for each key
    among 0..31 whose bit differs from the old stable bitmap: Note On
    (note [48 + i], velocity 100) where the bit is now set, Note Off
    (velocity 0) where it is now clear. *)
Theorem X11_held_chord_sounds_once (k : KeyboardState_t) (raw : Z) (m : midi_t) :
  wf_state k -> is_uint32 raw -> midi_initialized m = true ->
  (forall j : nat, (j < MAX_MATRIX_KEYS)%nat -> key_counter k j = 0) ->
  snd (run_cycles [raw] (k, m)) = m /\
  snd (run_cycles [raw; raw] (k, m)) = m /\
  stable_state (fst (run_cycles [raw; raw; raw] (k, m))) = raw /\
  uart_tx (snd (run_cycles [raw; raw; raw] (k, m))) =
  uart_tx m ++
  concat (map (fun i : nat =>
                 if key_bit raw i then [0x90; 48 + Z.of_nat i; 100]
                 else [0x80; 48 + Z.of_nat i; 0])
            (List.filter (key_bit (Z.lxor raw (stable_state k))) (seq 0 32))).
Proof.
  intros Hwf Hraw Hm Hset.
  unfold run_cycles. cbn [fold_left]. unfold Keyboard_MIDI_cycle. cbn [fst snd].
  set (k1 := Update_Keyboard_State k raw).
  set (k2 := Update_Keyboard_State k1 raw).
  set (k3 := Update_Keyboard_State k2 raw).
  destruct (Update_key_spec k raw Hwf Hraw) as (W1 & C1 & P1 & K1).
  fold k1 in W1, C1, P1, K1.
  destruct (Update_key_spec k1 raw W1 Hraw) as (W2 & C2 & P2 & K2).
  fold k2 in W2, C2, P2, K2.
  destruct (Update_key_spec k2 raw W2 Hraw) as (W3 & C3 & P3 & K3).
  fold k3 in W3, C3, P3, K3.
  clearbody k3. clearbody k2. clearbody k1.
  assert (V1 : forall j, (j < MAX_MATRIX_KEYS)%nat ->
             key_view k1 j = key_run [key_bit raw j] (key_bit (stable_state k) j, 0)).
  { intros j Hj. rewrite (K1 j Hj), (Hset j Hj). reflexivity. }
  assert (V2 : forall j, (j < MAX_MATRIX_KEYS)%nat ->
             key_view k2 j =
             key_run [key_bit raw j; key_bit raw j] (key_bit (stable_state k) j, 0)).
  { intros j Hj. rewrite (K2 j Hj).
    change (key_bit (stable_state k1) j) with (fst (key_view k1 j)).
    change (key_counter k1 j) with (snd (key_view k1 j)).
    rewrite (V1 j Hj). reflexivity. }
  assert (V3 : forall j, (j < MAX_MATRIX_KEYS)%nat ->
             key_view k3 j =
             key_run [key_bit raw j; key_bit raw j; key_bit raw j]
               (key_bit (stable_state k) j, 0)).
  { intros j Hj. rewrite (K3 j Hj).
    change (key_bit (stable_state k2) j) with (fst (key_view k2 j)).
    change (key_counter k2 j) with (snd (key_view k2 j)).
    rewrite (V2 j Hj). reflexivity. }
  assert (S1 : stable_state k1 = stable_state k).
  { apply key_bits_inj; [apply W1 | apply Hwf |]. intros j Hj.
    pose proof (f_equal fst (V1 j Hj)) as E. cbn [key_view fst] in E.
    rewrite E. apply key_run_settled. }
  assert (S2 : stable_state k2 = stable_state k).
  { apply key_bits_inj; [apply W2 | apply Hwf |]. intros j Hj.
    pose proof (f_equal fst (V2 j Hj)) as E. cbn [key_view fst] in E.
    rewrite E. apply key_run_settled. }
  assert (S3 : stable_state k3 = raw).
  { apply key_bits_inj; [apply W3 | exact Hraw |]. intros j Hj.
    pose proof (f_equal fst (V3 j Hj)) as E. cbn [key_view fst] in E.
    rewrite E. rewrite (proj2 (proj2 (proj2 (key_run_settled _ _)))). reflexivity. }
  assert (Q : forall k' : KeyboardState_t,
             current_state k' = stable_state k' ->
             previous_state k' = stable_state k' ->
             Process_Key_Changes k' m = m).
  { intros k' Hc Hp. unfold Process_Key_Changes.
    rewrite Hc, Hp, Z.lxor_nilpotent. reflexivity. }
  refine (conj _ (conj _ (conj S3 _))).
  - apply Q; [exact C1 | rewrite P1, S1; reflexivity].
  - rewrite (Q k1) by (exact C1 || (rewrite P1, S1; reflexivity)).
    apply Q; [exact C2 | rewrite P2, S1, S2; reflexivity].
  - rewrite (Q k1) by (exact C1 || (rewrite P1, S1; reflexivity)).
    rewrite (Q k2) by (exact C2 || (rewrite P2, S1, S2; reflexivity)).
    rewrite Process_Key_Changes_tx;
      [| apply W3 | rewrite P3, S2; apply Hwf | exact C3 | exact Hm].
    rewrite P3, S2, S3.
    apply (f_equal (app (uart_tx m))). apply (f_equal (@concat Z)).
    rewrite filter_upper_keys.
    + apply map_ext_in. intros i Hi. apply List.filter_In in Hi as [Hi _].
      apply in_seq in Hi. apply note_message_settled; [exact S3|].
      unfold MAX_MATRIX_KEYS. lia.
    + apply uint32_from_bits.
      * apply Z.lxor_nonneg. destruct Hwf as [Hs _].
        unfold is_uint32 in *. lia.
      * intros j Hj. rewrite Z.lxor_spec.
        rewrite !uint32_high_bits by (assumption || apply Hwf). reflexivity.
Qed.

Lemma X11_held_chord_sounds_once_witness :
  uart_tx (snd (run_cycles [9; 9; 9] (keyboard_state_zero, mkMidi true []))) =
  [0x90; 48; 100; 0x90; 51; 100].
Proof.
  assert (U : is_uint32 9) by (unfold is_uint32, UINT32_MOD; lia).
  assert (S : forall j : nat, (j < MAX_MATRIX_KEYS)%nat ->
                key_counter keyboard_state_zero j = 0).
  { intros j Hj. unfold key_counter, keyboard_state_zero. cbn [debounce_counter].
    apply lookup_total_replicate_2. exact Hj. }
  pose proof (X11_held_chord_sounds_once keyboard_state_zero 9 (mkMidi true [])
                keyboard_state_zero_wf U eq_refl S) as (_ & _ & _ & H).
  rewrite H. vm_compute. reflexivity.
Defined.

End Pipeline.

(** ** The expander driver: reset, counters, read-modify-write *)

Section DriverMore.
Import MCP23017.
Context `{B : I2C_Bus} `{C : MCP23017_Config}.

(** The reset loop of [MCP23017_init] over the first [n] slots. *)
Lemma init_loop_spec (n : nat) (t : list MCP23017_ic_t) :
  (n <= length t)%nat ->
  let t' :=
    fold_left
      (fun t i => <[i := set_error_count 0 (set_used false (t !!! i))]> t)
      (seq 0 n) t in
  length t' = length t /\
  (forall j : nat,
     t' !!! j =
     if (j <? n)%nat then set_error_count 0 (set_used false (t !!! j)) else t !!! j).
Proof.
  induction n as [|n IH]; intros Hn; cbv zeta.
  - cbn. split; [reflexivity | intros j; reflexivity].
  - rewrite seq_S, fold_left_app. cbn [fold_left Nat.add].
    destruct IH as [Hlen Hget]; [lia|].
    set (tn := fold_left _ (seq 0 n) t) in *.
    split; [rewrite length_insert; exact Hlen|].
    intros j. destruct (decide (j = n)) as [-> | Hne].
    + rewrite list_lookup_total_insert_eq by lia.
      rewrite (Hget n). rewrite (proj2 (Nat.ltb_ge n n)) by lia.
      rewrite (proj2 (Nat.ltb_lt n (S n))) by lia. reflexivity.
    + rewrite list_lookup_total_insert_ne by congruence. rewrite (Hget j).
      destruct (j <? n)%nat eqn:E.
      * apply Nat.ltb_lt in E. rewrite (proj2 (Nat.ltb_lt j (S n))) by lia.
        reflexivity.
      * apply Nat.ltb_ge in E. rewrite (proj2 (Nat.ltb_ge j (S n))) by lia.
        reflexivity.
Qed.

Lemma list_eq_total (l1 l2 : list MCP23017_ic_t) :
  length l1 = length l2 -> (forall j : nat, l1 !!! j = l2 !!! j) -> l1 = l2.
Proof.
  intros Hlen Hget. apply (list_eq_same_length l1 l2 (length l2));
    [reflexivity | exact Hlen |].
  intros i x y Hi Hx Hy.
  apply list_lookup_total_correct in Hx, Hy. rewrite <- Hx, <- Hy. apply Hget.
Qed.

(** X12. [MCP23017_init] always succeeds and does not touch the bus; it
    marks every slot free with an error count of 0 and keeps the stored
    addresses and peripherals; afterwards every register operation fails on
    every handle without a bus transaction, and a second call changes
    nothing. *)
Theorem X12_init_resets_the_table (d : driver_t) :
  length (MCP23017_ic d) = MCP23017_NB_IC ->
  let d' := snd (MCP23017_init d) in
  fst (MCP23017_init d) = true /\
  i2c d' = i2c d /\
  length (MCP23017_ic d') = MCP23017_NB_IC /\
  (forall i : nat, (i < MCP23017_NB_IC)%nat ->
     used (MCP23017_ic d' !!! i) = false /\
     error_count (MCP23017_ic d' !!! i) = 0 /\
     address (MCP23017_ic d' !!! i) = address (MCP23017_ic d !!! i) /\
     I2Cx (MCP23017_ic d' !!! i) = I2Cx (MCP23017_ic d !!! i)) /\
  (forall (o : reg_op) (id : nat), run_reg_op o id d' = (false, d')) /\
  MCP23017_init d' = (true, d').
Proof.
  intros Hlen. unfold MCP23017_init. cbn [fst snd].
  destruct (init_loop_spec MCP23017_NB_IC (MCP23017_ic d)) as [L G]; [lia|].
  set (t' := fold_left _ (seq 0 MCP23017_NB_IC) (MCP23017_ic d)) in *.
  cbn [MCP23017_ic i2c].
  assert (Hslot : forall i, (i < MCP23017_NB_IC)%nat ->
            t' !!! i = set_error_count 0 (set_used false (MCP23017_ic d !!! i))).
  { intros i Hi. rewrite (G i). rewrite (proj2 (Nat.ltb_lt _ _)) by exact Hi.
    reflexivity. }
  refine (conj eq_refl (conj eq_refl (conj _ (conj _ (conj _ _))))).
  - rewrite L. exact Hlen.
  - intros i Hi. rewrite (Hslot i Hi). repeat split.
  - intros o id. rewrite run_reg_op_shape. unfold reg_op_shape.
    cbn [MCP23017_ic i2c].
    destruct (id <? MCP23017_NB_IC)%nat eqn:E; [|reflexivity].
    apply Nat.ltb_lt in E. rewrite (Hslot id E). reflexivity.
  - f_equal. f_equal.
    destruct (init_loop_spec MCP23017_NB_IC t') as [L' G']; [lia|].
    apply list_eq_total; [exact L'|].
    intros j. rewrite (G' j). destruct (j <? MCP23017_NB_IC)%nat eqn:E;
      [|reflexivity].
    apply Nat.ltb_lt in E. rewrite (Hslot j E). reflexivity.
Qed.

(** X13. For a handle that does not name a slot in use,
    [MCP23017_resetErrorCount] fails and [MCP23017_getErrorCount] returns
    [0xFF], both without effect; for a valid handle the count read is the
    slot's counter, and after a reset it is 0, the reset having changed
    nothing but that counter. *)
Theorem X13_error_count_reset_and_read (id : nat) (d : driver_t) :
  length (MCP23017_ic d) = MCP23017_NB_IC ->
  let ic := MCP23017_ic d !!! id in
  let valid := (id <? MCP23017_NB_IC)%nat && used ic in
  (valid = false ->
     MCP23017_resetErrorCount id d = (false, d) /\
     MCP23017_getErrorCount id d = (0xFF, d)) /\
  (valid = true ->
     let d' := snd (MCP23017_resetErrorCount id d) in
     MCP23017_getErrorCount id d = (error_count ic, d) /\
     fst (MCP23017_resetErrorCount id d) = true /\
     MCP23017_getErrorCount id d' = (0, d') /\
     i2c d' = i2c d /\
     MCP23017_ic d' = <[id := set_error_count 0 ic]> (MCP23017_ic d)).
Proof.
  intros Hlen ic valid.
  unfold MCP23017_resetErrorCount, MCP23017_getErrorCount, bind.
  rewrite checkId_spec. fold ic. fold valid. split.
  - intros Hv. rewrite Hv. cbn [negb]. split; [reflexivity|].
    destruct (MCP23017_NB_IC <=? id)%nat eqn:E; [reflexivity|].
    apply Nat.leb_gt in E. unfold get_ic, ret. fold ic.
    subst valid. rewrite (proj2 (Nat.ltb_lt _ _)) in Hv by exact E.
    cbn [andb] in Hv. rewrite Hv. reflexivity.
  - intros Hv. rewrite Hv. cbn [negb].
    pose proof Hv as Hv'. subst valid. apply andb_true_iff in Hv' as [Hlt Hused].
    apply Nat.ltb_lt in Hlt.
    rewrite (proj2 (Nat.leb_gt MCP23017_NB_IC id)) by exact Hlt.
    unfold get_ic, set_ic, ret. fold ic. cbn [fst snd MCP23017_ic i2c].
    rewrite list_lookup_total_insert_eq by (rewrite Hlen; exact Hlt).
    cbn [set_error_count used error_count]. rewrite !Hused. cbn [negb].
    repeat split.
Qed.

Lemma clear_bits_spec (v pin j : Z) :
  0 <= j < 8 ->
  Z.testbit (clear_bits v pin) j = Z.testbit v j && negb (Z.testbit pin j).
Proof.
  intros Hj. unfold clear_bits, UINT8_MOD. change 256 with (2 ^ 8).
  rewrite Z.mod_pow2_bits_low by lia.
  rewrite Z.land_spec, Z.lnot_spec by lia. reflexivity.
Qed.

Lemma set_bits_spec (v pin j : Z) :
  0 <= j < 8 ->
  Z.testbit (set_bits v pin) j = Z.testbit v j || Z.testbit pin j.
Proof.
  intros Hj. unfold set_bits, UINT8_MOD. change 256 with (2 ^ 8).
  rewrite Z.mod_pow2_bits_low by lia. apply Z.lor_spec.
Qed.

(** X14. A successful read-modify-write operation (direction, output
    level, pull-up) returns [true], leaves the table as it is, and writes
    back a byte that has the pins of the mask at the requested level and
    every other pin of the port as it was read. *)
Theorem X14_rmw_touches_only_the_mask (o : reg_op) (id : nat) (d : driver_t)
  (f : Z -> Z) :
  op_update o = Some f ->
  let ic := MCP23017_ic d !!! id in
  let rd := BSP_I2C_Read (I2Cx ic) (address ic) (op_register o) (i2c d) in
  let written := f (snd (fst rd)) in
  let wr := BSP_I2C_Write (I2Cx ic) (address ic) (op_register o) written (snd rd) in
  (id <? MCP23017_NB_IC)%nat && used ic = true ->
  is_ok (fst (fst rd)) = true -> is_ok (fst wr) = true ->
  run_reg_op o id d = (true, {| MCP23017_ic := MCP23017_ic d; i2c := snd wr |}) /\
  is_uint8 written /\
  (forall j : Z, 0 <= j < 8 ->
     Z.testbit written j =
     if Z.testbit (op_mask o) j then op_level o else Z.testbit (snd (fst rd)) j).
Proof.
  intros Hf ic rd written wr Hv Hrd Hwr.
  refine (conj _ (conj _ _)).
  - rewrite run_reg_op_shape. unfold reg_op_shape. fold ic. rewrite Hv.
    cbn [negb]. fold rd. subst written wr.
    destruct rd as [[s v] b]. cbn [fst snd] in *. rewrite Hrd, Hf. cbn [negb].
    destruct (BSP_I2C_Write _ _ _ _ _) as [s' b']. cbn [fst snd] in *.
    rewrite Hwr. reflexivity.
  - subst written.
    destruct o as [? pin []|? pin|? pin []|? pin|?|? pin []|? pin];
      try discriminate Hf; injection Hf as <-;
      unfold is_uint8, clear_bits, set_bits, UINT8_MOD;
      apply Z.mod_pos_bound; reflexivity.
  - intros j Hj. subst written.
    destruct o as [? pin []|? pin|? pin []|? pin|?|? pin []|? pin];
      try discriminate Hf; injection Hf as <-; cbn [op_mask op_level];
      rewrite ?clear_bits_spec, ?set_bits_spec by exact Hj;
      destruct (Z.testbit pin j), (Z.testbit _ j); reflexivity.
Qed.

End DriverMore.

(** ** The matrix keyboard over any bus *)

Section KeyboardFacts.
Import MCP23017 MatrixKeyboard.
Context `{B : I2C_Bus} `{C : MCP23017_Config}.
Variable I2C1 : I2C_TypeDef.

Lemma for_loop_cons {S A} (i : nat) (idxs : list nat)
  (body : nat -> A -> St S A) (acc : A) (s : S) :
  for_loop (i :: idxs) body acc s =
  for_loop idxs body (fst (body i acc s)) (snd (body i acc s)).
Proof. cbn [for_loop]. unfold bind. destruct (body i acc s). reflexivity. Qed.

(** A property of the state that every iteration keeps is kept by the
    loop. *)
Lemma for_loop_state_inv {S A} (P : S -> Prop) (idxs : list nat)
  (body : nat -> A -> St S A) :
  (forall i a s, P s -> P (snd (body i a s))) ->
  forall a s, P s -> P (snd (for_loop idxs body a s)).
Proof.
  intros Hstep. induction idxs as [|i idxs IH]; intros a s Hs; [exact Hs|].
  rewrite for_loop_cons. apply IH. apply Hstep. exact Hs.
Qed.

(** A loop whose iterations leave the state [s] alone is a fold over its
    local variable. *)
Lemma for_loop_fixed {S A} (idxs : list nat) (body : nat -> A -> St S A)
  (g : nat -> A -> A) (s : S) :
  (forall i a, body i a s = (g i a, s)) ->
  forall a, for_loop idxs body a s = (fold_left (fun a i => g i a) idxs a, s).
Proof.
  intros Hbody. induction idxs as [|i idxs IH]; intros a; [reflexivity|].
  rewrite for_loop_cons, Hbody. cbn [fst snd fold_left]. apply IH.
Qed.

(** A driver call changes the driver and nothing else of the module. *)
Lemma drv_spec {A} (c : M A) (k : keyboard_t) :
  fst (drv c k) = fst (c (driver k)) /\
  driver (snd (drv c k)) = snd (c (driver k)) /\
  keyboard_keys (snd (drv c k)) = keyboard_keys k /\
  initialized (snd (drv c k)) = initialized k /\
  keyboard_chip_id (snd (drv c k)) = keyboard_chip_id k.
Proof. unfold drv. destruct (c (driver k)). repeat split. Qed.

Lemma bind_snd {S A R} (c : St S A) (f : A -> St S R) (s : S) :
  bind c f s = f (fst (c s)) (snd (c s)).
Proof. unfold bind. destruct (c s). reflexivity. Qed.

(** X15. [BSP_MATRIX_KEYBOARD_init] never reports a failure: whatever the
    bus answers, the keyboard ends up marked initialised, with the given key
    table (blanks when none is given) and with the handle [MCP23017_add]
    returned after the driver reset, be it the ERROR handle. *)
Theorem X15_keyboard_init_always_completes
  (new_keyboard_keys : option (list ascii)) (k : keyboard_t) :
  let k' := snd (BSP_MATRIX_KEYBOARD_init I2C1 new_keyboard_keys k) in
  initialized k' = true /\
  keyboard_keys k' =
    match new_keyboard_keys with
    | Some keys => take 64 keys
    | None => replicate 64 " "%char
    end /\
  keyboard_chip_id k' =
    fst (MCP23017_add I2C1 0 (snd (MCP23017_init (driver k)))).
Proof.
  cbv zeta. unfold BSP_MATRIX_KEYBOARD_init.
  rewrite !bind_snd. cbn [fst snd initialized keyboard_keys keyboard_chip_id driver].
  refine (conj eq_refl (conj eq_refl _)).
  set (id := fst (drv (MCP23017_add I2C1 0) (snd (drv MCP23017_init k)))).
  assert (Hid : id = fst (MCP23017_add I2C1 0 (snd (MCP23017_init (driver k))))).
  { unfold id. rewrite (proj1 (drv_spec _ _)).
    rewrite (proj1 (proj2 (drv_spec MCP23017_init k))). reflexivity. }
  rewrite <- Hid.
  assert (Hstep : forall (c1 c2 : nat -> M bool) (i : nat) (a : unit) (s : keyboard_t),
             keyboard_chip_id s = id ->
             keyboard_chip_id (snd ((drv (c1 i) ;;; drv (c2 i) ;;; ret tt) s)) = id).
  { intros c1 c2 i a s Hs. rewrite !bind_snd. cbn [snd ret].
    rewrite !(proj2 (proj2 (proj2 (proj2 (drv_spec _ _))))). exact Hs. }
  apply (for_loop_state_inv (fun s => keyboard_chip_id s = id)).
  { intros i a s. apply (Hstep (fun row => MCP23017_setIO id MCP23017_PORT_B
                                   (int_bit row) MCP23017_DIRECTION_INPUT)
                           (fun row => MCP23017_setPullUp id MCP23017_PORT_B
                                   (int_bit row) MCP23017_PULL_UP_STATE_HIGH) i a s). }
  apply (for_loop_state_inv (fun s => keyboard_chip_id s = id)).
  { intros i a s. apply (Hstep (fun col => MCP23017_setIO id MCP23017_PORT_A
                                   (int_bit col) MCP23017_DIRECTION_OUTPUT)
                           (fun col => MCP23017_setGPIO id MCP23017_PORT_A
                                   (int_bit col) MCP23017_PIN_STATE_HIGH) i a s). }
  reflexivity.
Qed.

(** When the handle does not name a slot in use, the driver calls of the
    scan fail at once. *)
Lemma drv_setGPIO_invalid (k : keyboard_t) (port : MCP23017_port_e) (pin : Z)
  (st : MCP23017_pinState_e) :
  fst (MCP23017_checkId (keyboard_chip_id k) (driver k)) = false ->
  drv (MCP23017_setGPIO (keyboard_chip_id k) port pin st) k = (false, k).
Proof.
  intros Hv. unfold drv, MCP23017_setGPIO. rewrite bind_snd.
  rewrite checkId_spec in *. cbn [fst snd] in *. rewrite Hv. cbn [negb ret].
  destruct k; reflexivity.
Qed.

Lemma drv_getGPIO_invalid (k : keyboard_t) (port : MCP23017_port_e) (pin : Z) :
  fst (MCP23017_checkId (keyboard_chip_id k) (driver k)) = false ->
  drv (MCP23017_getGPIO (keyboard_chip_id k) port pin) k = (None, k).
Proof.
  intros Hv. unfold drv, MCP23017_getGPIO. rewrite bind_snd.
  rewrite checkId_spec in *. cbn [fst snd] in *. rewrite Hv. cbn [negb ret].
  destruct k; reflexivity.
Qed.

(** X16. When the keyboard is marked initialised but its handle names no
    slot in use (the chip could not be registered), a scan makes no bus
    transaction, changes nothing, and reports all 32 keys as pressed. *)
Theorem X16_scan_without_chip_reports_all_keys (k : keyboard_t) :
  initialized k = true ->
  fst (MCP23017_checkId (keyboard_chip_id k) (driver k)) = false ->
  MATRIX_KEYBOARD_read_all_touchs k = (0xFFFFFFFF, k).
Proof.
  intros Hinit Hv. unfold MATRIX_KEYBOARD_read_all_touchs. rewrite Hinit.
  cbn [negb].
  assert (Hidle : columns_idle k = (tt, k)).
  { unfold columns_idle, chip_id. rewrite bind_snd. cbn [fst snd].
    rewrite (for_loop_fixed _ _ (fun _ _ => tt)).
    - destruct (fold_left _ _ _). reflexivity.
    - intros i []. rewrite bind_snd, drv_setGPIO_invalid by exact Hv. reflexivity. }
  assert (Hstrobe : forall col, strobe_column col k = (tt, k)).
  { intros col. unfold strobe_column, chip_id. rewrite bind_snd. cbn [fst snd].
    rewrite (for_loop_fixed _ _ (fun _ _ => tt)).
    - destruct (fold_left _ _ _). reflexivity.
    - intros i []. rewrite bind_snd, drv_setGPIO_invalid by exact Hv. reflexivity. }
  assert (Hrows : read_rows k = (0, k)).
  { unfold read_rows, chip_id. rewrite bind_snd. cbn [fst snd].
    rewrite (for_loop_fixed _ _ (fun _ a => a)).
    - reflexivity.
    - intros i a. rewrite bind_snd, drv_getGPIO_invalid by exact Hv. reflexivity. }
  rewrite bind_snd, Hidle. cbn [fst snd]. rewrite bind_snd.
  rewrite (for_loop_fixed _ _ (fun col st => mark_rows col 0 st)).
  - cbn [fst snd]. rewrite bind_snd, Hidle. cbn [fst snd ret]. f_equal.
  - intros col st. rewrite bind_snd, Hstrobe. cbn [fst snd].
    rewrite bind_snd, Hrows. reflexivity.
Qed.

(** A property of the local variable that every iteration keeps, on the
    indices of the loop, is kept by the loop. *)
Lemma for_loop_acc_inv {S A} (P : A -> Prop) (idxs : list nat)
  (body : nat -> A -> St S A) :
  (forall i a s, In i idxs -> P a -> P (fst (body i a s))) ->
  forall a s, P a -> P (fst (for_loop idxs body a s)).
Proof.
  induction idxs as [|i idxs IH]; intros Hstep a s Ha; [exact Ha|].
  rewrite for_loop_cons. apply IH.
  - intros j b t Hj. apply Hstep. right. exact Hj.
  - apply Hstep; [left; reflexivity | exact Ha].
Qed.

(** The row byte assembled by the scan never has bit 0 set: the first read
    is made with the mask 0, and the later ones set bits 1..7 only. *)
Lemma read_rows_bit_0 (k : keyboard_t) : Z.testbit (fst (read_rows k)) 0 = false.
Proof.
  unfold read_rows, chip_id. rewrite bind_snd. cbn [fst snd].
  apply (for_loop_acc_inv (fun v => Z.testbit v 0 = false)); [|reflexivity].
  intros pin v s Hpin Hv. rewrite bind_snd.
  pose proof (proj1 (drv_spec (MCP23017_getGPIO (keyboard_chip_id k)
                                 MCP23017_PORT_B (Z.of_nat pin)) s)) as Hr.
  destruct (fst (drv _ s)) as [[|]|] eqn:E; cbn [fst ret]; try exact Hv.
  destruct pin as [|pin].
  - exfalso. symmetry in Hr.
    exact (getGPIO_mask_0_never_high _ _ _ Hr).
  - unfold UINT8_MOD. change 256 with (2 ^ 8).
    rewrite Z.mod_pow2_bits_low by lia. rewrite Z.lor_spec, Hv.
    unfold int_bit. rewrite Z.shiftl_1_l, Z.pow2_bits_false by lia.
    reflexivity.
Qed.

(** The row analysis only adds keys to the bitmap, keeps it on 32 bits, and
    adds key [col] of row 0 when bit 0 of the row byte is clear. *)
Lemma mark_rows_spec (col : nat) (v st : Z) :
  is_uint32 st ->
  is_uint32 (mark_rows col v st) /\
  (forall c : Z, Z.testbit st c = true -> Z.testbit (mark_rows col v st) c = true) /\
  (Z.testbit v 0 = false -> (col < 8)%nat ->
   Z.testbit (mark_rows col v st) (Z.of_nat col) = true).
Proof.
  intros Hst. unfold mark_rows, MATRIX_ROWS, MATRIX_COLS.
  assert (Hstep : forall row s,
            is_uint32 s ->
            let s' := (if negb (masked v (int_bit row))
                       then if (row * 8 + col <? 32)%nat
                            then Z.lor s (ul_bit (row * 8 + col)) else s
                       else s) in
            is_uint32 s' /\ (forall c, Z.testbit s c = true -> Z.testbit s' c = true)).
  { intros row s Hs. cbv zeta.
    destruct (negb _); [|split; [exact Hs | auto]].
    destruct (_ <? 32)%nat eqn:E; [|split; [exact Hs | auto]].
    apply Nat.ltb_lt in E. rewrite ul_bit_lt by exact E. split.
    - apply uint32_from_bits.
      + apply Z.lor_nonneg. split; [apply Hs | apply Z.pow_nonneg; lia].
      + intros j Hj. rewrite Z.lor_spec, (uint32_high_bits s) by assumption.
        rewrite Z.pow2_bits_false by lia. reflexivity.
    - intros c Hc. rewrite Z.lor_spec, Hc. reflexivity. }
  assert (Hfold : forall rows s,
            is_uint32 s ->
            let s' := fold_left
                        (fun state row =>
                           if negb (masked v (int_bit row))
                           then if (row * 8 + col <? 32)%nat
                                then Z.lor state (ul_bit (row * 8 + col)) else state
                           else state) rows s in
            is_uint32 s' /\ (forall c, Z.testbit s c = true -> Z.testbit s' c = true)).
  { induction rows as [|row rows IH]; intros s Hs; cbv zeta.
    - split; [exact Hs | auto].
    - cbn [fold_left]. destruct (Hstep row s Hs) as [U1 M1].
      destruct (IH _ U1) as [U2 M2]. split; [exact U2|].
      intros c Hc. apply M2, M1, Hc. }
  refine (conj (proj1 (Hfold _ st Hst)) (conj (proj2 (Hfold _ st Hst)) _)).
  intros Hv Hcol. change (seq 0 8) with (0%nat :: seq 1 7). cbn [fold_left].
  assert (Hm : masked v (int_bit 0) = false).
  { unfold masked, int_bit. change (Z.shiftl 1 (Z.of_nat 0)) with (2 ^ 0).
    rewrite land_pow2_testbit by lia. rewrite Hv. reflexivity. }
  rewrite Hm. cbn [negb Nat.mul Nat.add].
  rewrite (proj2 (Nat.ltb_lt col 32)) by lia.
  assert (U1 : is_uint32 (Z.lor st (ul_bit col))).
  { pose proof (Hstep 0%nat st Hst) as H. cbv zeta in H.
    rewrite Hm in H. cbn [negb Nat.mul Nat.add] in H.
    rewrite (proj2 (Nat.ltb_lt col 32)) in H by lia. apply H. }
  apply (proj2 (Hfold (seq 1 7) _ U1)).
  rewrite Z.lor_spec, ul_bit_lt by lia. rewrite Z.pow2_bits_true by lia.
  apply orb_true_r.
Qed.

(** The scan of an initialised keyboard: a 32-bit bitmap with the keys of
    row 0 set. *)
Lemma read_all_touchs_row_0 (k : keyboard_t) :
  initialized k = true ->
  is_uint32 (fst (MATRIX_KEYBOARD_read_all_touchs k)) /\
  (forall col : nat, (col < 8)%nat ->
     Z.testbit (fst (MATRIX_KEYBOARD_read_all_touchs k)) (Z.of_nat col) = true).
Proof.
  intros Hinit. unfold MATRIX_KEYBOARD_read_all_touchs. rewrite Hinit.
  cbn [negb]. rewrite !bind_snd. cbn [fst snd ret].
  generalize (snd (columns_idle k)). intros s0.
  assert (Hloop : forall idxs st s,
            is_uint32 st -> Forall (fun c => (c < 8)%nat) idxs ->
            let r := fst (for_loop idxs
                            (fun col state =>
                               strobe_column col;;;
                               port_b_value <- read_rows;;
                               ret (mark_rows col port_b_value state)) st s) in
            is_uint32 r /\
            (forall c : Z, Z.testbit st c = true -> Z.testbit r c = true) /\
            (forall c : nat, In c idxs -> Z.testbit r (Z.of_nat c) = true)).
  { induction idxs as [|i idxs IH]; intros st s Hst Hidx; cbv zeta.
    - cbn. split; [exact Hst|]. split; [auto | intros c []].
    - inversion Hidx as [|? ? Hi Hrest]; subst.
      rewrite for_loop_cons. rewrite !bind_snd. cbn [fst snd ret].
      set (s1 := snd (strobe_column i s)).
      set (v := fst (read_rows s1)).
      destruct (mark_rows_spec i v st Hst) as (U & Mono & Bit).
      destruct (IH (mark_rows i v st) (snd (read_rows s1)) U Hrest)
        as (U' & Mono' & Bits').
      refine (conj U' (conj _ _)).
      + intros c Hc. apply Mono', Mono, Hc.
      + intros c [<- | Hc]; [|apply Bits', Hc].
        apply Mono', Bit; [apply read_rows_bit_0 | exact Hi]. }
  destruct (Hloop (seq 0 MATRIX_COLS) 0 s0) as (U & _ & Bits).
  - unfold is_uint32, UINT32_MOD. lia.
  - apply Forall_forall. intros c Hc. apply elem_of_seq in Hc.
    unfold MATRIX_COLS in Hc. lia.
  - split; [exact U|]. intros col Hcol. apply Bits. apply in_seq.
    unfold MATRIX_COLS. lia.
Qed.

(** X17. Whatever the bus answers, a scan of an initialised keyboard
    returns a 32-bit bitmap in which the eight keys of row 0 (bits 0..7) are
    set: the row byte is assembled with the pin numbers 0..7 used as masks,
    so the bit of row 0 is never set. *)
Theorem X17_scan_always_reports_row_0 (k : keyboard_t) :
  initialized k = true ->
  let touchs := fst (MATRIX_KEYBOARD_read_all_touchs k) in
  is_uint32 touchs /\
  (forall col : nat, (col < 8)%nat -> Z.testbit touchs (Z.of_nat col) = true).
Proof. intros Hinit. cbv zeta. exact (read_all_touchs_row_0 k Hinit). Qed.

(** The counting loop of [MATRIX_KEYBOARD_get_key] over indices below 32:
    it adds the number of set bits to the count and records the first of them
    unless an index is already recorded. *)
Lemma count_keys_fold (touchs : Z) (idxs : list nat) :
  Forall (fun i => (i < 32)%nat) idxs ->
  forall c f : Z,
    fold_left
      (fun cf i =>
         if masked touchs (ul_bit i)
         then (fst cf + 1, if snd cf =? -1 then Z.of_nat i else snd cf)
         else cf) idxs (c, f) =
    (c + Z.of_nat (length (List.filter (fun i => Z.testbit touchs (Z.of_nat i)) idxs)),
     if f =? -1
     then match List.filter (fun i => Z.testbit touchs (Z.of_nat i)) idxs with
          | [] => -1
          | i :: _ => Z.of_nat i
          end
     else f).
Proof.
  induction idxs as [|i idxs IH]; intros Hidx c f.
  - cbn. rewrite Z.add_0_r. destruct (f =? -1) eqn:E; [|reflexivity].
    apply Z.eqb_eq in E. rewrite E. reflexivity.
  - inversion Hidx as [|? ? Hi Hrest]; subst. cbn [fold_left List.filter].
    assert (Hm : masked touchs (ul_bit i) = Z.testbit touchs (Z.of_nat i)).
    { unfold masked. rewrite ul_bit_lt by exact Hi.
      rewrite land_pow2_testbit by lia. apply negb_involutive. }
    rewrite Hm. destruct (Z.testbit touchs (Z.of_nat i)).
    + cbn [fst snd]. rewrite (IH Hrest). cbn [length]. f_equal; [lia|].
      destruct (f =? -1) eqn:E; [|rewrite E; reflexivity].
      rewrite (proj2 (Z.eqb_neq (Z.of_nat i) (-1))) by lia. reflexivity.
    + apply (IH Hrest).
Qed.

Lemma key_of_touchs_decode (keys : list ascii) (touchs : Z) :
  key_of_touchs keys touchs =
  match List.filter (fun i => Z.testbit touchs (Z.of_nat i)) (seq 0 32) with
  | [] => NO_KEY
  | [i] => nth i keys NO_KEY
  | _ => MANY_KEYS
  end.
Proof.
  unfold key_of_touchs. destruct (touchs =? 0) eqn:E0.
  - apply Z.eqb_eq in E0. subst touchs.
    replace (List.filter (fun i => Z.testbit 0 (Z.of_nat i)) (seq 0 32)) with (@nil nat);
      [reflexivity|].
    generalize (seq 0 32). intros l. induction l as [|i l IH]; [reflexivity|].
    cbn [List.filter]. rewrite Z.bits_0. exact IH.
  - unfold count_keys. rewrite count_keys_fold.
    + change (-1 =? -1) with true. cbv iota. rewrite Z.add_0_l.
      destruct (List.filter _ (seq 0 32)) as [|i [|j l]].
      * reflexivity.
      * cbn [length]. change (1 <? Z.of_nat 1) with false. cbv iota.
        rewrite (proj2 (Z.leb_le 0 (Z.of_nat i))) by lia.
        rewrite Nat2Z.id. reflexivity.
      * cbn [length]. rewrite (proj2 (Z.ltb_lt 1 _)) by lia. reflexivity.
    + apply Forall_forall. intros i Hi. apply elem_of_seq in Hi. lia.
Qed.

(** X18. The decoding step of [MATRIX_KEYBOARD_get_key]: for a bitmap
    with no bit set among 0..31 the result is [NO_KEY], for exactly one set
    bit [i] it is entry [i] of the key table, and for two or more it is
    [MANY_KEYS]. *)
Theorem X18_get_key_decodes_one_key (keys : list ascii) (touchs : Z) :
  key_of_touchs keys touchs =
  match List.filter (fun i => Z.testbit touchs (Z.of_nat i)) (seq 0 32) with
  | [] => NO_KEY
  | [i] => nth i keys NO_KEY
  | _ => MANY_KEYS
  end.
Proof. exact (key_of_touchs_decode keys touchs). Qed.

(** X19. [MATRIX_KEYBOARD_get_key] never returns a key of the table:
    before initialisation it returns [NO_KEY] and does nothing, and once the
    keyboard is initialised it returns [MANY_KEYS] whatever the bus answers,
    having done what one scan does. *)
Theorem X19_get_key_never_names_a_key (k : keyboard_t) :
  MATRIX_KEYBOARD_get_key k =
  (if initialized k then MANY_KEYS else NO_KEY,
   snd (MATRIX_KEYBOARD_read_all_touchs k)).
Proof.
  unfold MATRIX_KEYBOARD_get_key. destruct (initialized k) eqn:Hinit; cbn [negb].
  - destruct (read_all_touchs_row_0 k Hinit) as [_ Hbits].
    rewrite bind_snd.
    generalize dependent (MATRIX_KEYBOARD_read_all_touchs k).
    intros [touchs k'] Hbits. cbn [fst snd] in *.
    rewrite key_of_touchs_decode.
    assert (Hseq : seq 0 32 = 0%nat :: 1%nat :: seq 2 30) by reflexivity.
    rewrite Hseq. generalize (seq 2 30). intros rest.
    assert (Hcons : forall (f : nat -> bool) (x : nat) (l : list nat),
               List.filter f (x :: l) =
               if f x then x :: List.filter f l else List.filter f l)
      by reflexivity.
    rewrite !Hcons, (Hbits 0%nat), (Hbits 1%nat) by lia. reflexivity.
  - unfold MATRIX_KEYBOARD_read_all_touchs. rewrite Hinit. reflexivity.
Qed.

End KeyboardFacts.

(** ** The periodic tasks of the main loop *)

Section Application.
Import Midi MCP23017 MatrixKeyboard Main.
Context `{B : I2C_Bus} `{C : MCP23017_Config}.
Variable I2C1 : I2C_TypeDef.
#[local] Opaque Update_Keyboard_State.

(** The elapsed time computed on [uint32_t], also across a wrap of the tick
    counter. *)
Lemma sub32_elapsed (last d : Z) :
  0 <= d < UINT32_MOD -> sub32 ((last + d) mod UINT32_MOD) last = d.
Proof.
  intros Hd. unfold sub32. rewrite Zminus_mod_idemp_l.
  replace (last + d - last) with d by lia. apply Z.mod_small. exact Hd.
Qed.

(** X20. [LED_Process], called [d] ticks after the last toggle
    ([d] below 2^32, the tick counter possibly having wrapped), does nothing
    when [d] is below 1000 and otherwise inverts the LED and records the
    current tick; it never touches the keyboard or the MIDI side. *)
Theorem X20_led_period_survives_tick_wrap (a : app_t) (d : Z) :
  0 <= d < UINT32_MOD ->
  let now := (led_last_toggle a + d) mod UINT32_MOD in
  LED_Process now a =
  if d <? LED_BLINK_PERIOD_MS then a
  else {| led_last_toggle := now;
          keyboard_last_scan := keyboard_last_scan a;
          keyboard_state := keyboard_state a;
          led_green := negb (led_green a);
          midi := midi a; keyboard := keyboard a |}.
Proof.
  intros Hd now. unfold LED_Process. subst now. rewrite sub32_elapsed by exact Hd.
  rewrite Z.leb_antisym. destruct (d <? LED_BLINK_PERIOD_MS); reflexivity.
Qed.

(** X21. [Keyboard_MIDI_Process], called [d] ticks after the last scan
    ([d] below 2^32, the tick counter possibly having wrapped), does nothing
    when [d] is below 10: no bus transaction, no debounce step, no MIDI byte.
    Otherwise it makes exactly one scan and one debounce and change-detection
    cycle on the scanned bitmap and records the current tick; it never
    touches the LED. *)
Theorem X21_scan_period_survives_tick_wrap (a : app_t) (d : Z) :
  0 <= d < UINT32_MOD ->
  let now := (keyboard_last_scan a + d) mod UINT32_MOD in
  let scan := MATRIX_KEYBOARD_read_all_touchs (keyboard a) in
  Keyboard_MIDI_Process now a =
  if d <? KEYBOARD_SCAN_PERIOD_MS then a
  else {| led_last_toggle := led_last_toggle a;
          keyboard_last_scan := now;
          keyboard_state :=
            fst (Keyboard_MIDI_cycle (fst scan) (keyboard_state a, midi a));
          led_green := led_green a;
          midi := snd (Keyboard_MIDI_cycle (fst scan) (keyboard_state a, midi a));
          keyboard := snd scan |}.
Proof.
  intros Hd now scan. unfold Keyboard_MIDI_Process. subst now.
  rewrite sub32_elapsed by exact Hd. rewrite Z.leb_antisym.
  destruct (d <? KEYBOARD_SCAN_PERIOD_MS); cbn [negb]; [reflexivity|].
  subst scan. destruct (MATRIX_KEYBOARD_read_all_touchs (keyboard a)) as [raw kb].
  reflexivity.
Qed.

(** A driver call, a column loop, a row read and a whole scan leave the
    [initialized] flag as it is. *)
Lemma columns_idle_initialized (s : keyboard_t) :
  initialized (snd (columns_idle s)) = initialized s.
Proof.
  unfold columns_idle, chip_id. rewrite bind_snd. cbn [fst snd].
  apply (for_loop_state_inv (fun s' => initialized s' = initialized s));
    [|reflexivity].
  intros i a s' Hs'. rewrite bind_snd. cbn [snd ret].
  rewrite (proj1 (proj2 (proj2 (proj2 (drv_spec _ _))))). exact Hs'.
Qed.

Lemma strobe_column_initialized (col : nat) (s : keyboard_t) :
  initialized (snd (strobe_column col s)) = initialized s.
Proof.
  unfold strobe_column, chip_id. rewrite bind_snd. cbn [fst snd].
  apply (for_loop_state_inv (fun s' => initialized s' = initialized s));
    [|reflexivity].
  intros i a s' Hs'. rewrite bind_snd. cbn [snd ret].
  rewrite (proj1 (proj2 (proj2 (proj2 (drv_spec _ _))))). exact Hs'.
Qed.

Lemma read_rows_initialized (s : keyboard_t) :
  initialized (snd (read_rows s)) = initialized s.
Proof.
  unfold read_rows, chip_id. rewrite bind_snd. cbn [fst snd].
  apply (for_loop_state_inv (fun s' => initialized s' = initialized s));
    [|reflexivity].
  intros i a s' Hs'. rewrite bind_snd.
  destruct (fst (drv _ s')) as [[|]|]; cbn [snd ret];
    rewrite (proj1 (proj2 (proj2 (proj2 (drv_spec _ _))))); exact Hs'.
Qed.

Lemma read_all_touchs_initialized (k : keyboard_t) :
  initialized (snd (MATRIX_KEYBOARD_read_all_touchs k)) = initialized k.
Proof.
  unfold MATRIX_KEYBOARD_read_all_touchs.
  destruct (initialized k) eqn:Hinit; cbn [negb snd]; [|exact Hinit].
  rewrite !bind_snd. cbn [snd ret].
  rewrite columns_idle_initialized.
  apply (for_loop_state_inv (fun s' => initialized s' = true));
    [|rewrite columns_idle_initialized; exact Hinit].
  intros i a s' Hs'. rewrite !bind_snd. cbn [snd ret].
  rewrite read_rows_initialized, strobe_column_initialized. exact Hs'.
Qed.

(** While fewer than three differing scans have been seen, a released key
    stays released; its counter counts the scans that showed it pressed. *)
Lemma key_step_idle (r : bool) (c n : Z) :
  0 <= c <= n -> n < 2 ->
  key_step r false c = (false, if r then c + 1 else 0).
Proof.
  intros Hc Hn. unfold key_step, incr8, DEBOUNCE_COUNT, UINT8_MOD.
  destruct r; cbn [Bool.eqb]; [|reflexivity].
  rewrite Z.mod_small by lia. rewrite (proj2 (Z.leb_gt 3 (c + 1))) by lia.
  reflexivity.
Qed.

Lemma key_bit_0 (j : nat) : key_bit 0 j = false.
Proof. unfold key_bit. apply Z.bits_0. Qed.

Lemma is_uint32_0 : is_uint32 0.
Proof. unfold is_uint32, UINT32_MOD. lia. Qed.

(** One of the first two scans after the state was cleared, the scan showing
    keys 0..7 pressed. *)
Lemma debounce_warm_up (k : KeyboardState_t) (raw n : Z) :
  wf_state k -> stable_state k = 0 -> is_uint32 raw -> 0 <= n < 2 ->
  (forall j : nat, (j < MAX_MATRIX_KEYS)%nat -> 0 <= key_counter k j <= n) ->
  (forall j : nat, (j < 8)%nat -> key_counter k j = n) ->
  (forall j : nat, (j < 8)%nat -> key_bit raw j = true) ->
  wf_state (Update_Keyboard_State k raw) /\
  stable_state (Update_Keyboard_State k raw) = 0 /\
  current_state (Update_Keyboard_State k raw) = 0 /\
  previous_state (Update_Keyboard_State k raw) = 0 /\
  (forall j : nat, (j < MAX_MATRIX_KEYS)%nat ->
     0 <= key_counter (Update_Keyboard_State k raw) j <= n + 1) /\
  (forall j : nat, (j < 8)%nat -> key_counter (Update_Keyboard_State k raw) j = n + 1).
Proof.
  intros Hwf Hs Hraw Hn Hc Hc8 Hr8.
  destruct (Update_key_spec k raw Hwf Hraw) as (W & Cu & P & K).
  generalize dependent (Update_Keyboard_State k raw). intros k' W Cu P K.
  assert (V : forall j : nat, (j < MAX_MATRIX_KEYS)%nat ->
            key_bit (stable_state k') j = false /\
            key_counter k' j = if key_bit raw j then key_counter k j + 1 else 0).
  { intros j Hj. pose proof (K j Hj) as E. rewrite Hs, key_bit_0 in E.
    rewrite (key_step_idle _ _ n (Hc j Hj)) in E by lia.
    unfold key_view in E. injection E as E1 E2. split; assumption. }
  assert (S0 : stable_state k' = 0).
  { apply key_bits_inj; [apply W | exact is_uint32_0 |].
    intros j Hj. rewrite key_bit_0. apply V, Hj. }
  refine (conj W (conj S0 (conj _ (conj _ (conj _ _))))).
  - rewrite Cu. exact S0.
  - rewrite P. exact Hs.
  - intros j Hj. rewrite (proj2 (V j Hj)). specialize (Hc j Hj).
    destruct (key_bit raw j); lia.
  - intros j Hj. assert (Hj' : (j < MAX_MATRIX_KEYS)%nat)
      by (unfold MAX_MATRIX_KEYS; lia).
    rewrite (proj2 (V j Hj')), (Hr8 j Hj), (Hc8 j Hj). reflexivity.
Qed.

(** The third such scan validates keys 0..7. *)
Lemma debounce_fire (k : KeyboardState_t) (raw : Z) :
  wf_state k -> stable_state k = 0 -> is_uint32 raw ->
  (forall j : nat, (j < 8)%nat -> key_counter k j = 2) ->
  (forall j : nat, (j < 8)%nat -> key_bit raw j = true) ->
  wf_state (Update_Keyboard_State k raw) /\
  current_state (Update_Keyboard_State k raw) =
    stable_state (Update_Keyboard_State k raw) /\
  previous_state (Update_Keyboard_State k raw) = 0 /\
  (forall j : nat, (j < 8)%nat ->
     key_bit (stable_state (Update_Keyboard_State k raw)) j = true).
Proof.
  intros Hwf Hs Hraw Hc8 Hr8.
  destruct (Update_key_spec k raw Hwf Hraw) as (W & Cu & P & K).
  generalize dependent (Update_Keyboard_State k raw). intros k' W Cu P K.
  refine (conj W (conj Cu (conj _ _))).
  - rewrite P. exact Hs.
  - intros j Hj. assert (Hj' : (j < MAX_MATRIX_KEYS)%nat)
      by (unfold MAX_MATRIX_KEYS; lia).
    pose proof (K j Hj') as E. rewrite Hs, key_bit_0, (Hr8 j Hj), (Hc8 j Hj) in E.
    unfold key_view in E. injection E as E1 E2. exact E1.
Qed.

Lemma filter_all_true (p : nat -> bool) (l : list nat) :
  (forall j, In j l -> p j = true) -> List.filter p l = l.
Proof.
  induction l as [|x l IH]; intros H; [reflexivity|].
  cbn [List.filter]. rewrite (H x) by (left; reflexivity).
  rewrite IH; [reflexivity|]. intros j Hj. apply H. right. exact Hj.
Qed.

(** Three pipeline cycles from the cleared state on bitmaps that all show
    keys 0..7 pressed. *)
Lemma phantom_cycles (raw1 raw2 raw3 : Z) (m : midi_t) :
  midi_initialized m = true ->
  is_uint32 raw1 -> is_uint32 raw2 -> is_uint32 raw3 ->
  (forall j : nat, (j < 8)%nat -> key_bit raw1 j = true) ->
  (forall j : nat, (j < 8)%nat -> key_bit raw2 j = true) ->
  (forall j : nat, (j < 8)%nat -> key_bit raw3 j = true) ->
  (forall j : nat, (j < 8)%nat ->
     key_bit (stable_state (fst (run_cycles [raw1; raw2; raw3]
                                   (keyboard_state_zero, m)))) j = true) /\
  exists rest : list Z,
    uart_tx (snd (run_cycles [raw1; raw2; raw3] (keyboard_state_zero, m))) =
    uart_tx m ++
    [0x90; 48; 100; 0x90; 49; 100; 0x90; 50; 100; 0x90; 51; 100;
     0x90; 52; 100; 0x90; 53; 100; 0x90; 54; 100; 0x90; 55; 100] ++ rest.
Proof.
  intros Hm U1 U2 U3 B1 B2 B3.
  unfold run_cycles. cbn [fold_left]. unfold Keyboard_MIDI_cycle. cbn [fst snd].
  assert (Z0 : forall j : nat, (j < MAX_MATRIX_KEYS)%nat ->
                 key_counter keyboard_state_zero j = 0).
  { intros j Hj. unfold key_counter, keyboard_state_zero. cbn [debounce_counter].
    apply lookup_total_replicate_2. exact Hj. }
  destruct (debounce_warm_up keyboard_state_zero raw1 0 keyboard_state_zero_wf
              eq_refl U1) as (W1 & S1 & C1 & P1 & R1 & E1);
    [lia | intros j Hj; rewrite (Z0 j Hj); lia
     | intros j Hj; apply Z0; unfold MAX_MATRIX_KEYS; lia | exact B1 |].
  generalize dependent (Update_Keyboard_State keyboard_state_zero raw1).
  intros k1 W1 S1 C1 P1 R1 E1.
  destruct (debounce_warm_up k1 raw2 1 W1 S1 U2) as (W2 & S2 & C2 & P2 & R2 & E2);
    [lia | exact R1 | exact E1 | exact B2 |].
  generalize dependent (Update_Keyboard_State k1 raw2).
  intros k2 W2 S2 C2 P2 R2 E2.
  destruct (debounce_fire k2 raw3 W2 S2 U3 E2 B3) as (W3 & C3 & P3 & F3).
  generalize dependent (Update_Keyboard_State k2 raw3).
  intros k3 W3 C3 P3 F3.
  split; [exact F3|].
  assert (Q : forall k' : KeyboardState_t,
             current_state k' = 0 -> previous_state k' = 0 ->
             Process_Key_Changes k' m = m).
  { intros k' Hc Hp. unfold Process_Key_Changes. rewrite Hc, Hp. reflexivity. }
  rewrite (Q k1 C1 P1), (Q k2 C2 P2).
  rewrite Process_Key_Changes_tx;
    [| apply W3 | rewrite P3; exact is_uint32_0 | exact C3 | exact Hm].
  rewrite P3, Z.lxor_0_r.
  assert (Hseq : seq 0 MAX_MATRIX_KEYS = seq 0 8 ++ seq 8 56) by reflexivity.
  rewrite Hseq, List.filter_app, map_app, concat_app.
  rewrite (filter_all_true _ (seq 0 8))
    by (intros j Hj; apply in_seq in Hj; apply F3; lia).
  assert (Hmsg : forall j : nat, (j < 8)%nat ->
                   note_message k3 j = [0x90; 48 + Z.of_nat j; 100]).
  { intros j Hj. rewrite (note_message_settled k3 (stable_state k3) j eq_refl)
      by (unfold MAX_MATRIX_KEYS; lia).
    rewrite (F3 j Hj). reflexivity. }
  generalize (concat (map (note_message k3)
                        (List.filter (key_bit (stable_state k3)) (seq 8 56)))).
  intros rest. exists rest.
  apply (f_equal (app (uart_tx m))). apply (f_equal (fun l => l ++ rest)).
  cbn [seq map concat]. rewrite !Hmsg by lia. reflexivity.
Qed.

Lemma Keyboard_MIDI_Process_due (t : Z) (a : app_t) :
  KEYBOARD_SCAN_PERIOD_MS <= sub32 t (keyboard_last_scan a) ->
  keyboard (Keyboard_MIDI_Process t a) =
    snd (MATRIX_KEYBOARD_read_all_touchs (keyboard a)) /\
  keyboard_last_scan (Keyboard_MIDI_Process t a) = t /\
  (keyboard_state (Keyboard_MIDI_Process t a), midi (Keyboard_MIDI_Process t a)) =
    Keyboard_MIDI_cycle (fst (MATRIX_KEYBOARD_read_all_touchs (keyboard a)))
      (keyboard_state a, midi a).
Proof.
  intros Hdue. unfold Keyboard_MIDI_Process.
  rewrite (proj2 (Z.leb_le _ _) Hdue).
  destruct (MATRIX_KEYBOARD_read_all_touchs (keyboard a)) as [raw kb].
  cbn [keyboard keyboard_last_scan keyboard_state midi fst snd].
  refine (conj eq_refl (conj eq_refl _)).
  destruct (Keyboard_MIDI_cycle raw (keyboard_state a, midi a)). reflexivity.
Qed.

(** X22. After start-up (debounce state cleared, MIDI and keyboard
    initialised), three runs of [Keyboard_MIDI_Process] that are each due
    leave keys 0..7 validated as pressed, and the MIDI messages they hand to
    [BSP_UART_putc] begin with Note On for the notes 48..55, whatever the bus
    answered and with no key touched: the scan reports row 0 as pressed on
    every cycle. *)
Theorem X22_phantom_notes_after_three_scans (a : app_t) (t1 t2 t3 : Z) :
  initialized (keyboard a) = true ->
  midi_initialized (midi a) = true ->
  keyboard_state a = keyboard_state_zero ->
  KEYBOARD_SCAN_PERIOD_MS <= sub32 t1 (keyboard_last_scan a) ->
  KEYBOARD_SCAN_PERIOD_MS <= sub32 t2 t1 ->
  KEYBOARD_SCAN_PERIOD_MS <= sub32 t3 t2 ->
  let a3 :=
    Keyboard_MIDI_Process t3 (Keyboard_MIDI_Process t2 (Keyboard_MIDI_Process t1 a)) in
  (forall j : nat, (j < 8)%nat ->
     key_bit (stable_state (keyboard_state a3)) j = true) /\
  exists rest : list Z,
    uart_tx (midi a3) =
    uart_tx (midi a) ++
    [0x90; 48; 100; 0x90; 49; 100; 0x90; 50; 100; 0x90; 51; 100;
     0x90; 52; 100; 0x90; 53; 100; 0x90; 54; 100; 0x90; 55; 100] ++ rest.
Proof.
  intros Hinit Hm Hk D1 D2 D3. cbv zeta.
  destruct (Keyboard_MIDI_Process_due t1 a D1) as (K1 & T1 & M1).
  generalize dependent (Keyboard_MIDI_Process t1 a). intros a1 K1 T1 M1.
  rewrite <- T1 in D2.
  destruct (Keyboard_MIDI_Process_due t2 a1 D2) as (K2 & T2 & M2).
  generalize dependent (Keyboard_MIDI_Process t2 a1). intros a2 K2 T2 M2.
  rewrite <- T2 in D3.
  destruct (Keyboard_MIDI_Process_due t3 a2 D3) as (K3 & T3 & M3).
  generalize dependent (Keyboard_MIDI_Process t3 a2). intros a3 K3 T3 M3.
  assert (I1 : initialized (keyboard a1) = true)
    by (rewrite K1, read_all_touchs_initialized; exact Hinit).
  assert (I2 : initialized (keyboard a2) = true)
    by (rewrite K2, read_all_touchs_initialized; exact I1).
  destruct (read_all_touchs_row_0 (keyboard a) Hinit) as [U1 B1].
  destruct (read_all_touchs_row_0 (keyboard a1) I1) as [U2 B2].
  destruct (read_all_touchs_row_0 (keyboard a2) I2) as [U3 B3].
  revert M1 M2 M3 U1 B1 U2 B2 U3 B3.
  generalize (fst (MATRIX_KEYBOARD_read_all_touchs (keyboard a))).
  generalize (fst (MATRIX_KEYBOARD_read_all_touchs (keyboard a1))).
  generalize (fst (MATRIX_KEYBOARD_read_all_touchs (keyboard a2))).
  intros raw3 raw2 raw1 M1 M2 M3 U1 B1 U2 B2 U3 B3.
  pose proof (phantom_cycles raw1 raw2 raw3 (midi a) Hm U1 U2 U3 B1 B2 B3) as H.
  unfold run_cycles in H. cbn [fold_left] in H.
  rewrite <- Hk, <- M1, <- M2, <- M3 in H. cbn [fst snd] in H. exact H.
Qed.

Lemma test_i2c_initialized (k : keyboard_t) :
  initialized (snd (BSP_MATRIX_KEYBOARD_test_i2c k)) = initialized k.
Proof.
  unfold BSP_MATRIX_KEYBOARD_test_i2c, chip_id. rewrite !bind_snd.
  cbn [fst snd ret].
  rewrite !(proj1 (proj2 (proj2 (proj2 (drv_spec _ _))))).
  apply read_rows_initialized.
Qed.

Lemma keyboard_init_initialized (keys : option (list ascii)) (k : keyboard_t) :
  initialized (snd (BSP_MATRIX_KEYBOARD_init I2C1 keys k)) = true.
Proof. unfold BSP_MATRIX_KEYBOARD_init. rewrite !bind_snd. reflexivity. Qed.

(** X23. The start-up of [main] cannot fail and does not look at what
    the bus answered: whatever the expander does, the main loop is entered
    with the keyboard marked initialised, the MIDI module initialised, the
    debounce state cleared and the two timers set, the only MIDI message
    handed to [BSP_UART_putc] being the All Notes Off of channel 1
    ([0xB0 123 0]). *)
Theorem X23_startup_always_arms_the_pipeline
  (layout : list ascii) (tick_led tick_scan : Z) (a : app_t) :
  let a' := main_startup I2C1 layout tick_led tick_scan a in
  initialized (keyboard a') = true /\
  midi_initialized (midi a') = true /\
  uart_tx (midi a') = uart_tx (midi a) ++ [0xB0; 123; 0] /\
  keyboard_state a' = keyboard_state_zero /\
  led_green a' = false /\
  led_last_toggle a' = tick_led /\
  keyboard_last_scan a' = tick_scan.
Proof.
  cbv zeta. unfold main_startup.
  cbn [keyboard midi keyboard_state led_green led_last_toggle keyboard_last_scan].
  refine (conj _ (conj _ (conj _ (conj eq_refl (conj eq_refl (conj eq_refl eq_refl)))))).
  - rewrite test_i2c_initialized. apply keyboard_init_initialized.
  - reflexivity.
  - unfold MIDI_init, MIDI_send_all_notes_off, MIDI_send_control_change.
    change ((1 <? 1) || (16 <? 1) || (127 <? MIDI_CC_ALL_NOTES_OFF) || (127 <? 0))
      with false.
    cbv iota. rewrite MIDI_send_raw_3 by reflexivity. reflexivity.
Qed.

End Application.

(** ** The further properties on the bench *)

Section MoreOnTheBench.
Import Midi MCP23017 MatrixKeyboard Main Bench.

Lemma X12_init_resets_the_table_witness :
  fst (MCP23017_init (bench_dead_driver 3)) = true /\
  used (MCP23017_ic (snd (MCP23017_init (bench_dead_driver 3))) !!! 0%nat) = false /\
  error_count (MCP23017_ic (snd (MCP23017_init (bench_dead_driver 3))) !!! 0%nat) = 0.
Proof.
  pose proof (X12_init_resets_the_table (C := bench_config) (bench_dead_driver 3)
                eq_refl) as H.
  cbv zeta in H. destruct H as (H1 & _ & _ & H4 & _).
  destruct (H4 0%nat (Nat.lt_0_succ 1)) as (Hu & He & _).
  exact (conj H1 (conj Hu He)).
Defined.

Lemma X13_error_count_reset_and_read_witness :
  fst (MCP23017_getErrorCount 0 (bench_dead_driver 3)) = 3 /\
  fst (MCP23017_getErrorCount 0
         (snd (MCP23017_resetErrorCount 0 (bench_dead_driver 3)))) = 0 /\
  fst (MCP23017_getErrorCount 1 (bench_dead_driver 3)) = 0xFF.
Proof.
  pose proof (X13_error_count_reset_and_read (C := bench_config) 0
                (bench_dead_driver 3) eq_refl) as H0.
  pose proof (X13_error_count_reset_and_read (C := bench_config) 1
                (bench_dead_driver 3) eq_refl) as H1.
  cbv zeta in H0, H1. destruct H0 as [_ H0]. destruct H1 as [H1 _].
  destruct (H0 eq_refl) as (Hget & _ & Hzero & _).
  destruct (H1 eq_refl) as (_ & Hbad).
  rewrite Hget, Hzero, Hbad. repeat split.
Defined.

Lemma X14_rmw_touches_only_the_mask_witness :
  fst (run_reg_op (Op_setGPIO MCP23017_PORT_A 0x05 MCP23017_PIN_STATE_HIGH) 0
         bench_full_driver) = true /\
  regs (i2c (snd (run_reg_op (Op_setGPIO MCP23017_PORT_A 0x05 MCP23017_PIN_STATE_HIGH)
                    0 bench_full_driver))) !!! reg_index MPC23017_REGISTER_OLAT_A
  = 0x05.
Proof.
  pose proof (X14_rmw_touches_only_the_mask (C := bench_config)
                (Op_setGPIO MCP23017_PORT_A 0x05 MCP23017_PIN_STATE_HIGH) 0
                bench_full_driver (fun v => set_bits v 0x05) eq_refl) as H.
  cbv zeta in H.
  specialize (H ltac:(vm_compute; reflexivity) ltac:(vm_compute; reflexivity)
                ltac:(vm_compute; reflexivity)).
  destruct H as (Hrun & _). rewrite Hrun.
  split; [reflexivity | vm_compute; reflexivity].
Defined.

Lemma X16_scan_without_chip_reports_all_keys_witness :
  keyboard_chip_id bench_unplugged = 255%nat /\
  fst (MATRIX_KEYBOARD_read_all_touchs bench_unplugged) = 0xFFFFFFFF.
Proof.
  assert (Hinit : initialized bench_unplugged = true) by (vm_compute; reflexivity).
  assert (Hid : fst (MCP23017_checkId (keyboard_chip_id bench_unplugged)
                       (driver bench_unplugged)) = false)
    by (vm_compute; reflexivity).
  split; [vm_compute; reflexivity|].
  rewrite (X16_scan_without_chip_reports_all_keys (C := bench_config)
             bench_unplugged Hinit Hid).
  reflexivity.
Defined.

Lemma X17_scan_always_reports_row_0_witness :
  is_uint32 (fst (MATRIX_KEYBOARD_read_all_touchs (bench_ready [(2, 3)%nat]))) /\
  Z.testbit (fst (MATRIX_KEYBOARD_read_all_touchs (bench_ready [(2, 3)%nat]))) 5 = true.
Proof.
  assert (Hinit : initialized (bench_ready [(2, 3)%nat]) = true)
    by (vm_compute; reflexivity).
  pose proof (X17_scan_always_reports_row_0 (C := bench_config)
                (bench_ready [(2, 3)%nat]) Hinit) as H.
  cbv zeta in H. destruct H as [U Hbits].
  split; [exact U|]. apply (Hbits 5%nat). lia.
Defined.

Lemma X20_led_period_survives_tick_wrap_witness :
  led_green (LED_Process 904 (mkApp 4294967200 0 keyboard_state_zero false
                                (mkMidi true []) (bench_ready []))) = true.
Proof.
  assert (Hd : 0 <= 1000 < UINT32_MOD) by (unfold UINT32_MOD; lia).
  pose proof (X20_led_period_survives_tick_wrap
                (mkApp 4294967200 0 keyboard_state_zero false (mkMidi true [])
                   (bench_ready [])) 1000 Hd) as H.
  cbv zeta in H. cbn [led_last_toggle] in H.
  change ((4294967200 + 1000) mod UINT32_MOD) with 904 in H.
  rewrite H. reflexivity.
Defined.

Lemma X21_scan_period_survives_tick_wrap_witness :
  Keyboard_MIDI_Process 5 (mkApp 0 4294967295 keyboard_state_zero false
                             (mkMidi true []) (bench_ready []))
  = mkApp 0 4294967295 keyboard_state_zero false (mkMidi true []) (bench_ready []).
Proof.
  assert (Hd : 0 <= 6 < UINT32_MOD) by (unfold UINT32_MOD; lia).
  pose proof (X21_scan_period_survives_tick_wrap (C := bench_config)
                (mkApp 0 4294967295 keyboard_state_zero false (mkMidi true [])
                   (bench_ready [])) 6 Hd) as H.
  cbv zeta in H. cbn [keyboard_last_scan] in H.
  change ((4294967295 + 6) mod UINT32_MOD) with 5 in H.
  rewrite H. reflexivity.
Defined.

Lemma X22_phantom_notes_after_three_scans_witness :
  let a := main_startup (B := bench_bus) (C := bench_config) I2C1 [] 0 0
             (bench_app []) in
  let a3 := Keyboard_MIDI_Process 30
              (Keyboard_MIDI_Process 20 (Keyboard_MIDI_Process 10 a)) in
  (forall j : nat, (j < 8)%nat ->
     key_bit (stable_state (keyboard_state a3)) j = true) /\
  exists rest : list Z,
    uart_tx (midi a3) =
    uart_tx (midi a) ++
    [0x90; 48; 100; 0x90; 49; 100; 0x90; 50; 100; 0x90; 51; 100;
     0x90; 52; 100; 0x90; 53; 100; 0x90; 54; 100; 0x90; 55; 100] ++ rest.
Proof.
  cbv zeta.
  apply (X22_phantom_notes_after_three_scans (C := bench_config)
           (main_startup (B := bench_bus) (C := bench_config) I2C1 [] 0 0
              (bench_app [])) 10 20 30).
  - vm_compute. reflexivity.
  - reflexivity.
  - reflexivity.
  - vm_compute. discriminate.
  - vm_compute. discriminate.
  - vm_compute. discriminate.
Defined.

End MoreOnTheBench.
